(** * Orchestrator: a shallow embedding of [orchestrator.py]

    The development follows the Python module top to bottom: the string
    methods it calls, the dictionaries it mutates, the hashing helpers, the
    entropy heuristic, the eight agents and the orchestration loop.

    Conventions.
    - A Python [str] is a [string] holding its UTF-8 encoding, the bytes
      [str.encode] gives; [str.strip], [str.upper] and [str.lower] act on
      the characters, with the tables of Unicode 14.0 (Python 3.11).
      [repr] and [json.dumps] are written for ASCII text.
    - A Python [dict] is an association list in insertion order: assigning
      to a present key keeps its place, assigning to a new key appends.
    - The shared state holds text under its text keys, the score under
      [current_entropy_score] and mappings of text under [code_chunks] and
      [validations] ([well_typed], kept by every step of a run); a read
      at another type, on which Python would raise, gives the default.
    - The entropy score is a decimal with two places; it is counted in
      hundredths ([Z]), so that Python's [0.5] reads [50].
    - The model server and the event loop are a [World]: what each call
      returns, and in which order gathered calls complete.  The exceptions
      the code does not catch are [Faults]: [run_orchestration] is the run
      when none strikes, [run_orchestration_raising] the run with them.  *)

From Stdlib Require Import List ZArith NArith Lia Bool Arith Ascii String.
From Stdlib Require Import DecimalString DecimalNat Permutation.
From Equations Require Import Equations.
Import ListNotations.

Local Open Scope list_scope.
Local Open Scope string_scope.

(* ------------------------------------------------------------------ *)
(** ** Unicode text *)

Module Unicode.

Local Open Scope N_scope.

Definition byte (c : ascii) : N := N_of_ascii c.
Definition chr (n : N) : string := String (ascii_of_N n) EmptyString.

(** A continuation byte of UTF-8. *)
Definition cont (n : N) : bool := (0x80 <=? n) && (n <=? 0xbf).

(** The code point of a well-formed sequence of two, three or four bytes
    (shortest form, no surrogate, at most U+10FFFF). *)
Definition char2 (b0 b1 : N) : option N :=
  if (0xc2 <=? b0) && (b0 <=? 0xdf) && cont b1
  then Some ((b0 - 0xc0) * 64 + (b1 - 0x80)) else None.

Definition char3 (b0 b1 b2 : N) : option N :=
  if (0xe0 <=? b0) && (b0 <=? 0xef) && cont b1 && cont b2 then
    let cp := (b0 - 0xe0) * 4096 + (b1 - 0x80) * 64 + (b2 - 0x80) in
    if (0x800 <=? cp) && negb ((0xd800 <=? cp) && (cp <=? 0xdfff))
    then Some cp else None
  else None.

Definition char4 (b0 b1 b2 b3 : N) : option N :=
  if (0xf0 <=? b0) && (b0 <=? 0xf4) && cont b1 && cont b2 && cont b3 then
    let cp := (b0 - 0xf0) * 262144 + (b1 - 0x80) * 4096 + (b2 - 0x80) * 64
              + (b3 - 0x80) in
    if (0x10000 <=? cp) && (cp <=? 0x10ffff) then Some cp else None
  else None.

(** A byte that belongs to no well-formed sequence (no Python [str]
    encodes to one), kept as a character of its own under the code point
    Python gives it with [errors="surrogateescape"]. *)
Definition stray (c : ascii) : N * string :=
  (0xdc00 + byte c, String c EmptyString).

(** The characters of a text, each with its code point and its bytes. *)
Fixpoint chars (s : string) : list (N * string) :=
  match s with
  | EmptyString => []
  | String c0 s1 =>
      if byte c0 <? 0x80 then (byte c0, String c0 EmptyString) :: chars s1
      else
        match s1 with
        | EmptyString => stray c0 :: chars s1
        | String c1 s2 =>
            match char2 (byte c0) (byte c1) with
            | Some cp => (cp, String c0 (String c1 EmptyString)) :: chars s2
            | None =>
                match s2 with
                | EmptyString => stray c0 :: chars s1
                | String c2 s3 =>
                    match char3 (byte c0) (byte c1) (byte c2) with
                    | Some cp =>
                        (cp, String c0 (String c1 (String c2 EmptyString)))
                        :: chars s3
                    | None =>
                        match s3 with
                        | EmptyString => stray c0 :: chars s1
                        | String c3 s4 =>
                            match char4 (byte c0) (byte c1) (byte c2) (byte c3) with
                            | Some cp =>
                                (cp, String c0 (String c1 (String c2
                                       (String c3 EmptyString))))
                                :: chars s4
                            | None => stray c0 :: chars s1
                            end
                        end
                    end
                end
            end
        end
  end.

(** The bytes of a code point. *)
Definition encode (cp : N) : string :=
  if cp <? 0x80 then chr cp
  else if cp <? 0x800 then chr (0xc0 + cp / 64) ++ chr (0x80 + cp mod 64)
  else if (0xdc80 <=? cp) && (cp <=? 0xdcff) then chr (cp - 0xdc00)
  else if cp <? 0x10000 then
    chr (0xe0 + cp / 4096) ++ chr (0x80 + (cp / 64) mod 64) ++ chr (0x80 + cp mod 64)
  else
    chr (0xf0 + cp / 262144) ++ chr (0x80 + (cp / 4096) mod 64)
    ++ chr (0x80 + (cp / 64) mod 64) ++ chr (0x80 + cp mod 64).

Definition encode_all (cps : list N) : string :=
  String.concat EmptyString (map encode cps).

Definition text_of (cs : list (N * string)) : string :=
  String.concat EmptyString (map snd cs).

Definition in_ranges (table : list (N * N)) (cp : N) : bool :=
  existsb (fun r => (fst r <=? cp) && (cp <=? snd r)) table.

(** A table of runs [(first, last, step, image of first)]: the code points
    [first], [first + step], ... up to [last] map to the image of [first]
    moved by as much. *)
Fixpoint find_run (table : list (N * N * N * N)) (cp : N) : option N :=
  match table with
  | [] => None
  | (first, last, step, image) :: table' =>
      if (first <=? cp) && (cp <=? last) && ((cp - first) mod step =? 0)
      then Some (image + (cp - first))
      else find_run table' cp
  end.

Fixpoint find_full (table : list (N * list N)) (cp : N) : option (list N) :=
  match table with
  | [] => None
  | (cp', image) :: table' =>
      if cp' =? cp then Some image else find_full table' cp
  end.

(** The tables below are those of Unicode 14.0, which Python 3.11 carries. *)

(** White space: what [str.isspace] holds of and [str.strip] removes. *)
Definition SPACE : list (N * N) :=
[
  (0x9, 0xd); (0x1c, 0x20); (0x85, 0x85); (0xa0, 0xa0); (0x1680, 0x1680);
  (0x2000, 0x200a); (0x2028, 0x2029); (0x202f, 0x202f); (0x205f, 0x205f);
  (0x3000, 0x3000) ].

(** Upper case of one character where it is one character. *)
Definition UPPER : list (N * N * N * N) :=
[
  (0x61, 0x7a, 1, 0x41); (0xb5, 0xb5, 1, 0x39c); (0xe0, 0xf6, 1, 0xc0);
  (0xf8, 0xfe, 1, 0xd8); (0xff, 0xff, 1, 0x178); (0x101, 0x12f, 2, 0x100);
  (0x131, 0x131, 1, 0x49); (0x133, 0x137, 2, 0x132); (0x13a, 0x148, 2, 0x139);
  (0x14b, 0x177, 2, 0x14a); (0x17a, 0x17e, 2, 0x179); (0x17f, 0x17f, 1, 0x53);
  (0x180, 0x180, 1, 0x243); (0x183, 0x185, 2, 0x182); (0x188, 0x188, 1, 0x187);
  (0x18c, 0x18c, 1, 0x18b); (0x192, 0x192, 1, 0x191); (0x195, 0x195, 1, 0x1f6);
  (0x199, 0x199, 1, 0x198); (0x19a, 0x19a, 1, 0x23d); (0x19e, 0x19e, 1, 0x220);
  (0x1a1, 0x1a5, 2, 0x1a0); (0x1a8, 0x1a8, 1, 0x1a7); (0x1ad, 0x1ad, 1, 0x1ac);
  (0x1b0, 0x1b0, 1, 0x1af); (0x1b4, 0x1b6, 2, 0x1b3); (0x1b9, 0x1b9, 1, 0x1b8);
  (0x1bd, 0x1bd, 1, 0x1bc); (0x1bf, 0x1bf, 1, 0x1f7); (0x1c5, 0x1c5, 1, 0x1c4);
  (0x1c6, 0x1c6, 1, 0x1c4); (0x1c8, 0x1c8, 1, 0x1c7); (0x1c9, 0x1c9, 1, 0x1c7);
  (0x1cb, 0x1cb, 1, 0x1ca); (0x1cc, 0x1cc, 1, 0x1ca); (0x1ce, 0x1dc, 2, 0x1cd);
  (0x1dd, 0x1dd, 1, 0x18e); (0x1df, 0x1ef, 2, 0x1de); (0x1f2, 0x1f2, 1, 0x1f1);
  (0x1f3, 0x1f3, 1, 0x1f1); (0x1f5, 0x1f5, 1, 0x1f4); (0x1f9, 0x21f, 2, 0x1f8);
  (0x223, 0x233, 2, 0x222); (0x23c, 0x23c, 1, 0x23b);
  (0x23f, 0x240, 1, 0x2c7e); (0x242, 0x242, 1, 0x241);
  (0x247, 0x24f, 2, 0x246); (0x250, 0x250, 1, 0x2c6f);
  (0x251, 0x251, 1, 0x2c6d); (0x252, 0x252, 1, 0x2c70);
  (0x253, 0x253, 1, 0x181); (0x254, 0x254, 1, 0x186); (0x256, 0x257, 1, 0x189);
  (0x259, 0x259, 1, 0x18f); (0x25b, 0x25b, 1, 0x190);
  (0x25c, 0x25c, 1, 0xa7ab); (0x260, 0x260, 1, 0x193);
  (0x261, 0x261, 1, 0xa7ac); (0x263, 0x263, 1, 0x194);
  (0x265, 0x265, 1, 0xa78d); (0x266, 0x266, 1, 0xa7aa);
  (0x268, 0x268, 1, 0x197); (0x269, 0x269, 1, 0x196);
  (0x26a, 0x26a, 1, 0xa7ae); (0x26b, 0x26b, 1, 0x2c62);
  (0x26c, 0x26c, 1, 0xa7ad); (0x26f, 0x26f, 1, 0x19c);
  (0x271, 0x271, 1, 0x2c6e); (0x272, 0x272, 1, 0x19d);
  (0x275, 0x275, 1, 0x19f); (0x27d, 0x27d, 1, 0x2c64);
  (0x280, 0x280, 1, 0x1a6); (0x282, 0x282, 1, 0xa7c5);
  (0x283, 0x283, 1, 0x1a9); (0x287, 0x287, 1, 0xa7b1);
  (0x288, 0x288, 1, 0x1ae); (0x289, 0x289, 1, 0x244); (0x28a, 0x28b, 1, 0x1b1);
  (0x28c, 0x28c, 1, 0x245); (0x292, 0x292, 1, 0x1b7);
  (0x29d, 0x29d, 1, 0xa7b2); (0x29e, 0x29e, 1, 0xa7b0);
  (0x345, 0x345, 1, 0x399); (0x371, 0x373, 2, 0x370); (0x377, 0x377, 1, 0x376);
  (0x37b, 0x37d, 1, 0x3fd); (0x3ac, 0x3ac, 1, 0x386); (0x3ad, 0x3af, 1, 0x388);
  (0x3b1, 0x3c1, 1, 0x391); (0x3c2, 0x3c2, 1, 0x3a3); (0x3c3, 0x3cb, 1, 0x3a3);
  (0x3cc, 0x3cc, 1, 0x38c); (0x3cd, 0x3ce, 1, 0x38e); (0x3d0, 0x3d0, 1, 0x392);
  (0x3d1, 0x3d1, 1, 0x398); (0x3d5, 0x3d5, 1, 0x3a6); (0x3d6, 0x3d6, 1, 0x3a0);
  (0x3d7, 0x3d7, 1, 0x3cf); (0x3d9, 0x3ef, 2, 0x3d8); (0x3f0, 0x3f0, 1, 0x39a);
  (0x3f1, 0x3f1, 1, 0x3a1); (0x3f2, 0x3f2, 1, 0x3f9); (0x3f3, 0x3f3, 1, 0x37f);
  (0x3f5, 0x3f5, 1, 0x395); (0x3f8, 0x3f8, 1, 0x3f7); (0x3fb, 0x3fb, 1, 0x3fa);
  (0x430, 0x44f, 1, 0x410); (0x450, 0x45f, 1, 0x400); (0x461, 0x481, 2, 0x460);
  (0x48b, 0x4bf, 2, 0x48a); (0x4c2, 0x4ce, 2, 0x4c1); (0x4cf, 0x4cf, 1, 0x4c0);
  (0x4d1, 0x52f, 2, 0x4d0); (0x561, 0x586, 1, 0x531);
  (0x10d0, 0x10fa, 1, 0x1c90); (0x10fd, 0x10ff, 1, 0x1cbd);
  (0x13f8, 0x13fd, 1, 0x13f0); (0x1c80, 0x1c80, 1, 0x412);
  (0x1c81, 0x1c81, 1, 0x414); (0x1c82, 0x1c82, 1, 0x41e);
  (0x1c83, 0x1c84, 1, 0x421); (0x1c85, 0x1c85, 1, 0x422);
  (0x1c86, 0x1c86, 1, 0x42a); (0x1c87, 0x1c87, 1, 0x462);
  (0x1c88, 0x1c88, 1, 0xa64a); (0x1d79, 0x1d79, 1, 0xa77d);
  (0x1d7d, 0x1d7d, 1, 0x2c63); (0x1d8e, 0x1d8e, 1, 0xa7c6);
  (0x1e01, 0x1e95, 2, 0x1e00); (0x1e9b, 0x1e9b, 1, 0x1e60);
  (0x1ea1, 0x1eff, 2, 0x1ea0); (0x1f00, 0x1f07, 1, 0x1f08);
  (0x1f10, 0x1f15, 1, 0x1f18); (0x1f20, 0x1f27, 1, 0x1f28);
  (0x1f30, 0x1f37, 1, 0x1f38); (0x1f40, 0x1f45, 1, 0x1f48);
  (0x1f51, 0x1f57, 2, 0x1f59); (0x1f60, 0x1f67, 1, 0x1f68);
  (0x1f70, 0x1f71, 1, 0x1fba); (0x1f72, 0x1f75, 1, 0x1fc8);
  (0x1f76, 0x1f77, 1, 0x1fda); (0x1f78, 0x1f79, 1, 0x1ff8);
  (0x1f7a, 0x1f7b, 1, 0x1fea); (0x1f7c, 0x1f7d, 1, 0x1ffa);
  (0x1fb0, 0x1fb1, 1, 0x1fb8); (0x1fbe, 0x1fbe, 1, 0x399);
  (0x1fd0, 0x1fd1, 1, 0x1fd8); (0x1fe0, 0x1fe1, 1, 0x1fe8);
  (0x1fe5, 0x1fe5, 1, 0x1fec); (0x214e, 0x214e, 1, 0x2132);
  (0x2170, 0x217f, 1, 0x2160); (0x2184, 0x2184, 1, 0x2183);
  (0x24d0, 0x24e9, 1, 0x24b6); (0x2c30, 0x2c5f, 1, 0x2c00);
  (0x2c61, 0x2c61, 1, 0x2c60); (0x2c65, 0x2c65, 1, 0x23a);
  (0x2c66, 0x2c66, 1, 0x23e); (0x2c68, 0x2c6c, 2, 0x2c67);
  (0x2c73, 0x2c73, 1, 0x2c72); (0x2c76, 0x2c76, 1, 0x2c75);
  (0x2c81, 0x2ce3, 2, 0x2c80); (0x2cec, 0x2cee, 2, 0x2ceb);
  (0x2cf3, 0x2cf3, 1, 0x2cf2); (0x2d00, 0x2d25, 1, 0x10a0);
  (0x2d27, 0x2d27, 1, 0x10c7); (0x2d2d, 0x2d2d, 1, 0x10cd);
  (0xa641, 0xa66d, 2, 0xa640); (0xa681, 0xa69b, 2, 0xa680);
  (0xa723, 0xa72f, 2, 0xa722); (0xa733, 0xa76f, 2, 0xa732);
  (0xa77a, 0xa77c, 2, 0xa779); (0xa77f, 0xa787, 2, 0xa77e);
  (0xa78c, 0xa78c, 1, 0xa78b); (0xa791, 0xa793, 2, 0xa790);
  (0xa794, 0xa794, 1, 0xa7c4); (0xa797, 0xa7a9, 2, 0xa796);
  (0xa7b5, 0xa7c3, 2, 0xa7b4); (0xa7c8, 0xa7ca, 2, 0xa7c7);
  (0xa7d1, 0xa7d1, 1, 0xa7d0); (0xa7d7, 0xa7d9, 2, 0xa7d6);
  (0xa7f6, 0xa7f6, 1, 0xa7f5); (0xab53, 0xab53, 1, 0xa7b3);
  (0xab70, 0xabbf, 1, 0x13a0); (0xff41, 0xff5a, 1, 0xff21);
  (0x10428, 0x1044f, 1, 0x10400); (0x104d8, 0x104fb, 1, 0x104b0);
  (0x10597, 0x105a1, 1, 0x10570); (0x105a3, 0x105b1, 1, 0x1057c);
  (0x105b3, 0x105b9, 1, 0x1058c); (0x105bb, 0x105bc, 1, 0x10594);
  (0x10cc0, 0x10cf2, 1, 0x10c80); (0x118c0, 0x118df, 1, 0x118a0);
  (0x16e60, 0x16e7f, 1, 0x16e40); (0x1e922, 0x1e943, 1, 0x1e900) ].

(** Upper case of one character where it is several. *)
Definition UPPER_FULL : list (N * list N) :=
[
  (0xdf, [0x53; 0x53]); (0x149, [0x2bc; 0x4e]); (0x1f0, [0x4a; 0x30c]);
  (0x390, [0x399; 0x308; 0x301]); (0x3b0, [0x3a5; 0x308; 0x301]);
  (0x587, [0x535; 0x552]); (0x1e96, [0x48; 0x331]); (0x1e97, [0x54; 0x308]);
  (0x1e98, [0x57; 0x30a]); (0x1e99, [0x59; 0x30a]); (0x1e9a, [0x41; 0x2be]);
  (0x1f50, [0x3a5; 0x313]); (0x1f52, [0x3a5; 0x313; 0x300]);
  (0x1f54, [0x3a5; 0x313; 0x301]); (0x1f56, [0x3a5; 0x313; 0x342]);
  (0x1f80, [0x1f08; 0x399]); (0x1f81, [0x1f09; 0x399]);
  (0x1f82, [0x1f0a; 0x399]); (0x1f83, [0x1f0b; 0x399]);
  (0x1f84, [0x1f0c; 0x399]); (0x1f85, [0x1f0d; 0x399]);
  (0x1f86, [0x1f0e; 0x399]); (0x1f87, [0x1f0f; 0x399]);
  (0x1f88, [0x1f08; 0x399]); (0x1f89, [0x1f09; 0x399]);
  (0x1f8a, [0x1f0a; 0x399]); (0x1f8b, [0x1f0b; 0x399]);
  (0x1f8c, [0x1f0c; 0x399]); (0x1f8d, [0x1f0d; 0x399]);
  (0x1f8e, [0x1f0e; 0x399]); (0x1f8f, [0x1f0f; 0x399]);
  (0x1f90, [0x1f28; 0x399]); (0x1f91, [0x1f29; 0x399]);
  (0x1f92, [0x1f2a; 0x399]); (0x1f93, [0x1f2b; 0x399]);
  (0x1f94, [0x1f2c; 0x399]); (0x1f95, [0x1f2d; 0x399]);
  (0x1f96, [0x1f2e; 0x399]); (0x1f97, [0x1f2f; 0x399]);
  (0x1f98, [0x1f28; 0x399]); (0x1f99, [0x1f29; 0x399]);
  (0x1f9a, [0x1f2a; 0x399]); (0x1f9b, [0x1f2b; 0x399]);
  (0x1f9c, [0x1f2c; 0x399]); (0x1f9d, [0x1f2d; 0x399]);
  (0x1f9e, [0x1f2e; 0x399]); (0x1f9f, [0x1f2f; 0x399]);
  (0x1fa0, [0x1f68; 0x399]); (0x1fa1, [0x1f69; 0x399]);
  (0x1fa2, [0x1f6a; 0x399]); (0x1fa3, [0x1f6b; 0x399]);
  (0x1fa4, [0x1f6c; 0x399]); (0x1fa5, [0x1f6d; 0x399]);
  (0x1fa6, [0x1f6e; 0x399]); (0x1fa7, [0x1f6f; 0x399]);
  (0x1fa8, [0x1f68; 0x399]); (0x1fa9, [0x1f69; 0x399]);
  (0x1faa, [0x1f6a; 0x399]); (0x1fab, [0x1f6b; 0x399]);
  (0x1fac, [0x1f6c; 0x399]); (0x1fad, [0x1f6d; 0x399]);
  (0x1fae, [0x1f6e; 0x399]); (0x1faf, [0x1f6f; 0x399]);
  (0x1fb2, [0x1fba; 0x399]); (0x1fb3, [0x391; 0x399]);
  (0x1fb4, [0x386; 0x399]); (0x1fb6, [0x391; 0x342]);
  (0x1fb7, [0x391; 0x342; 0x399]); (0x1fbc, [0x391; 0x399]);
  (0x1fc2, [0x1fca; 0x399]); (0x1fc3, [0x397; 0x399]);
  (0x1fc4, [0x389; 0x399]); (0x1fc6, [0x397; 0x342]);
  (0x1fc7, [0x397; 0x342; 0x399]); (0x1fcc, [0x397; 0x399]);
  (0x1fd2, [0x399; 0x308; 0x300]); (0x1fd3, [0x399; 0x308; 0x301]);
  (0x1fd6, [0x399; 0x342]); (0x1fd7, [0x399; 0x308; 0x342]);
  (0x1fe2, [0x3a5; 0x308; 0x300]); (0x1fe3, [0x3a5; 0x308; 0x301]);
  (0x1fe4, [0x3a1; 0x313]); (0x1fe6, [0x3a5; 0x342]);
  (0x1fe7, [0x3a5; 0x308; 0x342]); (0x1ff2, [0x1ffa; 0x399]);
  (0x1ff3, [0x3a9; 0x399]); (0x1ff4, [0x38f; 0x399]); (0x1ff6, [0x3a9; 0x342]);
  (0x1ff7, [0x3a9; 0x342; 0x399]); (0x1ffc, [0x3a9; 0x399]);
  (0xfb00, [0x46; 0x46]); (0xfb01, [0x46; 0x49]); (0xfb02, [0x46; 0x4c]);
  (0xfb03, [0x46; 0x46; 0x49]); (0xfb04, [0x46; 0x46; 0x4c]);
  (0xfb05, [0x53; 0x54]); (0xfb06, [0x53; 0x54]); (0xfb13, [0x544; 0x546]);
  (0xfb14, [0x544; 0x535]); (0xfb15, [0x544; 0x53b]); (0xfb16, [0x54e; 0x546]);
  (0xfb17, [0x544; 0x53d]) ].

Definition LOWER : list (N * N * N * N) :=
[
  (0x41, 0x5a, 1, 0x61); (0xc0, 0xd6, 1, 0xe0); (0xd8, 0xde, 1, 0xf8);
  (0x100, 0x12e, 2, 0x101); (0x132, 0x136, 2, 0x133); (0x139, 0x147, 2, 0x13a);
  (0x14a, 0x176, 2, 0x14b); (0x178, 0x178, 1, 0xff); (0x179, 0x17d, 2, 0x17a);
  (0x181, 0x181, 1, 0x253); (0x182, 0x184, 2, 0x183); (0x186, 0x186, 1, 0x254);
  (0x187, 0x187, 1, 0x188); (0x189, 0x18a, 1, 0x256); (0x18b, 0x18b, 1, 0x18c);
  (0x18e, 0x18e, 1, 0x1dd); (0x18f, 0x18f, 1, 0x259); (0x190, 0x190, 1, 0x25b);
  (0x191, 0x191, 1, 0x192); (0x193, 0x193, 1, 0x260); (0x194, 0x194, 1, 0x263);
  (0x196, 0x196, 1, 0x269); (0x197, 0x197, 1, 0x268); (0x198, 0x198, 1, 0x199);
  (0x19c, 0x19c, 1, 0x26f); (0x19d, 0x19d, 1, 0x272); (0x19f, 0x19f, 1, 0x275);
  (0x1a0, 0x1a4, 2, 0x1a1); (0x1a6, 0x1a6, 1, 0x280); (0x1a7, 0x1a7, 1, 0x1a8);
  (0x1a9, 0x1a9, 1, 0x283); (0x1ac, 0x1ac, 1, 0x1ad); (0x1ae, 0x1ae, 1, 0x288);
  (0x1af, 0x1af, 1, 0x1b0); (0x1b1, 0x1b2, 1, 0x28a); (0x1b3, 0x1b5, 2, 0x1b4);
  (0x1b7, 0x1b7, 1, 0x292); (0x1b8, 0x1b8, 1, 0x1b9); (0x1bc, 0x1bc, 1, 0x1bd);
  (0x1c4, 0x1c4, 1, 0x1c6); (0x1c5, 0x1c5, 1, 0x1c6); (0x1c7, 0x1c7, 1, 0x1c9);
  (0x1c8, 0x1c8, 1, 0x1c9); (0x1ca, 0x1ca, 1, 0x1cc); (0x1cb, 0x1db, 2, 0x1cc);
  (0x1de, 0x1ee, 2, 0x1df); (0x1f1, 0x1f1, 1, 0x1f3); (0x1f2, 0x1f4, 2, 0x1f3);
  (0x1f6, 0x1f6, 1, 0x195); (0x1f7, 0x1f7, 1, 0x1bf); (0x1f8, 0x21e, 2, 0x1f9);
  (0x220, 0x220, 1, 0x19e); (0x222, 0x232, 2, 0x223);
  (0x23a, 0x23a, 1, 0x2c65); (0x23b, 0x23b, 1, 0x23c);
  (0x23d, 0x23d, 1, 0x19a); (0x23e, 0x23e, 1, 0x2c66);
  (0x241, 0x241, 1, 0x242); (0x243, 0x243, 1, 0x180); (0x244, 0x244, 1, 0x289);
  (0x245, 0x245, 1, 0x28c); (0x246, 0x24e, 2, 0x247); (0x370, 0x372, 2, 0x371);
  (0x376, 0x376, 1, 0x377); (0x37f, 0x37f, 1, 0x3f3); (0x386, 0x386, 1, 0x3ac);
  (0x388, 0x38a, 1, 0x3ad); (0x38c, 0x38c, 1, 0x3cc); (0x38e, 0x38f, 1, 0x3cd);
  (0x391, 0x3a1, 1, 0x3b1); (0x3a3, 0x3ab, 1, 0x3c3); (0x3cf, 0x3cf, 1, 0x3d7);
  (0x3d8, 0x3ee, 2, 0x3d9); (0x3f4, 0x3f4, 1, 0x3b8); (0x3f7, 0x3f7, 1, 0x3f8);
  (0x3f9, 0x3f9, 1, 0x3f2); (0x3fa, 0x3fa, 1, 0x3fb); (0x3fd, 0x3ff, 1, 0x37b);
  (0x400, 0x40f, 1, 0x450); (0x410, 0x42f, 1, 0x430); (0x460, 0x480, 2, 0x461);
  (0x48a, 0x4be, 2, 0x48b); (0x4c0, 0x4c0, 1, 0x4cf); (0x4c1, 0x4cd, 2, 0x4c2);
  (0x4d0, 0x52e, 2, 0x4d1); (0x531, 0x556, 1, 0x561);
  (0x10a0, 0x10c5, 1, 0x2d00); (0x10c7, 0x10c7, 1, 0x2d27);
  (0x10cd, 0x10cd, 1, 0x2d2d); (0x13a0, 0x13ef, 1, 0xab70);
  (0x13f0, 0x13f5, 1, 0x13f8); (0x1c90, 0x1cba, 1, 0x10d0);
  (0x1cbd, 0x1cbf, 1, 0x10fd); (0x1e00, 0x1e94, 2, 0x1e01);
  (0x1e9e, 0x1e9e, 1, 0xdf); (0x1ea0, 0x1efe, 2, 0x1ea1);
  (0x1f08, 0x1f0f, 1, 0x1f00); (0x1f18, 0x1f1d, 1, 0x1f10);
  (0x1f28, 0x1f2f, 1, 0x1f20); (0x1f38, 0x1f3f, 1, 0x1f30);
  (0x1f48, 0x1f4d, 1, 0x1f40); (0x1f59, 0x1f5f, 2, 0x1f51);
  (0x1f68, 0x1f6f, 1, 0x1f60); (0x1f88, 0x1f8f, 1, 0x1f80);
  (0x1f98, 0x1f9f, 1, 0x1f90); (0x1fa8, 0x1faf, 1, 0x1fa0);
  (0x1fb8, 0x1fb9, 1, 0x1fb0); (0x1fba, 0x1fbb, 1, 0x1f70);
  (0x1fbc, 0x1fbc, 1, 0x1fb3); (0x1fc8, 0x1fcb, 1, 0x1f72);
  (0x1fcc, 0x1fcc, 1, 0x1fc3); (0x1fd8, 0x1fd9, 1, 0x1fd0);
  (0x1fda, 0x1fdb, 1, 0x1f76); (0x1fe8, 0x1fe9, 1, 0x1fe0);
  (0x1fea, 0x1feb, 1, 0x1f7a); (0x1fec, 0x1fec, 1, 0x1fe5);
  (0x1ff8, 0x1ff9, 1, 0x1f78); (0x1ffa, 0x1ffb, 1, 0x1f7c);
  (0x1ffc, 0x1ffc, 1, 0x1ff3); (0x2126, 0x2126, 1, 0x3c9);
  (0x212a, 0x212a, 1, 0x6b); (0x212b, 0x212b, 1, 0xe5);
  (0x2132, 0x2132, 1, 0x214e); (0x2160, 0x216f, 1, 0x2170);
  (0x2183, 0x2183, 1, 0x2184); (0x24b6, 0x24cf, 1, 0x24d0);
  (0x2c00, 0x2c2f, 1, 0x2c30); (0x2c60, 0x2c60, 1, 0x2c61);
  (0x2c62, 0x2c62, 1, 0x26b); (0x2c63, 0x2c63, 1, 0x1d7d);
  (0x2c64, 0x2c64, 1, 0x27d); (0x2c67, 0x2c6b, 2, 0x2c68);
  (0x2c6d, 0x2c6d, 1, 0x251); (0x2c6e, 0x2c6e, 1, 0x271);
  (0x2c6f, 0x2c6f, 1, 0x250); (0x2c70, 0x2c70, 1, 0x252);
  (0x2c72, 0x2c72, 1, 0x2c73); (0x2c75, 0x2c75, 1, 0x2c76);
  (0x2c7e, 0x2c7f, 1, 0x23f); (0x2c80, 0x2ce2, 2, 0x2c81);
  (0x2ceb, 0x2ced, 2, 0x2cec); (0x2cf2, 0x2cf2, 1, 0x2cf3);
  (0xa640, 0xa66c, 2, 0xa641); (0xa680, 0xa69a, 2, 0xa681);
  (0xa722, 0xa72e, 2, 0xa723); (0xa732, 0xa76e, 2, 0xa733);
  (0xa779, 0xa77b, 2, 0xa77a); (0xa77d, 0xa77d, 1, 0x1d79);
  (0xa77e, 0xa786, 2, 0xa77f); (0xa78b, 0xa78b, 1, 0xa78c);
  (0xa78d, 0xa78d, 1, 0x265); (0xa790, 0xa792, 2, 0xa791);
  (0xa796, 0xa7a8, 2, 0xa797); (0xa7aa, 0xa7aa, 1, 0x266);
  (0xa7ab, 0xa7ab, 1, 0x25c); (0xa7ac, 0xa7ac, 1, 0x261);
  (0xa7ad, 0xa7ad, 1, 0x26c); (0xa7ae, 0xa7ae, 1, 0x26a);
  (0xa7b0, 0xa7b0, 1, 0x29e); (0xa7b1, 0xa7b1, 1, 0x287);
  (0xa7b2, 0xa7b2, 1, 0x29d); (0xa7b3, 0xa7b3, 1, 0xab53);
  (0xa7b4, 0xa7c2, 2, 0xa7b5); (0xa7c4, 0xa7c4, 1, 0xa794);
  (0xa7c5, 0xa7c5, 1, 0x282); (0xa7c6, 0xa7c6, 1, 0x1d8e);
  (0xa7c7, 0xa7c9, 2, 0xa7c8); (0xa7d0, 0xa7d0, 1, 0xa7d1);
  (0xa7d6, 0xa7d8, 2, 0xa7d7); (0xa7f5, 0xa7f5, 1, 0xa7f6);
  (0xff21, 0xff3a, 1, 0xff41); (0x10400, 0x10427, 1, 0x10428);
  (0x104b0, 0x104d3, 1, 0x104d8); (0x10570, 0x1057a, 1, 0x10597);
  (0x1057c, 0x1058a, 1, 0x105a3); (0x1058c, 0x10592, 1, 0x105b3);
  (0x10594, 0x10595, 1, 0x105bb); (0x10c80, 0x10cb2, 1, 0x10cc0);
  (0x118a0, 0x118bf, 1, 0x118c0); (0x16e40, 0x16e5f, 1, 0x16e60);
  (0x1e900, 0x1e921, 1, 0x1e922) ].

Definition LOWER_FULL : list (N * list N) :=
[
  (0x130, [0x69; 0x307]) ].

(** The cased characters that are not case-ignorable, and the
    case-ignorable ones: what decides the form of a small sigma. *)
Definition CASED : list (N * N) :=
[
  (0x41, 0x5a); (0x61, 0x7a); (0xaa, 0xaa); (0xb5, 0xb5); (0xba, 0xba);
  (0xc0, 0xd6); (0xd8, 0xf6); (0xf8, 0x1ba); (0x1bc, 0x1bf); (0x1c4, 0x293);
  (0x295, 0x2af); (0x370, 0x373); (0x376, 0x377); (0x37b, 0x37d);
  (0x37f, 0x37f); (0x386, 0x386); (0x388, 0x38a); (0x38c, 0x38c);
  (0x38e, 0x3a1); (0x3a3, 0x3f5); (0x3f7, 0x481); (0x48a, 0x52f);
  (0x531, 0x556); (0x560, 0x588); (0x10a0, 0x10c5); (0x10c7, 0x10c7);
  (0x10cd, 0x10cd); (0x10d0, 0x10fa); (0x10fd, 0x10ff); (0x13a0, 0x13f5);
  (0x13f8, 0x13fd); (0x1c80, 0x1c88); (0x1c90, 0x1cba); (0x1cbd, 0x1cbf);
  (0x1d00, 0x1d2b); (0x1d6b, 0x1d77); (0x1d79, 0x1d9a); (0x1e00, 0x1f15);
  (0x1f18, 0x1f1d); (0x1f20, 0x1f45); (0x1f48, 0x1f4d); (0x1f50, 0x1f57);
  (0x1f59, 0x1f59); (0x1f5b, 0x1f5b); (0x1f5d, 0x1f5d); (0x1f5f, 0x1f7d);
  (0x1f80, 0x1fb4); (0x1fb6, 0x1fbc); (0x1fbe, 0x1fbe); (0x1fc2, 0x1fc4);
  (0x1fc6, 0x1fcc); (0x1fd0, 0x1fd3); (0x1fd6, 0x1fdb); (0x1fe0, 0x1fec);
  (0x1ff2, 0x1ff4); (0x1ff6, 0x1ffc); (0x2102, 0x2102); (0x2107, 0x2107);
  (0x210a, 0x2113); (0x2115, 0x2115); (0x2119, 0x211d); (0x2124, 0x2124);
  (0x2126, 0x2126); (0x2128, 0x2128); (0x212a, 0x212d); (0x212f, 0x2134);
  (0x2139, 0x2139); (0x213c, 0x213f); (0x2145, 0x2149); (0x214e, 0x214e);
  (0x2160, 0x217f); (0x2183, 0x2184); (0x24b6, 0x24e9); (0x2c00, 0x2c7b);
  (0x2c7e, 0x2ce4); (0x2ceb, 0x2cee); (0x2cf2, 0x2cf3); (0x2d00, 0x2d25);
  (0x2d27, 0x2d27); (0x2d2d, 0x2d2d); (0xa640, 0xa66d); (0xa680, 0xa69b);
  (0xa722, 0xa76f); (0xa771, 0xa787); (0xa78b, 0xa78e); (0xa790, 0xa7ca);
  (0xa7d0, 0xa7d1); (0xa7d3, 0xa7d3); (0xa7d5, 0xa7d9); (0xa7f5, 0xa7f6);
  (0xa7fa, 0xa7fa); (0xab30, 0xab5a); (0xab60, 0xab68); (0xab70, 0xabbf);
  (0xfb00, 0xfb06); (0xfb13, 0xfb17); (0xff21, 0xff3a); (0xff41, 0xff5a);
  (0x10400, 0x1044f); (0x104b0, 0x104d3); (0x104d8, 0x104fb);
  (0x10570, 0x1057a); (0x1057c, 0x1058a); (0x1058c, 0x10592);
  (0x10594, 0x10595); (0x10597, 0x105a1); (0x105a3, 0x105b1);
  (0x105b3, 0x105b9); (0x105bb, 0x105bc); (0x10c80, 0x10cb2);
  (0x10cc0, 0x10cf2); (0x118a0, 0x118df); (0x16e40, 0x16e7f);
  (0x1d400, 0x1d454); (0x1d456, 0x1d49c); (0x1d49e, 0x1d49f);
  (0x1d4a2, 0x1d4a2); (0x1d4a5, 0x1d4a6); (0x1d4a9, 0x1d4ac);
  (0x1d4ae, 0x1d4b9); (0x1d4bb, 0x1d4bb); (0x1d4bd, 0x1d4c3);
  (0x1d4c5, 0x1d505); (0x1d507, 0x1d50a); (0x1d50d, 0x1d514);
  (0x1d516, 0x1d51c); (0x1d51e, 0x1d539); (0x1d53b, 0x1d53e);
  (0x1d540, 0x1d544); (0x1d546, 0x1d546); (0x1d54a, 0x1d550);
  (0x1d552, 0x1d6a5); (0x1d6a8, 0x1d6c0); (0x1d6c2, 0x1d6da);
  (0x1d6dc, 0x1d6fa); (0x1d6fc, 0x1d714); (0x1d716, 0x1d734);
  (0x1d736, 0x1d74e); (0x1d750, 0x1d76e); (0x1d770, 0x1d788);
  (0x1d78a, 0x1d7a8); (0x1d7aa, 0x1d7c2); (0x1d7c4, 0x1d7cb);
  (0x1df00, 0x1df09); (0x1df0b, 0x1df1e); (0x1e900, 0x1e943);
  (0x1f130, 0x1f149); (0x1f150, 0x1f169); (0x1f170, 0x1f189) ].

Definition IGNORABLE : list (N * N) :=
[
  (0x27, 0x27); (0x2e, 0x2e); (0x3a, 0x3a); (0x5e, 0x5e); (0x60, 0x60);
  (0xa8, 0xa8); (0xad, 0xad); (0xaf, 0xaf); (0xb4, 0xb4); (0xb7, 0xb8);
  (0x2b0, 0x36f); (0x374, 0x375); (0x37a, 0x37a); (0x384, 0x385);
  (0x387, 0x387); (0x483, 0x489); (0x559, 0x559); (0x55f, 0x55f);
  (0x591, 0x5bd); (0x5bf, 0x5bf); (0x5c1, 0x5c2); (0x5c4, 0x5c5);
  (0x5c7, 0x5c7); (0x5f4, 0x5f4); (0x600, 0x605); (0x610, 0x61a);
  (0x61c, 0x61c); (0x640, 0x640); (0x64b, 0x65f); (0x670, 0x670);
  (0x6d6, 0x6dd); (0x6df, 0x6e8); (0x6ea, 0x6ed); (0x70f, 0x70f);
  (0x711, 0x711); (0x730, 0x74a); (0x7a6, 0x7b0); (0x7eb, 0x7f5);
  (0x7fa, 0x7fa); (0x7fd, 0x7fd); (0x816, 0x82d); (0x859, 0x85b);
  (0x888, 0x888); (0x890, 0x891); (0x898, 0x89f); (0x8c9, 0x902);
  (0x93a, 0x93a); (0x93c, 0x93c); (0x941, 0x948); (0x94d, 0x94d);
  (0x951, 0x957); (0x962, 0x963); (0x971, 0x971); (0x981, 0x981);
  (0x9bc, 0x9bc); (0x9c1, 0x9c4); (0x9cd, 0x9cd); (0x9e2, 0x9e3);
  (0x9fe, 0x9fe); (0xa01, 0xa02); (0xa3c, 0xa3c); (0xa41, 0xa42);
  (0xa47, 0xa48); (0xa4b, 0xa4d); (0xa51, 0xa51); (0xa70, 0xa71);
  (0xa75, 0xa75); (0xa81, 0xa82); (0xabc, 0xabc); (0xac1, 0xac5);
  (0xac7, 0xac8); (0xacd, 0xacd); (0xae2, 0xae3); (0xafa, 0xaff);
  (0xb01, 0xb01); (0xb3c, 0xb3c); (0xb3f, 0xb3f); (0xb41, 0xb44);
  (0xb4d, 0xb4d); (0xb55, 0xb56); (0xb62, 0xb63); (0xb82, 0xb82);
  (0xbc0, 0xbc0); (0xbcd, 0xbcd); (0xc00, 0xc00); (0xc04, 0xc04);
  (0xc3c, 0xc3c); (0xc3e, 0xc40); (0xc46, 0xc48); (0xc4a, 0xc4d);
  (0xc55, 0xc56); (0xc62, 0xc63); (0xc81, 0xc81); (0xcbc, 0xcbc);
  (0xcbf, 0xcbf); (0xcc6, 0xcc6); (0xccc, 0xccd); (0xce2, 0xce3);
  (0xd00, 0xd01); (0xd3b, 0xd3c); (0xd41, 0xd44); (0xd4d, 0xd4d);
  (0xd62, 0xd63); (0xd81, 0xd81); (0xdca, 0xdca); (0xdd2, 0xdd4);
  (0xdd6, 0xdd6); (0xe31, 0xe31); (0xe34, 0xe3a); (0xe46, 0xe4e);
  (0xeb1, 0xeb1); (0xeb4, 0xebc); (0xec6, 0xec6); (0xec8, 0xecd);
  (0xf18, 0xf19); (0xf35, 0xf35); (0xf37, 0xf37); (0xf39, 0xf39);
  (0xf71, 0xf7e); (0xf80, 0xf84); (0xf86, 0xf87); (0xf8d, 0xf97);
  (0xf99, 0xfbc); (0xfc6, 0xfc6); (0x102d, 0x1030); (0x1032, 0x1037);
  (0x1039, 0x103a); (0x103d, 0x103e); (0x1058, 0x1059); (0x105e, 0x1060);
  (0x1071, 0x1074); (0x1082, 0x1082); (0x1085, 0x1086); (0x108d, 0x108d);
  (0x109d, 0x109d); (0x10fc, 0x10fc); (0x135d, 0x135f); (0x1712, 0x1714);
  (0x1732, 0x1733); (0x1752, 0x1753); (0x1772, 0x1773); (0x17b4, 0x17b5);
  (0x17b7, 0x17bd); (0x17c6, 0x17c6); (0x17c9, 0x17d3); (0x17d7, 0x17d7);
  (0x17dd, 0x17dd); (0x180b, 0x180f); (0x1843, 0x1843); (0x1885, 0x1886);
  (0x18a9, 0x18a9); (0x1920, 0x1922); (0x1927, 0x1928); (0x1932, 0x1932);
  (0x1939, 0x193b); (0x1a17, 0x1a18); (0x1a1b, 0x1a1b); (0x1a56, 0x1a56);
  (0x1a58, 0x1a5e); (0x1a60, 0x1a60); (0x1a62, 0x1a62); (0x1a65, 0x1a6c);
  (0x1a73, 0x1a7c); (0x1a7f, 0x1a7f); (0x1aa7, 0x1aa7); (0x1ab0, 0x1ace);
  (0x1b00, 0x1b03); (0x1b34, 0x1b34); (0x1b36, 0x1b3a); (0x1b3c, 0x1b3c);
  (0x1b42, 0x1b42); (0x1b6b, 0x1b73); (0x1b80, 0x1b81); (0x1ba2, 0x1ba5);
  (0x1ba8, 0x1ba9); (0x1bab, 0x1bad); (0x1be6, 0x1be6); (0x1be8, 0x1be9);
  (0x1bed, 0x1bed); (0x1bef, 0x1bf1); (0x1c2c, 0x1c33); (0x1c36, 0x1c37);
  (0x1c78, 0x1c7d); (0x1cd0, 0x1cd2); (0x1cd4, 0x1ce0); (0x1ce2, 0x1ce8);
  (0x1ced, 0x1ced); (0x1cf4, 0x1cf4); (0x1cf8, 0x1cf9); (0x1d2c, 0x1d6a);
  (0x1d78, 0x1d78); (0x1d9b, 0x1dff); (0x1fbd, 0x1fbd); (0x1fbf, 0x1fc1);
  (0x1fcd, 0x1fcf); (0x1fdd, 0x1fdf); (0x1fed, 0x1fef); (0x1ffd, 0x1ffe);
  (0x200b, 0x200f); (0x2018, 0x2019); (0x2024, 0x2024); (0x2027, 0x2027);
  (0x202a, 0x202e); (0x2060, 0x2064); (0x2066, 0x206f); (0x2071, 0x2071);
  (0x207f, 0x207f); (0x2090, 0x209c); (0x20d0, 0x20f0); (0x2c7c, 0x2c7d);
  (0x2cef, 0x2cf1); (0x2d6f, 0x2d6f); (0x2d7f, 0x2d7f); (0x2de0, 0x2dff);
  (0x2e2f, 0x2e2f); (0x3005, 0x3005); (0x302a, 0x302d); (0x3031, 0x3035);
  (0x303b, 0x303b); (0x3099, 0x309e); (0x30fc, 0x30fe); (0xa015, 0xa015);
  (0xa4f8, 0xa4fd); (0xa60c, 0xa60c); (0xa66f, 0xa672); (0xa674, 0xa67d);
  (0xa67f, 0xa67f); (0xa69c, 0xa69f); (0xa6f0, 0xa6f1); (0xa700, 0xa721);
  (0xa770, 0xa770); (0xa788, 0xa78a); (0xa7f2, 0xa7f4); (0xa7f8, 0xa7f9);
  (0xa802, 0xa802); (0xa806, 0xa806); (0xa80b, 0xa80b); (0xa825, 0xa826);
  (0xa82c, 0xa82c); (0xa8c4, 0xa8c5); (0xa8e0, 0xa8f1); (0xa8ff, 0xa8ff);
  (0xa926, 0xa92d); (0xa947, 0xa951); (0xa980, 0xa982); (0xa9b3, 0xa9b3);
  (0xa9b6, 0xa9b9); (0xa9bc, 0xa9bd); (0xa9cf, 0xa9cf); (0xa9e5, 0xa9e6);
  (0xaa29, 0xaa2e); (0xaa31, 0xaa32); (0xaa35, 0xaa36); (0xaa43, 0xaa43);
  (0xaa4c, 0xaa4c); (0xaa70, 0xaa70); (0xaa7c, 0xaa7c); (0xaab0, 0xaab0);
  (0xaab2, 0xaab4); (0xaab7, 0xaab8); (0xaabe, 0xaabf); (0xaac1, 0xaac1);
  (0xaadd, 0xaadd); (0xaaec, 0xaaed); (0xaaf3, 0xaaf4); (0xaaf6, 0xaaf6);
  (0xab5b, 0xab5f); (0xab69, 0xab6b); (0xabe5, 0xabe5); (0xabe8, 0xabe8);
  (0xabed, 0xabed); (0xfb1e, 0xfb1e); (0xfbb2, 0xfbc2); (0xfe00, 0xfe0f);
  (0xfe13, 0xfe13); (0xfe20, 0xfe2f); (0xfe52, 0xfe52); (0xfe55, 0xfe55);
  (0xfeff, 0xfeff); (0xff07, 0xff07); (0xff0e, 0xff0e); (0xff1a, 0xff1a);
  (0xff3e, 0xff3e); (0xff40, 0xff40); (0xff70, 0xff70); (0xff9e, 0xff9f);
  (0xffe3, 0xffe3); (0xfff9, 0xfffb); (0x101fd, 0x101fd); (0x102e0, 0x102e0);
  (0x10376, 0x1037a); (0x10780, 0x10785); (0x10787, 0x107b0);
  (0x107b2, 0x107ba); (0x10a01, 0x10a03); (0x10a05, 0x10a06);
  (0x10a0c, 0x10a0f); (0x10a38, 0x10a3a); (0x10a3f, 0x10a3f);
  (0x10ae5, 0x10ae6); (0x10d24, 0x10d27); (0x10eab, 0x10eac);
  (0x10f46, 0x10f50); (0x10f82, 0x10f85); (0x11001, 0x11001);
  (0x11038, 0x11046); (0x11070, 0x11070); (0x11073, 0x11074);
  (0x1107f, 0x11081); (0x110b3, 0x110b6); (0x110b9, 0x110ba);
  (0x110bd, 0x110bd); (0x110c2, 0x110c2); (0x110cd, 0x110cd);
  (0x11100, 0x11102); (0x11127, 0x1112b); (0x1112d, 0x11134);
  (0x11173, 0x11173); (0x11180, 0x11181); (0x111b6, 0x111be);
  (0x111c9, 0x111cc); (0x111cf, 0x111cf); (0x1122f, 0x11231);
  (0x11234, 0x11234); (0x11236, 0x11237); (0x1123e, 0x1123e);
  (0x112df, 0x112df); (0x112e3, 0x112ea); (0x11300, 0x11301);
  (0x1133b, 0x1133c); (0x11340, 0x11340); (0x11366, 0x1136c);
  (0x11370, 0x11374); (0x11438, 0x1143f); (0x11442, 0x11444);
  (0x11446, 0x11446); (0x1145e, 0x1145e); (0x114b3, 0x114b8);
  (0x114ba, 0x114ba); (0x114bf, 0x114c0); (0x114c2, 0x114c3);
  (0x115b2, 0x115b5); (0x115bc, 0x115bd); (0x115bf, 0x115c0);
  (0x115dc, 0x115dd); (0x11633, 0x1163a); (0x1163d, 0x1163d);
  (0x1163f, 0x11640); (0x116ab, 0x116ab); (0x116ad, 0x116ad);
  (0x116b0, 0x116b5); (0x116b7, 0x116b7); (0x1171d, 0x1171f);
  (0x11722, 0x11725); (0x11727, 0x1172b); (0x1182f, 0x11837);
  (0x11839, 0x1183a); (0x1193b, 0x1193c); (0x1193e, 0x1193e);
  (0x11943, 0x11943); (0x119d4, 0x119d7); (0x119da, 0x119db);
  (0x119e0, 0x119e0); (0x11a01, 0x11a0a); (0x11a33, 0x11a38);
  (0x11a3b, 0x11a3e); (0x11a47, 0x11a47); (0x11a51, 0x11a56);
  (0x11a59, 0x11a5b); (0x11a8a, 0x11a96); (0x11a98, 0x11a99);
  (0x11c30, 0x11c36); (0x11c38, 0x11c3d); (0x11c3f, 0x11c3f);
  (0x11c92, 0x11ca7); (0x11caa, 0x11cb0); (0x11cb2, 0x11cb3);
  (0x11cb5, 0x11cb6); (0x11d31, 0x11d36); (0x11d3a, 0x11d3a);
  (0x11d3c, 0x11d3d); (0x11d3f, 0x11d45); (0x11d47, 0x11d47);
  (0x11d90, 0x11d91); (0x11d95, 0x11d95); (0x11d97, 0x11d97);
  (0x11ef3, 0x11ef4); (0x13430, 0x13438); (0x16af0, 0x16af4);
  (0x16b30, 0x16b36); (0x16b40, 0x16b43); (0x16f4f, 0x16f4f);
  (0x16f8f, 0x16f9f); (0x16fe0, 0x16fe1); (0x16fe3, 0x16fe4);
  (0x1aff0, 0x1aff3); (0x1aff5, 0x1affb); (0x1affd, 0x1affe);
  (0x1bc9d, 0x1bc9e); (0x1bca0, 0x1bca3); (0x1cf00, 0x1cf2d);
  (0x1cf30, 0x1cf46); (0x1d167, 0x1d169); (0x1d173, 0x1d182);
  (0x1d185, 0x1d18b); (0x1d1aa, 0x1d1ad); (0x1d242, 0x1d244);
  (0x1da00, 0x1da36); (0x1da3b, 0x1da6c); (0x1da75, 0x1da75);
  (0x1da84, 0x1da84); (0x1da9b, 0x1da9f); (0x1daa1, 0x1daaf);
  (0x1e000, 0x1e006); (0x1e008, 0x1e018); (0x1e01b, 0x1e021);
  (0x1e023, 0x1e024); (0x1e026, 0x1e02a); (0x1e130, 0x1e13d);
  (0x1e2ae, 0x1e2ae); (0x1e2ec, 0x1e2ef); (0x1e8d0, 0x1e8d6);
  (0x1e944, 0x1e94b); (0x1f3fb, 0x1f3ff); (0xe0001, 0xe0001);
  (0xe0020, 0xe007f); (0xe0100, 0xe01ef) ].

Definition isspace (cp : N) : bool := in_ranges SPACE cp.

(** The upper case of a character, [None] when it is the character. *)
Definition toupper (cp : N) : option (list N) :=
  if cp <? 0x80 then
    if (0x61 <=? cp) && (cp <=? 0x7a) then Some [cp - 0x20] else None
  else
    match find_full UPPER_FULL cp with
    | Some image => Some image
    | None => option_map (fun x => [x]) (find_run UPPER cp)
    end.

Definition tolower (cp : N) : option (list N) :=
  if cp <? 0x80 then
    if (0x41 <=? cp) && (cp <=? 0x5a) then Some [cp + 0x20] else None
  else
    match find_full LOWER_FULL cp with
    | Some image => Some image
    | None => option_map (fun x => [x]) (find_run LOWER cp)
    end.

(** The first character that is not case-ignorable. *)
Fixpoint first_solid (cps : list N) : option N :=
  match cps with
  | [] => None
  | cp :: cps' => if in_ranges IGNORABLE cp then first_solid cps' else Some cp
  end.

(** A capital sigma ends a word: a cased letter comes before it and none
    after it, case-ignorable characters aside. *)
Definition final_sigma (before after : list N) : bool :=
  match first_solid before with
  | Some b =>
      in_ranges CASED b
      && match first_solid after with
         | Some a => negb (in_ranges CASED a)
         | None => true
         end
  | None => false
  end.

End Unicode.

(* ------------------------------------------------------------------ *)
(** ** Python string methods *)

Module PyStr.

Import Unicode.

(** [s.upper()]. *)
Definition upper (s : string) : string :=
  String.concat EmptyString
    (map (fun c => match toupper (fst c) with
                   | Some image => encode_all image
                   | None => snd c
                   end)
         (chars s)).

(** [s.lower()], the characters come with those before them, last first. *)
Fixpoint lower_chars (before : list N) (cs : list (N * string)) : string :=
  match cs with
  | [] => EmptyString
  | c :: cs' =>
      (if (fst c =? 0x3a3)%N then
         encode (if final_sigma before (map fst cs') then 0x3c2 else 0x3c3)
       else match tolower (fst c) with
            | Some image => encode_all image
            | None => snd c
            end)
      ++ lower_chars (fst c :: before) cs'
  end.

Definition lower (s : string) : string := lower_chars [] (chars s).

(** [s.lstrip()], [s.rstrip()] and [s.strip()], on the characters. *)
Fixpoint lstrip (cs : list (N * string)) : list (N * string) :=
  match cs with
  | [] => []
  | c :: cs' => if isspace (fst c) then lstrip cs' else cs
  end.

Fixpoint rstrip (cs : list (N * string)) : list (N * string) :=
  match cs with
  | [] => []
  | c :: cs' =>
      match rstrip cs' with
      | [] => if isspace (fst c) then [] else [c]
      | r => c :: r
      end
  end.

Definition strip (s : string) : string := text_of (rstrip (lstrip (chars s))).

(** [s.startswith(p)]. *)
Definition startswith (p s : string) : bool := prefix p s.

(** [needle in s]. *)
Fixpoint contains (needle s : string) : bool :=
  prefix needle s ||
  match s with
  | EmptyString => false
  | String _ s' => contains needle s'
  end.

(** [s[n:]]. *)
Fixpoint drop (n : nat) (s : string) : string :=
  match n, s with
  | O, _ => s
  | S _, EmptyString => EmptyString
  | S n', String _ s' => drop n' s'
  end.

(** The first occurrence of [sep] in [s]: the text before it and the text
    after it ([str.partition] without the separator), [None] when [sep]
    does not occur. *)
Fixpoint partition (sep s : string) : option (string * string) :=
  if prefix sep s then Some (EmptyString, drop (length sep) s)
  else match s with
       | EmptyString => None
       | String c s' =>
           match partition sep s' with
           | Some (b, a) => Some (String c b, a)
           | None => None
           end
       end.

Lemma length_drop (n : nat) (s : string) : length (drop n s) = length s - n.
Proof.
  revert s; induction n as [|n IH]; intros [|c s]; simpl; auto with arith.
Qed.

Lemma partition_nil (sep : string) :
  partition sep EmptyString =
  if prefix sep EmptyString then Some (EmptyString, EmptyString) else None.
Proof. destruct sep; reflexivity. Qed.

Lemma partition_cons (sep : string) (c : ascii) (s : string) :
  partition sep (String c s) =
  if prefix sep (String c s)
  then Some (EmptyString, drop (length sep) (String c s))
  else match partition sep s with
       | Some (b, a) => Some (String c b, a)
       | None => None
       end.
Proof. reflexivity. Qed.

Lemma prefix_length (p s : string) :
  prefix p s = true -> length p <= length s.
Proof.
  revert s; induction p as [|d p IH]; intros [|c s]; simpl; try lia; try discriminate.
  destruct (ascii_dec d c); [|discriminate].
  intros H. apply IH in H. lia.
Qed.

Lemma partition_length (sep s b a : string) :
  partition sep s = Some (b, a) ->
  length b + length sep + length a = length s /\ length sep <= length s.
Proof.
  revert b a; induction s as [|c s IH]; intros b a.
  - rewrite partition_nil. destruct sep as [|d sep]; simpl; [|discriminate].
    intros [= <- <-]. simpl. lia.
  - rewrite partition_cons. destruct (prefix sep (String c s)) eqn:P.
    + intros [= <- <-]. apply prefix_length in P.
      rewrite length_drop. change (length EmptyString) with 0. lia.
    + destruct (partition sep s) as [[b' a']|]; [|discriminate].
      intros [= <- <-]. destruct (IH _ _ eq_refl). simpl. lia.
Qed.

Definition inspect {A : Type} (a : A) : {b : A | a = b} := exist _ a eq_refl.

(** [s.split(sep)] for a non-empty separator (Python raises [ValueError]
    on an empty one; no call site passes one). *)
Equations? split (sep s : string) : list string by wf (length s) lt :=
  split EmptyString s := [s];
  split sep s with inspect (partition sep s) => {
    | exist _ None _ => [s];
    | exist _ (Some (b, a)) E => b :: split sep a }.
Proof.
  apply partition_length in E. simpl in E. lia.
Qed.

End PyStr.

(* ------------------------------------------------------------------ *)
(** ** [hashlib.sha256] *)

Module Hashlib.

Local Open Scope Z_scope.

(** 32-bit words are [Z] in [0, 2^32); sums wrap by masking. *)
Definition w32 (x : Z) : Z := Z.land x 0xffffffff.

Definition rotr (n x : Z) : Z :=
  w32 (Z.lor (Z.shiftr x n) (Z.shiftl x (32 - n))).

Definition Ch (e f g : Z) : Z :=
  Z.lxor (Z.land e f) (Z.land (Z.lxor e 0xffffffff) g).

Definition Maj (a b c : Z) : Z :=
  Z.lxor (Z.lxor (Z.land a b) (Z.land a c)) (Z.land b c).

Definition Sigma0 (a : Z) : Z := Z.lxor (Z.lxor (rotr 2 a) (rotr 13 a)) (rotr 22 a).
Definition Sigma1 (e : Z) : Z := Z.lxor (Z.lxor (rotr 6 e) (rotr 11 e)) (rotr 25 e).
Definition sigma0 (x : Z) : Z := Z.lxor (Z.lxor (rotr 7 x) (rotr 18 x)) (Z.shiftr x 3).
Definition sigma1 (x : Z) : Z := Z.lxor (Z.lxor (rotr 17 x) (rotr 19 x)) (Z.shiftr x 10).

(** The largest [r] in [lo, hi] with [r^3 <= n], by bisection. *)
Fixpoint cube_root (fuel : nat) (lo hi n : Z) : Z :=
  match fuel with
  | O => lo
  | S fuel' =>
      if lo =? hi then lo
      else let mid := (lo + hi + 1) / 2 in
           if mid * mid * mid <=? n
           then cube_root fuel' mid hi n
           else cube_root fuel' lo (mid - 1) n
  end.

(** The first 64 primes. *)
Definition primes : list Z :=
  Eval vm_compute in
    filter (fun p => forallb (fun d => negb (p mod d =? 0) || (p <=? d))
                       (map Z.of_nat (seq 2 17)))
           (map Z.of_nat (seq 2 310)).

(** The round constants: the first 32 bits of the fractional parts of the
    cube roots of the first 64 primes. *)
Definition K : list Z :=
  Eval vm_compute in
    map (fun p => w32 (cube_root 40 0 (2 ^ 35) (p * 2 ^ 96))) primes.

(** The initial hash value: the same of the square roots of the first 8
    primes. *)
Definition H0 : list Z :=
  Eval vm_compute in
    map (fun p => w32 (Z.sqrt (p * 2 ^ 64))) (firstn 8 primes).

(** [s.encode()]: the bytes of the text. *)
Definition encode (s : string) : list Z :=
  map (fun c => Z.of_nat (nat_of_ascii c)) (list_ascii_of_string s).

(** The message, the bit 1, zeros up to 56 modulo 64, the bit length on
    eight bytes, most significant first. *)
Definition pad (msg : list Z) : list Z :=
  let n := Z.of_nat (List.length msg) in
  (msg ++ [0x80] ++ repeat 0 (Z.to_nat ((55 - n) mod 64))
   ++ map (fun i => Z.land (Z.shiftr (n * 8) (8 * i)) 0xff) [7; 6; 5; 4; 3; 2; 1; 0])%list.

Fixpoint words (n : nat) (bytes : list Z) : list Z :=
  match n, bytes with
  | S n', b0 :: b1 :: b2 :: b3 :: rest =>
      (Z.shiftl b0 24 + Z.shiftl b1 16 + Z.shiftl b2 8 + b3) :: words n' rest
  | _, _ => []
  end.

(** The message schedule, most recent word first. *)
Fixpoint schedule (n : nat) (w : list Z) : list Z :=
  match n with
  | O => w
  | S n' =>
      schedule n'
        (w32 (sigma1 (nth 1 w 0) + nth 6 w 0 + sigma0 (nth 14 w 0) + nth 15 w 0) :: w)
  end.

Definition round (s : list Z) (kw : Z * Z) : list Z :=
  match s with
  | [a; b; c; d; e; f; g; h] =>
      let T1 := w32 (h + Sigma1 e + Ch e f g + fst kw + snd kw) in
      let T2 := w32 (Sigma0 a + Maj a b c) in
      [w32 (T1 + T2); a; b; c; w32 (d + T1); e; f; g]
  | _ => s
  end.

Definition compress (h : list Z) (block : list Z) : list Z :=
  let w := rev (schedule 48 (rev (words 16 block))) in
  map (fun xy => w32 (fst xy + snd xy)) (combine h (fold_left round (combine K w) h)).

Fixpoint blocks (n : nat) (bytes : list Z) : list (list Z) :=
  match n with
  | O => []
  | S n' => firstn 64 bytes :: blocks n' (skipn 64 bytes)
  end.

Definition digest_words (msg : list Z) : list Z :=
  let m := pad msg in
  fold_left compress (blocks (List.length m / 64) m) H0.

Definition hex_digit (x : Z) : ascii :=
  if x <? 10 then ascii_of_nat (Z.to_nat (48 + x)) else ascii_of_nat (Z.to_nat (87 + x)).

Definition hex_word (x : Z) : string :=
  string_of_list_ascii
    (map (fun i => hex_digit (Z.land (Z.shiftr x (4 * i)) 0xf)) [7; 6; 5; 4; 3; 2; 1; 0]).

(** [hashlib.sha256(s.encode()).hexdigest()]. *)
Definition sha256_hexdigest (s : string) : string :=
  String.concat EmptyString (map hex_word (digest_words (encode s))).

End Hashlib.

(* ------------------------------------------------------------------ *)
(** ** Python dictionaries *)

Module PyDict.

Section Dict.
Context {V : Type}.

Definition dict : Type := list (string * V).

(** [d.get(k)]: [None] when [k] is not a key. *)
Fixpoint get (d : dict) (k : string) : option V :=
  match d with
  | [] => None
  | (k', v) :: d' => if String.eqb k' k then Some v else get d' k
  end.

(** [d[k] = v]: a present key keeps its position, a new key goes last. *)
Fixpoint set (d : dict) (k : string) (v : V) : dict :=
  match d with
  | [] => [(k, v)]
  | (k', v') :: d' =>
      if String.eqb k' k then (k', v) :: d' else (k', v') :: set d' k v
  end.

(** [k in d]. *)
Definition mem (k : string) (d : dict) : bool :=
  match get d k with Some _ => true | None => false end.

(** [d.setdefault(k, v)], for the dictionary it leaves behind. *)
Definition setdefault (d : dict) (k : string) (v : V) : dict :=
  if mem k d then d else set d k v.

Definition keys (d : dict) : list string := map fst d.
Definition values (d : dict) : list V := map snd d.

(** [len(d)]. *)
Definition len (d : dict) : nat := List.length d.
End Dict.

Arguments dict : clear implicits.

End PyDict.

Import PyDict.

(** The values the program stores in the shared state: text, the entropy
    score (hundredths), and the two chunk-keyed mappings of text. *)
Inductive pyval : Type :=
| PStr (s : string)
| PFloat (hundredths : Z)
| PDict (d : dict string).

(** [shared_state : Dict]. *)
Definition State : Type := dict pyval.

(** Reads of a key at the type the program keeps there. *)
Definition get_str (state : State) (k : string) : option string :=
  match get state k with Some (PStr s) => Some s | _ => None end.

Definition get_dict (state : State) (k : string) : option (dict string) :=
  match get state k with Some (PDict d) => Some d | _ => None end.

Definition get_float (state : State) (k : string) : option Z :=
  match get state k with Some (PFloat x) => Some x | _ => None end.

(** [state.get(k, default)]. *)
Definition get_or {A : Type} (o : option A) (default : A) : A :=
  match o with Some a => a | None => default end.

(** Truth value of a string: [if s:] / [if not s:]. *)
Definition truthy (s : string) : bool :=
  match s with EmptyString => false | _ => true end.

(* ------------------------------------------------------------------ *)
(** ** The entropy heuristic *)

(** [calculate_entropy(shared_state)], in hundredths.  The closing
    [round(entropy_score, 2)] removes binary rounding noise, of which
    there is none on hundredths. *)
Definition calculate_entropy (shared_state : State) : Z :=
  let entropy_score := 0%Z in
  (* Factor in prompt integrity (Coin agent) *)
  let prompt_integrity := get_or (get_str shared_state "prompt_integrity") EmptyString in
  let entropy_score :=
    if negb (PyStr.contains "INTEGRITY OK" prompt_integrity)
    then (entropy_score + 50)%Z else entropy_score in
  (* Factor in resource management (Line agent) *)
  let resource_management := get_or (get_str shared_state "resource_management") EmptyString in
  let entropy_score :=
    if PyStr.contains "complexity" (PyStr.lower resource_management)
       || PyStr.contains "scope" (PyStr.lower resource_management)
    then if PyStr.contains "reduce" (PyStr.lower resource_management)
            || PyStr.contains "manage" (PyStr.lower resource_management)
         then (entropy_score + 20)%Z
         else (entropy_score + 40)%Z
    else entropy_score in
  (* Factor in plan existence and clarity (Loop agent) *)
  let plan := get_or (get_str shared_state "plan") EmptyString in
  let entropy_score :=
    if negb (truthy plan) then (entropy_score + 100)%Z else entropy_score in
  (* Factor in code chunk validations (Work agent) *)
  let validations := get_or (get_dict shared_state "validations") [] in
  let invalid_chunks :=
    List.length (filter (PyStr.startswith "INVALID") (values validations)) in
  let entropy_score := (entropy_score + Z.of_nat invalid_chunks * 70)%Z in
  (* Factor in success criteria (Wave agent) *)
  let success_criteria := get_or (get_str shared_state "success_criteria") EmptyString in
  let entropy_score :=
    if negb (truthy success_criteria) then (entropy_score + 80)%Z else entropy_score in
  (* Factor in current action stability (Cube agent) *)
  let current_action := get_or (get_str shared_state "current_action") EmptyString in
  let entropy_score :=
    if String.eqb current_action "REFINE" then (entropy_score + 10)%Z
    else if String.eqb current_action "PLAN"
            && (0 <? len (get_or (get_dict shared_state "code_chunks") []))%nat
         then (entropy_score + 30)%Z
         else entropy_score in
  entropy_score.

(** The state [run_orchestration] starts from. *)
Definition initial_state : State :=
  [ ("status", PStr "STARTING");
    ("code_chunks", PDict []);
    ("validations", PDict []) ].

(* ------------------------------------------------------------------ *)
(** ** Agents *)

(** The agent classes. *)
Inductive Role : Type := Cube | Wave | Core | Work | Loop | Code | Line | Coin.

(** [str(n)] for a natural number. *)
Definition str_of_nat (n : nat) : string := NilEmpty.string_of_uint (Nat.to_uint n).

(** [state[k][k2] = v] where [state[k]] is one of the two mappings. *)
Definition set_item (state : State) (k k2 v : string) : State :=
  set state k (PDict (set (get_or (get_dict state k) []) k2 v)).

(** The actions 'cube' may choose. *)
Definition ACTIONS : list string :=
  ["PLAN"; "EXECUTE"; "VALIDATE"; "REFINE"; "COMPOSE"; "COMPLETE"].

(** [x in xs] for a list of strings. *)
Definition in_list (x : string) (xs : list string) : bool :=
  existsb (String.eqb x) xs.

(** [Cube._process_output]: the lines printed and the state left. *)
Definition Cube_process_output (output : string) (state : State)
  : list string * State :=
  let action := PyStr.upper (PyStr.strip output) in
  if negb (in_list action ACTIONS)
  then ([ "Warning: Cube returned invalid action '" ++ action
          ++ "'. Defaulting to PLAN." ],
        set state "current_action" (PStr "PLAN"))
  else ([], set state "current_action" (PStr action)).

(** [Wave._process_output]. *)
Definition Wave_process_output (output : string) (state : State) : State :=
  set state "success_criteria" (PStr output).

(** [output.split("```python")[1].split("```")[0].strip()]; [None] stands
    for the [IndexError] of an index past the end. *)
Definition fenced_code (output : string) : option string :=
  match nth_error (PyStr.split "```python" output) 1 with
  | Some rest =>
      match nth_error (PyStr.split "```" rest) 0 with
      | Some body => Some (PyStr.strip body)
      | None => None
      end
  | None => None
  end.

(** [Core._process_output]. *)
Definition Core_process_output (output : string) (state : State) : State :=
  if PyStr.contains "```python" output then
    match fenced_code output with
    | Some code_chunk =>
        let chunk_id :=
          "chunk_" ++ str_of_nat (len (get_or (get_dict state "code_chunks") []) + 1) in
        let state := setdefault state "code_chunks" (PDict []) in
        let state := set_item state "code_chunks" chunk_id code_chunk in
        set state "last_chunk_id" (PStr chunk_id)
    | None => state
    end
  else state.

(** [Work._process_output]. *)
Definition Work_process_output (output : string) (state : State) : State :=
  let state := setdefault state "validations" (PDict []) in
  match get_str state "last_chunk_id" with
  | Some last_chunk_id =>
      if truthy last_chunk_id then
        if PyStr.startswith "VALID" output
        then set_item state "validations" last_chunk_id "VALID"
        else
          let state :=
            set_item state "validations" last_chunk_id ("INVALID - " ++ output) in
          set state "advice"
            (PStr ("Validation failed for " ++ last_chunk_id ++ ": " ++ output))
      else state
  | None => state
  end.

(** [Loop._process_output]. *)
Definition Loop_process_output (output : string) (state : State) : State :=
  let state :=
    if negb (mem "plan" state) || PyStr.contains "refinement" (PyStr.lower output)
    then set state "plan" (PStr output) else state in
  set state "advice" (PStr output).

(** [Code._process_output]. *)
Definition Code_process_output (output : string) (state : State) : State :=
  if PyStr.contains "```python" output then
    match fenced_code output with
    | Some final_script => set state "final_script" (PStr final_script)
    | None => state
    end
  else state.

(** [Line._process_output]. *)
Definition Line_process_output (output : string) (state : State) : State :=
  set state "resource_management" (PStr output).

(** [Coin._process_output]. *)
Definition Coin_process_output (output : string) (state : State) : State :=
  set state "prompt_integrity" (PStr output).

(** [self._process_output(output, state)] by class. *)
Definition process_output (role : Role) (output : string) (state : State)
  : list string * State :=
  match role with
  | Cube => Cube_process_output output state
  | Wave => ([], Wave_process_output output state)
  | Core => ([], Core_process_output output state)
  | Work => ([], Work_process_output output state)
  | Loop => ([], Loop_process_output output state)
  | Code => ([], Code_process_output output state)
  | Line => ([], Line_process_output output state)
  | Coin => ([], Coin_process_output output state)
  end.

(* ------------------------------------------------------------------ *)
(** ** Text formatting: f-strings, [repr], [json.dumps] *)

Definition LF : string := String (ascii_of_nat 10) EmptyString.
Definition DQ : string := String (ascii_of_nat 34) EmptyString.
Definition SQ : string := "'".
Definition BACKSLASH : string := String (ascii_of_nat 92) EmptyString.

Definition two_digits (n : nat) : string :=
  if (n <? 10)%nat then "0" ++ str_of_nat n else str_of_nat n.

(** [f"{x:.2f}"] for a score [x >= 0] given in hundredths. *)
Definition format_2f (x : Z) : string :=
  str_of_nat (Z.to_nat (x / 100)) ++ "." ++ two_digits (Z.to_nat (x mod 100)).

(** [repr(x)] for a score [x >= 0] given in hundredths: the shortest
    decimal, with at least one place (scores stay far below [1e16], where
    Python turns to exponents). *)
Definition float_repr (x : Z) : string :=
  let frac := Z.to_nat (x mod 100) in
  str_of_nat (Z.to_nat (x / 100)) ++ "." ++
  (if (frac mod 10 =? 0)%nat then str_of_nat (frac / 10) else two_digits frac).

Definition hex_of_nat (n : nat) : string :=
  String (Hashlib.hex_digit (Z.of_nat n)) EmptyString.

(** [repr(s)] for a string: single quotes, unless the text has a single
    quote and no double quote. *)
Definition repr_char (quote : string) (c : ascii) : string :=
  let n := nat_of_ascii c in
  let s := String c EmptyString in
  if String.eqb s BACKSLASH then BACKSLASH ++ BACKSLASH
  else if String.eqb s quote then BACKSLASH ++ quote
  else if (n =? 9)%nat then BACKSLASH ++ "t"
  else if (n =? 10)%nat then BACKSLASH ++ "n"
  else if (n =? 13)%nat then BACKSLASH ++ "r"
  else if ((n <? 32) || (n =? 127))%nat
       then BACKSLASH ++ "x" ++ hex_of_nat (n / 16) ++ hex_of_nat (n mod 16)
  else s.

Definition repr (s : string) : string :=
  let quote :=
    if PyStr.contains SQ s && negb (PyStr.contains DQ s) then DQ else SQ in
  quote ++ String.concat EmptyString (map (repr_char quote) (list_ascii_of_string s))
        ++ quote.

(** [repr(xs)] for a list of strings. *)
Definition repr_list (xs : list string) : string :=
  "[" ++ String.concat ", " (map repr xs) ++ "]".

(** The JSON string escapes of [json.dumps] (with [ensure_ascii]). *)
Definition json_char (c : ascii) : string :=
  let n := nat_of_ascii c in
  let s := String c EmptyString in
  if String.eqb s DQ then BACKSLASH ++ DQ
  else if String.eqb s BACKSLASH then BACKSLASH ++ BACKSLASH
  else if (n =? 10)%nat then BACKSLASH ++ "n"
  else if (n =? 13)%nat then BACKSLASH ++ "r"
  else if (n =? 9)%nat then BACKSLASH ++ "t"
  else if (n =? 8)%nat then BACKSLASH ++ "b"
  else if (n =? 12)%nat then BACKSLASH ++ "f"
  else if ((n <? 32) || (126 <? n))%nat
       then BACKSLASH ++ "u00" ++ hex_of_nat (n / 16) ++ hex_of_nat (n mod 16)
  else s.

Definition json_string (s : string) : string :=
  DQ ++ String.concat EmptyString (map json_char (list_ascii_of_string s)) ++ DQ.

Fixpoint spaces (n : nat) : string :=
  match n with O => EmptyString | S n' => " " ++ spaces n' end.

(** A JSON object with [indent=2], written at nesting depth [depth]. *)
Definition json_object {V : Type} (value : V -> string) (depth : nat) (d : dict V)
  : string :=
  match d with
  | [] => "{}"
  | _ =>
      "{" ++ LF ++
      String.concat ("," ++ LF)
        (map (fun kv => spaces (2 * (depth + 1)) ++ json_string (fst kv) ++ ": "
                        ++ value (snd kv)) d)
      ++ LF ++ spaces (2 * depth) ++ "}"
  end.

(** [json.dumps(d, indent=2)] for a mapping of text. *)
Definition json_dumps_chunks (d : dict string) : string :=
  json_object json_string 0 d.

Definition json_value (depth : nat) (v : pyval) : string :=
  match v with
  | PStr s => json_string s
  | PFloat x => float_repr x
  | PDict d => json_object json_string depth d
  end.

(** [json.dumps(state, indent=2)]. *)
Definition json_dumps_state (state : State) : string :=
  json_object (json_value 1) 0 state.

(* ------------------------------------------------------------------ *)
(** ** Meta-prompts *)

(** [{k: v for k, v in state.get('code_chunks', {}).items()
         if state.get('validations', {}).get(k) == 'VALID'}]. *)
Definition validated_chunks (state : State) : dict string :=
  filter
    (fun kv =>
       match get (get_or (get_dict state "validations") []) (fst kv) with
       | Some v => String.eqb v "VALID"
       | None => false
       end)
    (get_or (get_dict state "code_chunks") []).

(** [Cube._create_meta_prompt]. *)
Definition Cube_create_meta_prompt (base_prompt : string) (state : State) : string :=
  let current_entropy := get_or (get_float state "current_entropy_score") 0%Z in
  let status_report :=
    String.concat LF
        [ EmptyString;
          "Orchestration Goal: " ++ base_prompt;
          "Current Action: " ++ (get_or (get_str state "current_action") "INIT");
          "Current Entropy Score: " ++ (format_2f current_entropy);
          "Plan: " ++ (get_or (get_str state "plan") "None yet.");
          "Success Criteria: " ++ (get_or (get_str state "success_criteria") "None yet.");
          "Valid Chunks: " ++ (str_of_nat (List.length (filter (fun kv => String.eqb (snd kv) "VALID") (get_or (get_dict state "validations") []))));
          "Invalid Chunks: " ++ (str_of_nat (List.length (filter (fun kv => PyStr.startswith "INVALID" (snd kv)) (get_or (get_dict state "validations") []))));
          "Last Advice: " ++ (get_or (get_str state "advice") "None.");
          "Prompt Integrity: " ++ (get_or (get_str state "prompt_integrity") "Not checked.");
          "Resource Management: " ++ (get_or (get_str state "resource_management") "Not assessed.");
          "        " ] in
  String.concat LF
    [ "You are 'cube', the supreme orchestrator of a multi-agent system. Your task is to analyze the current state of the project and decide the next optimal action to drive the project towards successfully achieving the 'Orchestration Goal' while minimizing the 'Current Entropy Score'.";
      EmptyString;
      "        Based on the following status report, you must choose one of these actions: 'PLAN', 'EXECUTE', 'VALIDATE', 'REFINE', 'COMPOSE', or 'COMPLETE'.";
      "        'COMPLETE' should only be chosen if the 'final_script' is present and seems to meet the 'Success Criteria' and 'Current Entropy Score' is low (e.g., < 0.3).";
      EmptyString;
      "        Status Report:";
      "        " ++ status_report;
      EmptyString;
      "        Your decision MUST be a single word, representing the chosen action. Do not add any other text.";
      "        " ].

(** [Wave._create_meta_prompt]. *)
Definition Wave_create_meta_prompt (base_prompt : string) (state : State) : string :=
  String.concat LF
    [ "You are 'wave', the promiser. Your task is to define the success criteria for the prompt: '" ++ base_prompt ++ "'.";
      "Break it down into a clear, numbered list of concise requirements. Focus on measurable and achievable criteria.";
      "Example: 1. Script must be in Python. 2. It must achieve X. 3. It must handle error Y.";
      "Current success criteria: " ++ (get_or (get_str state "success_criteria") "None") ++ ". Refine if needed, otherwise re-state.";
      "Your output MUST be ONLY the numbered list of success criteria, with no additional conversational text.";
      EmptyString ].

(** [Core._create_meta_prompt]. *)
Definition Core_create_meta_prompt (base_prompt : string) (state : State) : string :=
  String.concat LF
    [ "You are 'core', the code executor. Your task is to write a single, logical chunk of Python code to help achieve the goal.";
      "Goal: " ++ base_prompt;
      "Success Criteria: " ++ (get_or (get_str state "success_criteria") "None");
      "Current Code Plan: " ++ (get_or (get_str state "plan") "None");
      "Existing Chunks: " ++ (repr_list (keys (get_or (get_dict state "code_chunks") [])));
      "Advisor's Last Remark: " ++ (get_or (get_str state "advice") "None");
      "Write the next necessary code chunk. Enclose the code within ```python ... ```.";
      "Your output MUST contain ONLY the Python code chunk, formatted strictly within ```python ... ``` tags, with no extra conversational text.";
      EmptyString ].

(** [Work._create_meta_prompt]. *)
Definition Work_create_meta_prompt (base_prompt : string) (state : State) : string :=
  let last_chunk_id := get_or (get_str state "last_chunk_id") "None" in
  let chunk_to_validate :=
    get_or (get (get_or (get_dict state "code_chunks") []) last_chunk_id)
           "No new chunk to validate." in
  String.concat LF
    [ "You are 'work', the validator. Analyze the following Python code chunk for correctness, syntax errors, and adherence to the plan and success criteria.";
      "Code Chunk ('" ++ last_chunk_id ++ "'):";
      chunk_to_validate;
      EmptyString;
      "Success Criteria: " ++ (get_or (get_str state "success_criteria") "None");
      "Respond STRICTLY with 'VALID' if it's good, or 'INVALID:' followed by a brief, actionable reason for rejection. Do not include any other text.";
      EmptyString ].

(** [Loop._create_meta_prompt]. *)
Definition Loop_create_meta_prompt (base_prompt : string) (state : State) : string :=
  String.concat LF
    [ "You are 'loop', the advisor. Review the overall plan, recent progress, and current shared state.";
      "Goal: " ++ base_prompt;
      "Plan: " ++ (get_or (get_str state "plan") "Not defined yet.");
      "Validated Chunks: " ++ (repr_list (map fst (filter (fun kv => String.eqb (snd kv) "VALID") (get_or (get_dict state "validations") []))));
      "Failed Chunks: " ++ (repr_list (map fst (filter (fun kv => PyStr.startswith "INVALID" (snd kv)) (get_or (get_dict state "validations") []))));
      "Shared State Summary: " ++ (json_dumps_state (filter (fun kv => negb (in_list (fst kv) ["code_chunks"; "validations"])) state));
      "Based on this, provide a concise, actionable next step or refinement for the plan. If no plan exists, create one. Focus on overcoming obstacles or moving towards completion.";
      "Your output MUST be a clear, concise instruction or a refined plan.";
      EmptyString ].

(** [Code._create_meta_prompt]. *)
Definition Code_create_meta_prompt (base_prompt : string) (state : State) : string :=
  String.concat LF
    [ "You are 'code', the composer. Your task is to assemble the validated code chunks into a single, coherent, and executable Python script.";
      "Validated Chunks:";
      (json_dumps_chunks (validated_chunks state));
      "Success Criteria: " ++ (get_or (get_str state "success_criteria") "None");
      "Ensure all necessary imports are at the top. Add appropriate function definitions and a main execution block (e.g., `if __name__ == " ++ DQ ++ "__main__" ++ DQ ++ ":`). Ensure correct indentation, logical flow, and order for a fully functional script.";
      "Enclose the final script within ```python ... ```. Your output MUST contain ONLY the Python script, formatted strictly within ```python ... ``` tags, with no extra conversational text.";
      EmptyString ].

(** [Line._create_meta_prompt]. *)
Definition Line_create_meta_prompt (base_prompt : string) (state : State) : string :=
  String.concat LF
    [ "You are 'line', the resource manager. Your task is to analyze the current state of the project, including the initial prompt and any progress made, to identify potential complexity, scope creep, or resource inefficiencies.";
      EmptyString;
      "Current Goal: " ++ base_prompt;
      "Current State: " ++ (json_dumps_state state);
      EmptyString;
      "Based on this, provide a concise assessment of complexity and scope. If any issues are found, suggest specific, actionable adjustments needed to keep the project manageable and efficient. Focus on resource optimization and complexity reduction. If no issues, state 'RESOURCE MANAGEMENT OK'.";
      "Your output MUST be a summary of complexity/scope and/or actionable suggestions, or 'RESOURCE MANAGEMENT OK'.";
      EmptyString ].

(** [Coin._create_meta_prompt]. *)
Definition Coin_create_meta_prompt (base_prompt : string) (state : State) : string :=
  String.concat LF
    [ "You are 'coin', the request securer. Your task is to validate the integrity and safety of the initial prompt and the current shared state. Identify any ambiguities, security vulnerabilities, ethical concerns, or potential for misuse.";
      EmptyString;
      "Initial Prompt: " ++ base_prompt;
      "Current State: " ++ (json_dumps_state state);
      EmptyString;
      "Based on this analysis, provide a concise integrity report. If there are concerns, list them clearly. If the prompt and state appear sound, state 'INTEGRITY OK'.";
      "Your output MUST be a concise integrity report or 'INTEGRITY OK'.";
      EmptyString ].

(** [self._create_meta_prompt(prompt, shared_state)] by class. *)
Definition create_meta_prompt (role : Role) : string -> State -> string :=
  match role with
  | Cube => Cube_create_meta_prompt
  | Wave => Wave_create_meta_prompt
  | Core => Core_create_meta_prompt
  | Work => Work_create_meta_prompt
  | Loop => Loop_create_meta_prompt
  | Code => Code_create_meta_prompt
  | Line => Line_create_meta_prompt
  | Coin => Coin_create_meta_prompt
  end.

(* ------------------------------------------------------------------ *)
(** ** Hashing helpers *)

(** [create_genesis_hash(prompt)]. *)
Definition create_genesis_hash (prompt : string) : string :=
  Hashlib.sha256_hexdigest prompt.

(** [rehash_fragment(origin_hash, agent_name, thought)]. *)
Definition rehash_fragment (origin_hash agent_name thought : string) : string :=
  let fragment := origin_hash ++ ":" ++ agent_name ++ ":" ++ thought in
  Hashlib.sha256_hexdigest fragment.

(* ------------------------------------------------------------------ *)
(** ** [Agent.reason_and_act] *)

(** [AGENT_MODELS]. *)
Definition AGENT_MODELS : dict string :=
  [ ("cube", "cube"); ("core", "core"); ("loop", "loop"); ("wave", "promiser");
    ("line", "line"); ("coin", "coin"); ("code", "code"); ("work", "work") ].

(** [self.role]: the class name in lower case. *)
Definition role_of (r : Role) : string :=
  match r with
  | Cube => "cube" | Wave => "wave" | Core => "core" | Work => "work"
  | Loop => "loop" | Code => "code" | Line => "line" | Coin => "coin"
  end.

(** [self.name], as given where [run_orchestration] builds [agents]. *)
Definition name_of (r : Role) : string :=
  match r with
  | Cube => "CubeOrchestrator" | Wave => "WavePromiser" | Loop => "LoopAdvisor"
  | Core => "CoreExecutor" | Work => "WorkValidator" | Code => "CodeComposer"
  | Line => "LineResourceManager" | Coin => "CoinRequestSecurer"
  end.

(** [self.model]. *)
Definition model_of (r : Role) : string :=
  get_or (get AGENT_MODELS (role_of r)) "mistral".

(** What the POST to the model server comes back with, when
    [reason_and_act] goes on: the [response] field of the JSON body (empty
    when the field is missing), or an [aiohttp.ClientError] with its
    message.  An exception of another kind is not caught; it ends the run
    ([Faults], below). *)
Inductive Reply : Type :=
| Response (text : string)
| ClientError (e : string).

(** The dictionary [reason_and_act] returns, without [duration_s] (wall
    clock). *)
Record Result : Type := mkResult {
  agent : string;
  role : string;
  model : string;
  output : string;
  reasoning_hash : string
}.

(** Steps 1 and 2: the meta-prompt and the fragment hash. *)
Definition think (r : Role) (prompt origin_hash : string) (shared_state : State)
  : string * string :=
  let meta_prompt := create_meta_prompt r prompt shared_state in
  let fragment_hash := rehash_fragment origin_hash (name_of r) meta_prompt in
  (meta_prompt, fragment_hash).

(** Step 3: the text taken from the call to the model. *)
Definition response_text (r : Role) (reply : Reply) : string :=
  match reply with
  | Response text => PyStr.strip text
  | ClientError e =>
      "Error: Could not contact Ollama model '" ++ model_of r ++ "'. " ++ e
  end.

(** Step 4 and the return value. *)
Definition act (r : Role) (reply : Reply) (fragment_hash : string)
  (shared_state : State) : list string * State * Result :=
  let text := response_text r reply in
  let (printed, shared_state) := process_output r text shared_state in
  (printed, shared_state,
   mkResult (name_of r) (role_of r) (model_of r) text fragment_hash).

(** [await agent.reason_and_act(prompt, origin_hash, shared_state)], run
    on its own. *)
Definition reason_and_act (r : Role) (prompt origin_hash : string) (reply : Reply)
  (shared_state : State) : list string * State * Result :=
  let (_, fragment_hash) := think r prompt origin_hash shared_state in
  act r reply fragment_hash shared_state.

(* ------------------------------------------------------------------ *)
(** ** The orchestration engine *)

(** What the run does not decide: what each call to the model returns, and
    when it returns (the order in which gathered calls complete). *)
Record World : Type := mkWorld {
  reply_of : nat -> Role -> Reply;
  finish_of : nat -> Role -> nat
}.

Fixpoint insert_by (f : Role -> nat) (r : Role) (l : list Role) : list Role :=
  match l with
  | [] => [r]
  | x :: l' => if (f r <=? f x)%nat then r :: l else x :: insert_by f r l'
  end.

(** The tasks in the order their calls complete (ties in argument order). *)
Definition completion_order (f : Role -> nat) (tasks : list Role) : list Role :=
  fold_right (insert_by f) [] tasks.

(** [await asyncio.gather] over [tasks_to_run], where every task is a
    [reason_and_act] created with the same prompt, origin hash and state:
    each task runs up to its call to the model before any call returns, so
    every meta-prompt is rendered from the state as it is on entry; the
    outputs are then processed in completion order; the results come back
    in argument order. *)
Definition gather (tasks : list Role) (prompt origin_hash : string)
  (reply : Role -> Reply) (finish : Role -> nat) (shared_state : State)
  : list string * State * list Result :=
  let started := map (fun r => (r, think r prompt origin_hash shared_state)) tasks in
  let folded :=
    fold_left
      (fun acc r =>
         let (printed, st) := process_output r (response_text r (reply r)) (snd acc) in
         ((fst acc ++ printed)%list, st))
      (completion_order finish tasks) ([], shared_state) in
  (fst folded, snd folded,
   map (fun rt =>
          mkResult (name_of (fst rt)) (role_of (fst rt)) (model_of (fst rt))
                   (response_text (fst rt) (reply (fst rt))) (snd (snd rt)))
       started).

(** The agents run for an action. *)
Definition tasks_to_run (action : string) (shared_state : State) : list Role :=
  if String.eqb action "PLAN" then [Wave; Loop; Line; Coin]
  else if String.eqb action "EXECUTE" then [Core]
  else if String.eqb action "VALIDATE" then
    if truthy (get_or (get_str shared_state "last_chunk_id") EmptyString)
    then [Work] else []
  else if String.eqb action "REFINE" then [Loop]
  else if String.eqb action "COMPOSE" then [Code]
  else [].

(** What one cycle did. *)
Record Cycle : Type := mkCycle {
  number : nat;
  origin : string;               (* [current_hash] on entry *)
  observed : State;              (* the state 'cube' is shown, score stored *)
  decided : State;               (* the state once 'cube' has answered *)
  cube_result : Result;
  action : string;
  results : list Result;         (* of the gathered agents *)
  snapshot : option State        (* what was written to the state file *)
}.

(** One pass through the body of the loop. *)
Record Step : Type := mkStep {
  step_printed : list string;    (* the warnings of 'cube' *)
  step_cycle : Cycle;
  step_state : State;
  step_hash : string;
  step_break : bool
}.

(** The body of [for cycle in range(1, max_cycles + 1)], when nothing in it
    raises. *)
Definition cycle_body (w : World) (initial_prompt : string) (cycle : nat)
  (shared_state : State) (current_hash : string) : Step :=
  (* Calculate entropy before Cube makes its decision for this cycle *)
  let current_entropy_score := calculate_entropy shared_state in
  let shared_state :=
    set shared_state "current_entropy_score" (PFloat current_entropy_score) in
  let observed_state := shared_state in
  let origin_hash := current_hash in
  (* Cube decides the current action *)
  let '(printed, shared_state, cube_res) :=
    reason_and_act Cube initial_prompt current_hash (reply_of w cycle Cube)
                   shared_state in
  let current_hash := reasoning_hash cube_res in
  let action := get_or (get_str shared_state "current_action") "PLAN" in
  if String.eqb action "COMPLETE" then
    (* break *)
    mkStep printed
      (mkCycle cycle origin_hash observed_state shared_state cube_res action [] None)
      shared_state current_hash true
  else
    let tasks := tasks_to_run action shared_state in
    match tasks with
    | [] =>
        (* continue *)
        mkStep printed
          (mkCycle cycle origin_hash observed_state shared_state cube_res action
                   [] None)
          shared_state current_hash false
    | _ =>
        let '(printed1, shared_state', res) :=
          gather tasks initial_prompt current_hash (reply_of w cycle)
                 (finish_of w cycle) shared_state in
        (* The last agent's hash becomes the new origin *)
        let current_hash :=
          fold_left (fun _ r => reasoning_hash r) res current_hash in
        mkStep (printed ++ printed1)%list
          (mkCycle cycle origin_hash observed_state shared_state cube_res action
                   res (Some shared_state'))
          shared_state' current_hash false
    end.

(** How the loop ended. *)
Inductive Ending : Type := Completed | Exhausted.

(** What the loop leaves behind. *)
Record Outcome : Type := mkOutcome {
  out_printed : list string;
  out_log : list Cycle;
  out_state : State;
  out_hash : string;
  out_ending : Ending
}.

Definition max_cycles : nat := 10.

(** The loop, over the cycles still to run, when nothing raises. *)
Fixpoint cycles (w : World) (initial_prompt : string) (todo : list nat)
  (shared_state : State) (current_hash : string) : Outcome :=
  match todo with
  | [] => mkOutcome [] [] shared_state current_hash Exhausted
  | cycle :: todo' =>
      let step := cycle_body w initial_prompt cycle shared_state current_hash in
      if step_break step then
        mkOutcome (step_printed step) [step_cycle step]
                  (step_state step) (step_hash step) Completed
      else
        let rest :=
          cycles w initial_prompt todo' (step_state step) (step_hash step) in
        mkOutcome (step_printed step ++ out_printed rest)%list
                  (step_cycle step :: out_log rest)
                  (out_state rest) (out_hash rest) (out_ending rest)
  end.

(** What a run leaves behind. *)
Record Run : Type := mkRun {
  genesis_hash : string;
  warnings : list string;        (* the warnings printed by 'cube' *)
  log : list Cycle;
  final_state : State;
  final_hash : string;
  ending : Ending;
  final_code : string            (* the script printed last *)
}.

(** [run_orchestration(initial_prompt)], when nothing raises. *)
Definition run_orchestration (w : World) (initial_prompt : string) : Run :=
  let genesis_hash := create_genesis_hash initial_prompt in
  let shared_state := initial_state in
  let current_hash := genesis_hash in
  let out :=
    cycles w initial_prompt (seq 1 max_cycles) shared_state current_hash in
  let shared_state := out_state out in
  let final_code :=
    get_or (get_str shared_state "final_script")
           "# Composition failed. No final script was generated." in
  mkRun genesis_hash (out_printed out) (out_log out) shared_state (out_hash out)
        (out_ending out) final_code.

(* ------------------------------------------------------------------ *)
(** ** Calls that raise *)









(* ================================================================== *)
(** * Vocabulary of the properties *)

(** The number of verdicts that count as invalid. *)
Definition invalid_count (validations : dict string) : nat :=
  List.length (filter (PyStr.startswith "INVALID") (values validations)).

(** The score as the sum of its six penalties. *)
Definition entropy_sum (s : State) : Z :=
  let prompt_integrity := get_or (get_str s "prompt_integrity") EmptyString in
  let resource_management :=
    PyStr.lower (get_or (get_str s "resource_management") EmptyString) in
  let current_action := get_or (get_str s "current_action") EmptyString in
  ((if PyStr.contains "INTEGRITY OK" prompt_integrity then 0 else 50)
   + (if PyStr.contains "complexity" resource_management
         || PyStr.contains "scope" resource_management
      then if PyStr.contains "reduce" resource_management
              || PyStr.contains "manage" resource_management
           then 20 else 40
      else 0)
   + (if truthy (get_or (get_str s "plan") EmptyString) then 0 else 100)
   + 70 * Z.of_nat (invalid_count (get_or (get_dict s "validations") []))
   + (if truthy (get_or (get_str s "success_criteria") EmptyString) then 0 else 80)
   + (if String.eqb current_action "REFINE" then 10
      else if String.eqb current_action "PLAN"
              && (0 <? len (get_or (get_dict s "code_chunks") []))%nat
           then 30 else 0))%Z.

Definition planned_state : State :=
  set initial_state "plan" (PStr "1. fetch 2. print").

(** The integrity penalty is part of the score of [s]: the score is 0.5
    above that of the same state carrying the report "INTEGRITY OK". *)
Definition integrity_penalty_added (s : State) : Prop :=
  calculate_entropy s
  = (calculate_entropy (set s "prompt_integrity" (PStr "INTEGRITY OK")) + 50)%Z.

(** The output names the action [a], whatever its case and surrounding
    white space. *)
Definition names_action (output a : string) : Prop :=
  PyStr.lower (PyStr.strip output) = PyStr.lower a.

Definition invalid_action_warning (action : string) : string :=
  "Warning: Cube returned invalid action '" ++ action ++ "'. Defaulting to PLAN.".

Definition code_chunks_of (s : State) : dict string :=
  get_or (get_dict s "code_chunks") [].

Definition validations_of (s : State) : dict string :=
  get_or (get_dict s "validations") [].

Definition one_chunk_state : State :=
  Core_process_output ("```python" ++ LF ++ "print(1)" ++ LF ++ "```") initial_state.

(** The states the agents can leave behind: from the state a run starts
    with, by any agent's fold on any output, and by the engine storing
    the score. *)
Inductive reachable : State -> Prop :=
| reachable_initial : reachable initial_state
| reachable_fold (r : Role) (output : string) (s : State) :
    reachable s -> reachable (snd (process_output r output s))
| reachable_score (s : State) :
    reachable s ->
    reachable (set s "current_entropy_score" (PFloat (calculate_entropy s))).

(** Every verdict is for a stored chunk, and so is the chunk last named. *)
Definition chunk_keys_ok (s : State) : Prop :=
  (forall k, In k (keys (validations_of s)) -> In k (keys (code_chunks_of s)))
  /\ (forall id, get s "last_chunk_id" = Some (PStr id) ->
                 In id (keys (code_chunks_of s))).

Definition checked_state : State :=
  snd (process_output Work "INVALID: no main"
         (snd (process_output Core ("```python" ++ LF ++ "print(1)" ++ LF ++ "```")
                 initial_state))).

Definition mixed_state : State :=
  [ ("code_chunks", PDict [("chunk_1", "import os"); ("chunk_2", "print(1)");
                           ("chunk_3", "x = ")]);
    ("validations", PDict [("chunk_1", "INVALID - unused import");
                           ("chunk_2", "VALID")]) ].

(** The opening marker and the fence. *)
Definition MARK : string := "```python".
Definition FENCE : string := "```".

(** The text of [s] before the first [sep], all of [s] when there is none. *)
Definition before (sep s : string) : string :=
  match PyStr.partition sep s with Some (b, _) => b | None => s end.

(** The text between the first opening marker and the next fence after
    it, or all that follows the marker when no fence does. *)
Definition text_in_fence (output : string) : option string :=
  match PyStr.partition MARK output with
  | Some (_, rest) => Some (before FENCE rest)
  | None => None
  end.

Definition fenced_output : string :=
  "Here it is:" ++ LF ++ "```python" ++ LF ++ "print(1)" ++ LF ++ "```" ++ LF ++ "Done.".

Definition unterminated_output : string :=
  "```python" ++ LF ++ "print(2)" ++ LF.

(** The fingerprints a cycle adds to the chain, in the order in which
    [current_hash] takes them. *)
Definition fingerprints_of (c : Cycle) : list string :=
  reasoning_hash (cube_result c) :: map reasoning_hash (results c).

(** The chain of a run. *)
Definition chain (run : Run) : list string :=
  genesis_hash run :: flat_map fingerprints_of (log run).

(** How the code derives the fingerprints of the cycles in [log], where
    [head] is the last fingerprint before them: the one of 'cube' from
    [head], the ones of the gathered agents each from the one of 'cube'. *)
Fixpoint fingerprints_ok (p : string) (head : string) (log : list Cycle) : Prop :=
  match log with
  | [] => True
  | c :: log' =>
      let cube_hash := reasoning_hash (cube_result c) in
      origin c = head
      /\ cube_hash
         = rehash_fragment head (name_of Cube) (create_meta_prompt Cube p (observed c))
      /\ map reasoning_hash (results c)
         = map (fun r => rehash_fragment cube_hash (name_of r)
                           (create_meta_prompt r p (decided c)))
               (tasks_to_run (action c) (decided c))
      /\ fingerprints_ok p (last (fingerprints_of c) head) log'
  end.

(** The agents whose fingerprints enter the chain in a cycle, each with
    the meta-prompt it rendered and its fingerprint. *)
Definition links_of (p : string) (c : Cycle) : list (Role * string * string) :=
  (Cube, create_meta_prompt Cube p (observed c), reasoning_hash (cube_result c))
  :: combine (map (fun r => (r, create_meta_prompt r p (decided c)))
                  (tasks_to_run (action c) (decided c)))
             (map reasoning_hash (results c)).

(** C1 as stated: every fingerprint is the digest of the chain element
    just before it, the agent's name and the agent's meta-prompt. *)
Fixpoint linear (previous : string) (links : list (Role * string * string)) : Prop :=
  match links with
  | [] => True
  | (r, instruction, fingerprint) :: links' =>
      fingerprint = rehash_fragment previous (name_of r) instruction
      /\ linear fingerprint links'
  end.

(** The same, as a test. *)
Fixpoint linearb (previous : string) (links : list (Role * string * string)) : bool :=
  match links with
  | [] => true
  | (r, instruction, fingerprint) :: links' =>
      String.eqb fingerprint (rehash_fragment previous (name_of r) instruction)
      && linearb fingerprint links'
  end.

(** A run in which 'cube' asks for a plan, then declares the work done. *)
Definition world_plan_once : World :=
  mkWorld
    (fun cycle r =>
       match r with
       | Cube => if (cycle =? 1)%nat then Response "PLAN" else Response "COMPLETE"
       | Wave => Response "1. The script prints hello world."
       | Loop => Response "Write one script that prints the greeting."
       | Line => Response "RESOURCE MANAGEMENT OK"
       | Coin => Response "INTEGRITY OK"
       | _ => Response EmptyString
       end)
    (fun _ _ => O).

Definition no_script : string :=
  "# Composition failed. No final script was generated.".

(** A run with ten PLAN decisions, and the run above. *)
Definition world_always_plan : World :=
  mkWorld (fun _ _ => Response "PLAN") (fun _ _ => O).

(** The keys of the shared state that hold text. *)
Definition TEXT_KEYS : list string :=
  [ "status"; "current_action"; "plan"; "success_criteria"; "advice";
    "prompt_integrity"; "resource_management"; "last_chunk_id"; "final_script" ].

(** The value [v] is of the type the program keeps under [k]. *)
Definition kind_ok (k : string) (v : pyval) : bool :=
  match v with
  | PStr _ => in_list k TEXT_KEYS
  | PFloat _ => String.eqb k "current_entropy_score"
  | PDict _ => in_list k ["code_chunks"; "validations"]
  end.

(** Every entry of the state is of the type kept under its key. *)
Definition well_typed (s : State) : Prop :=
  forall k v, get s k = Some v -> kind_ok k v = true.

(** The value of a hexadecimal digit in lower case. *)
Definition hex_value (c : ascii) : option nat :=
  let n := nat_of_ascii c in
  if ((48 <=? n) && (n <=? 57))%nat then Some (n - 48)
  else if ((97 <=? n) && (n <=? 102))%nat then Some (n - 87)
  else None.

(** The character a two-character escape stands for. *)
Definition unescape (e : ascii) : option ascii :=
  let n := nat_of_ascii e in
  if (n =? 34)%nat then Some e
  else if (n =? 92)%nat then Some e
  else if (n =? 110)%nat then Some (ascii_of_nat 10)
  else if (n =? 114)%nat then Some (ascii_of_nat 13)
  else if (n =? 116)%nat then Some (ascii_of_nat 9)
  else if (n =? 98)%nat then Some (ascii_of_nat 8)
  else if (n =? 102)%nat then Some (ascii_of_nat 12)
  else None.

Definition consed (c : ascii) (r : option (string * string)) : option (string * string) :=
  match r with Some (t, rest) => Some (String c t, rest) | None => None end.

(** Reads a JSON string from just after its opening quote: the text it
    stands for and what follows its closing quote. *)
Fixpoint read_json_string (s : string) : option (string * string) :=
  match s with
  | EmptyString => None
  | String c rest =>
      if (nat_of_ascii c =? 34)%nat then Some (EmptyString, rest)
      else if (nat_of_ascii c =? 92)%nat then
        match rest with
        | String e rest1 =>
            if (nat_of_ascii e =? 117)%nat then
              match rest1 with
              | String _ (String _ (String x (String y rest2))) =>
                  match hex_value x, hex_value y with
                  | Some hx, Some hy =>
                      consed (ascii_of_nat (16 * hx + hy)) (read_json_string rest2)
                  | _, _ => None
                  end
              | _ => None
              end
            else
              match unescape e with
              | Some c' => consed c' (read_json_string rest1)
              | None => None
              end
        | EmptyString => None
        end
      else consed c (read_json_string rest)
  end.

(** [s] without its prefix [p], if it has it. *)
Definition expect (p s : string) : option string :=
  if prefix p s then Some (PyStr.drop (String.length p) s) else None.

(** Reads the entries of a JSON object written with [indent=2], one to a
    line, up to the closing brace. *)
Fixpoint read_entries (fuel : nat) (s : string) : option (dict string * string) :=
  match fuel with
  | O => None
  | S fuel' =>
      match expect ("  " ++ DQ) s with
      | None => None
      | Some s1 =>
      match read_json_string s1 with
      | None => None
      | Some (k, s2) =>
      match expect (": " ++ DQ) s2 with
      | None => None
      | Some s3 =>
      match read_json_string s3 with
      | None => None
      | Some (v, s4) =>
      match expect ("," ++ LF) s4 with
      | Some s5 =>
          match read_entries fuel' s5 with
          | Some (d, rest) => Some ((k, v) :: d, rest)
          | None => None
          end
      | None =>
          match expect (LF ++ "}") s4 with
          | Some rest => Some ([(k, v)], rest)
          | None => None
          end
      end end end end end
  end.

(** Reads a mapping of text written by [json.dumps(d, indent=2)] from the
    head of [s]: the mapping and the text that follows it. *)
Definition json_loads_chunks (s : string) : option (dict string * string) :=
  match expect "{}" s with
  | Some rest => Some ([], rest)
  | None =>
      match expect ("{" ++ LF) s with
      | Some s1 => read_entries (String.length s) s1
      | None => None
      end
  end.

Definition json_entry (kv : string * string) : string :=
  "  " ++ json_string (fst kv) ++ ": " ++ json_string (snd kv).

(** A run through PLAN, EXECUTE, VALIDATE, COMPOSE and COMPLETE, the
    gathered calls of the PLAN cycle completing in reverse order. *)
Definition world_hello : World :=
  mkWorld
    (fun cycle r =>
       match r with
       | Cube =>
           Response (nth (cycle - 1) ["PLAN"; "execute"; " VALIDATE "; "COMPOSE"]
                         "COMPLETE")
       | Wave => Response "1. The script prints hello world."
       | Loop => Response "Write one script that prints the greeting."
       | Line => Response "RESOURCE MANAGEMENT OK"
       | Coin => Response "INTEGRITY OK"
       | Core => Response ("```python" ++ LF ++ "print('hello world')" ++ LF ++ "```")
       | Work => Response "VALID"
       | Code =>
           Response ("```python" ++ LF ++ "def main():" ++ LF
                     ++ "    print('hello world')" ++ LF ++ LF ++ "main()" ++ LF ++ "```")
       end)
    (fun _ r => match r with Wave => 3 | Loop => 2 | Line => 1 | _ => 0 end).

(* ------------------------------------------------------------------ *)
(** ** Vocabulary of the further properties *)

(** [f"chunk_{n}"]. *)
Definition chunk_name (n : nat) : string := "chunk_" ++ str_of_nat n.

(** The chunk ids [chunk_1 .. chunk_n]. *)
Definition chunk_names (n : nat) : list string := map chunk_name (seq 1 n).

(** The chunks are [chunk_1 .. chunk_n] in this order, and [last_chunk_id]
    names the last of them (and is absent while there is none). *)
Definition chunks_in_order (s : State) : Prop :=
  let n := len (code_chunks_of s) in
  keys (code_chunks_of s) = chunk_names n
  /\ get s "last_chunk_id"
     = match n with O => None | S _ => Some (PStr (chunk_name n)) end.

(** The keys the fold of each agent assigns to. *)
Definition writes (r : Role) : list string :=
  match r with
  | Cube => ["current_action"]
  | Wave => ["success_criteria"]
  | Core => ["code_chunks"; "last_chunk_id"]
  | Work => ["validations"; "advice"]
  | Loop => ["plan"; "advice"]
  | Code => ["final_script"]
  | Line => ["resource_management"]
  | Coin => ["prompt_integrity"]
  end.

Definition two_chunk_state : State :=
  Core_process_output ("```python" ++ LF ++ "x = 2" ++ LF ++ "```") one_chunk_state.

(** The keys a write sequence adds are among those written. *)
Definition grows_within (allowed : list string) (s s' : State) : Prop :=
  exists new, keys s' = (keys s ++ new)%list /\ incl new allowed.

(** The report mentions complexity or scope. *)
Definition mentions_issue (report : string) : bool :=
  PyStr.contains "complexity" (PyStr.lower report)
  || PyStr.contains "scope" (PyStr.lower report).

(** The report mentions reducing or managing. *)
Definition mentions_mitigation (report : string) : bool :=
  PyStr.contains "reduce" (PyStr.lower report)
  || PyStr.contains "manage" (PyStr.lower report).

(** The keys [calculate_entropy] reads. *)
Definition ENTROPY_KEYS : list string :=
  [ "prompt_integrity"; "resource_management"; "plan"; "validations";
    "success_criteria"; "current_action"; "code_chunks" ].

(** The text [rehash_fragment] hashes. *)
Definition fragment_of (origin_hash agent_name thought : string) : string :=
  origin_hash ++ ":" ++ agent_name ++ ":" ++ thought.

(** A character of a digest. *)
Definition is_hex (c : ascii) : bool :=
  existsb (Ascii.eqb c) (list_ascii_of_string "0123456789abcdef").

(** A SHA-256 digest in print: 64 hexadecimal digits in lower case. *)
Definition is_digest (h : string) : Prop :=
  String.length h = 64%nat
  /\ forallb is_hex (list_ascii_of_string h) = true.

Definition colon_free (s : string) : bool :=
  forallb (fun c => negb (Ascii.eqb c ":")) (list_ascii_of_string s).

(** Two states hold the same value under every key (the keys may come in
    different orders). *)
Definition same_values (s s' : State) : Prop := forall k, get s k = get s' k.

(** The agents gathered for PLAN. *)
Definition planners : list Role := [Wave; Loop; Line; Coin].

(** The folds of [tasks] on the replies, in the order given. *)
Definition folds_of (reply : Role -> Reply) (order : list Role) (s : State) : State :=
  fold_left (fun st r => snd (process_output r (response_text r (reply r)) st))
            order s.

(** The prompts that print the state as JSON, keys in order. *)
Definition prints_state (r : Role) : bool :=
  match r with Loop | Line | Coin => true | _ => false end.

(** The text an agent works with when its call fails with message [e]. *)
Definition error_text (r : Role) (e : string) : string :=
  "Error: Could not contact Ollama model '" ++ model_of r ++ "'. " ++ e.

(** The chunk [id] carries an invalid verdict. *)
Definition found_invalid (s : State) (id : string) : bool :=
  match get (validations_of s) id with
  | Some v => PyStr.startswith "INVALID" v
  | None => false
  end.

(** The result an agent returns in a cycle whose 'cube' fingerprint is
    [h] and whose state, once 'cube' has answered, is [st]. *)
Definition result_of (w : World) (p : string) (n : nat) (h : string) (st : State)
  (r : Role) : Result :=
  mkResult (name_of r) (role_of r) (model_of r)
           (response_text r (reply_of w n r))
           (rehash_fragment h (name_of r) (create_meta_prompt r p st)).

(** Every call to the model fails. *)
Definition server_down (w : World) : Prop :=
  forall n r, exists e, reply_of w n r = ClientError e.

Definition world_down : World :=
  mkWorld (fun _ _ => ClientError "Connection refused") (fun _ _ => O).

(** No chunk, verdict or script yet, and a plan that is not empty if
    there is one. *)
Definition nothing_built (s : State) : Prop :=
  get s "code_chunks" = Some (PDict [])
  /\ get s "validations" = Some (PDict [])
  /\ get s "final_script" = None
  /\ (get s "plan" = None
      \/ exists x, get s "plan" = Some (PStr x) /\ truthy x = true).

(** A plan and success criteria are there, and the action is PLAN. *)
Definition planned (s : State) : Prop :=
  (exists x, get s "plan" = Some (PStr x) /\ truthy x = true)
  /\ (exists y, get s "success_criteria" = Some (PStr y) /\ truthy y = true)
  /\ get s "current_action" = Some (PStr "PLAN").

(** The agents whose meta-prompt quotes the request. *)
Definition quotes_request (r : Role) : bool :=
  match r with Work | Code => false | _ => true end.

(** A verdict as 'work' writes it. *)
Definition is_verdict (v : string) : Prop :=
  v = "VALID" \/ exists output, v = "INVALID - " ++ output.

Definition verdicts_ok (s : State) : Prop :=
  Forall (fun kv => is_verdict (snd kv)) (validations_of s).

Definition SCORE : string := "current_entropy_score".

(* ------------------------------------------------------------------ *)
(** ** Vocabulary of the laws of text *)

(** Text in ASCII. *)
Definition ascii_text (s : string) : bool :=
  forallb (fun c => (Unicode.byte c <? 0x80)%N) (list_ascii_of_string s).

(** The case of the ASCII letters. *)
Definition ascii_upper (c : ascii) : ascii :=
  let n := nat_of_ascii c in
  if ((97 <=? n) && (n <=? 122))%nat then ascii_of_nat (n - 32) else c.

Definition ascii_lower (c : ascii) : ascii :=
  let n := nat_of_ascii c in
  if ((65 <=? n) && (n <=? 90))%nat then ascii_of_nat (n + 32) else c.

Fixpoint map_chars (f : ascii -> ascii) (s : string) : string :=
  match s with
  | EmptyString => EmptyString
  | String c s' => String (f c) (map_chars f s')
  end.

(** Every byte is from 0x80 up. *)
Definition high_bytes (t : string) : bool :=
  forallb (fun b => (0x80 <=? Unicode.byte b)%N) (list_ascii_of_string t).

(** A character of [chars s]: one ASCII byte under its own code, or bytes
    from 0x80 up under a code point from 0x80 up. *)
Definition char_ok (c : N * string) : Prop :=
  (exists b, c = (Unicode.byte b, String b EmptyString)
             /\ (Unicode.byte b <? 0x80)%N = true)
  \/ ((fst c <? 0x80)%N = false /\ high_bytes (snd c) = true).

(** The text has no capital I. *)
Definition no_I (t : string) : bool :=
  forallb (fun b => negb (Ascii.eqb b "I")) (list_ascii_of_string t).

(** A run of the lower-case table gives no capital I to a character from
    0x80 up. *)
Definition run_no_I (r : N * N * N * N) : bool :=
  let '(first, last, step, image) := r in
  ((last <? 0x80)
   || ((0x80 <=? image) && (image + (last - first) <? 0x110000))
   || ((first =? last) && no_I (Unicode.encode image)))%N.

(** "valIdate" with a dotless small i (U+0131) for its I, and "scope"
    with a long s (U+017F) for its s. *)
Definition dotless_output : string := "val" ++ Unicode.encode 0x131 ++ "date".
Definition long_s_report : string := Unicode.encode 0x17f ++ "cope".

(* ------------------------------------------------------------------ *)
(** ** Vocabulary of the endings of a run *)







(* ================================================================== *)
(** * Properties *)

(* ------------------------------------------------------------------ *)
(** ** String laws *)

Lemma append_nil_r (s : string) : s ++ EmptyString = s.
Proof. induction s as [|c s IH]; simpl; congruence. Qed.

Lemma append_assoc (a b c : string) : (a ++ b) ++ c = a ++ (b ++ c).
Proof. induction a as [|x a IH]; simpl; congruence. Qed.

Lemma length_append (a b : string) :
  String.length (a ++ b) = String.length a + String.length b.
Proof. induction a as [|x a IH]; simpl; congruence. Qed.

Lemma append_inv_head (a b c : string) : a ++ b = a ++ c -> b = c.
Proof. induction a as [|x a IH]; simpl; [auto | intros [= H]; auto]. Qed.

Lemma startswith_spec (p s : string) :
  PyStr.startswith p s = true <-> exists rest, s = p ++ rest.
Proof.
  unfold PyStr.startswith. revert s. induction p as [|c p IH]; intros s.
  - split; [intros _; now exists s | intros _; now destruct s].
  - destruct s as [|d s]; simpl.
    + split; [discriminate | intros [r [=]]].
    + destruct (ascii_dec c d) as [<-|N].
      * rewrite IH. split; intros [r E]; exists r; [now rewrite E | now injection E].
      * split; [discriminate | intros [r E]; injection E as E1 E2; congruence].
Qed.

Lemma prefix_append (p r : string) : prefix p (p ++ r) = true.
Proof. apply startswith_spec. now exists r. Qed.

Lemma drop_append (p r : string) : PyStr.drop (String.length p) (p ++ r) = r.
Proof. induction p as [|c p IH]; simpl; [now destruct r | exact IH]. Qed.

(** A prefix of a prefix. *)
Lemma prefix_extend (p a t : string) :
  prefix p a = true -> prefix p (a ++ t) = true.
Proof.
  intros H. apply startswith_spec in H. destruct H as [r ->].
  rewrite append_assoc. apply prefix_append.
Qed.

(** [partition] finds an occurrence, and the first one. *)
Lemma partition_sound (sep s b a : string) :
  PyStr.partition sep s = Some (b, a) -> s = b ++ sep ++ a.
Proof.
  revert b a. induction s as [|c s IH]; intros b a.
  - rewrite PyStr.partition_nil. destruct (prefix sep EmptyString) eqn:P; [|discriminate].
    intros [= <- <-]. destruct sep; [reflexivity | discriminate P].
  - rewrite PyStr.partition_cons. destruct (prefix sep (String c s)) eqn:P.
    + intros [= <- <-]. apply startswith_spec in P. destruct P as [r E].
      rewrite E, drop_append. reflexivity.
    + destruct (PyStr.partition sep s) as [[b' a']|]; [|discriminate].
      intros [= <- <-]. simpl. f_equal. now apply IH.
Qed.

Lemma partition_first (sep s b a : string) :
  PyStr.partition sep s = Some (b, a) ->
  forall b' a', s = b' ++ sep ++ a' -> String.length b <= String.length b'.
Proof.
  revert b a. induction s as [|c s IH]; intros b a.
  - rewrite PyStr.partition_nil. destruct (prefix sep EmptyString); [|discriminate].
    intros [= <- <-] b' a' _. simpl. lia.
  - rewrite PyStr.partition_cons. destruct (prefix sep (String c s)) eqn:P.
    + intros [= <- <-] b' a' _. simpl. lia.
    + destruct (PyStr.partition sep s) as [[b0 a0]|]; [|discriminate].
      intros [= <- <-] b' a' E. destruct b' as [|c' b'].
      * simpl in E. rewrite E, prefix_append in P. discriminate.
      * simpl in E. injection E as _ E. simpl.
        apply le_n_S. now apply (IH _ _ eq_refl b' a').
Qed.

Lemma partition_None (sep s : string) :
  PyStr.partition sep s = None -> forall b a, s <> b ++ sep ++ a.
Proof.
  induction s as [|c s IH].
  - rewrite PyStr.partition_nil. destruct (prefix sep EmptyString) eqn:P; [discriminate|].
    intros _ b a E. destruct b; [|discriminate E]. simpl in E.
    rewrite E, prefix_append in P. discriminate.
  - rewrite PyStr.partition_cons. destruct (prefix sep (String c s)) eqn:P; [discriminate|].
    destruct (PyStr.partition sep s) as [[b0 a0]|] eqn:Q; [discriminate|].
    intros _ b a E. destruct b as [|c' b].
    + simpl in E. rewrite E, prefix_append in P. discriminate.
    + simpl in E. injection E as _ E. now apply (IH eq_refl b a).
Qed.

Lemma contains_nil (sep : string) :
  PyStr.contains sep EmptyString = prefix sep EmptyString.
Proof. simpl. apply orb_false_r. Qed.

Lemma contains_cons (sep : string) (c : ascii) (s : string) :
  PyStr.contains sep (String c s)
  = prefix sep (String c s) || PyStr.contains sep s.
Proof. reflexivity. Qed.

(** [needle in s] holds exactly when [partition] finds an occurrence. *)
Lemma contains_partition (sep s : string) :
  PyStr.contains sep s = true <-> PyStr.partition sep s <> None.
Proof.
  induction s as [|c s IH].
  - rewrite PyStr.partition_nil, contains_nil.
    destruct (prefix sep EmptyString); split; congruence.
  - rewrite PyStr.partition_cons, contains_cons.
    destruct (prefix sep (String c s)); cbn [orb]; [split; congruence|].
    rewrite IH. destruct (PyStr.partition sep s) as [[b a]|]; split; congruence.
Qed.

Lemma contains_spec (sep s : string) :
  PyStr.contains sep s = true <-> exists b a, s = b ++ sep ++ a.
Proof.
  rewrite contains_partition. split.
  - destruct (PyStr.partition sep s) as [[b a]|] eqn:P; [|congruence].
    intros _. exists b, a. now apply partition_sound.
  - intros (b & a & E) P. now apply (partition_None sep s P b a).
Qed.

(** [s.split(sep)] cuts at the first occurrence and goes on after it. *)
Lemma split_unfold (sep s : string) :
  PyStr.split sep s
  = match sep with
    | EmptyString => [s]
    | _ => match PyStr.partition sep s with
           | Some (b, a) => b :: PyStr.split sep a
           | None => [s]
           end
    end.
Proof.
  funelim (PyStr.split sep s).
  - reflexivity.
  - rewrite E. reflexivity.
  - rewrite e. reflexivity.
Qed.

(* ------------------------------------------------------------------ *)
(** ** Dictionary laws *)

Section DictLaws.
Context {V : Type}.
Implicit Types (d : dict V) (k : string) (v : V).

Lemma get_set d k v k' :
  get (set d k v) k' = if String.eqb k k' then Some v else get d k'.
Proof.
  induction d as [|[k0 v0] d IH]; simpl.
  - destruct (String.eqb k k'); reflexivity.
  - destruct (String.eqb k0 k) eqn:E; simpl.
    + apply String.eqb_eq in E; subst k0.
      destruct (String.eqb k k'); reflexivity.
    + rewrite IH. destruct (String.eqb k0 k') eqn:E'; [|reflexivity].
      apply String.eqb_eq in E'; subst k0. rewrite String.eqb_sym, E. reflexivity.
Qed.

Lemma get_set_same d k v : get (set d k v) k = Some v.
Proof. rewrite get_set, String.eqb_refl. reflexivity. Qed.

Lemma get_In d k v : get d k = Some v -> In (k, v) d.
Proof.
  induction d as [|[k0 v0] d IH]; simpl; [discriminate|].
  destruct (String.eqb k0 k) eqn:E.
  - apply String.eqb_eq in E; subst. intros [= ->]. now left.
  - intros H. right. auto.
Qed.

Lemma get_keys d k : In k (keys d) <-> get d k <> None.
Proof.
  induction d as [|[k0 v0] d IH]; simpl.
  - split; [tauto | congruence].
  - destruct (String.eqb k0 k) eqn:E.
    + apply String.eqb_eq in E. split; [discriminate | auto].
    + apply String.eqb_neq in E. rewrite <- IH. tauto.
Qed.

Lemma keys_set d k v k' : In k' (keys (set d k v)) <-> k' = k \/ In k' (keys d).
Proof.
  rewrite !get_keys, get_set. destruct (String.eqb k k') eqn:E.
  - apply String.eqb_eq in E. split; [auto | discriminate].
  - apply String.eqb_neq in E. split; [auto | intros [?|?]; congruence].
Qed.

(** Assigning to a new key appends; assigning to a present key replaces
    the value where it stands. *)
Lemma set_fresh d k v : get d k = None -> set d k v = (d ++ [(k, v)])%list.
Proof.
  induction d as [|[k0 v0] d IH]; simpl; [reflexivity|].
  destruct (String.eqb k0 k); [discriminate|]. intros H. now rewrite IH.
Qed.

Lemma set_present d k v v0 :
  get d k = Some v0 ->
  exists d1 d2, d = (d1 ++ (k, v0) :: d2)%list
                /\ set d k v = (d1 ++ (k, v) :: d2)%list.
Proof.
  induction d as [|[k1 v1] d IH]; simpl; [discriminate|].
  destruct (String.eqb k1 k) eqn:E.
  - apply String.eqb_eq in E; subst. intros [= ->]. now exists [], d.
  - intros H. destruct (IH H) as (d1 & d2 & -> & ->).
    now exists ((k1, v1) :: d1), d2.
Qed.

Lemma setdefault_present d k v : mem k d = true -> setdefault d k v = d.
Proof. unfold setdefault. now intros ->. Qed.

Lemma get_setdefault_other d k v k' :
  String.eqb k k' = false -> get (setdefault d k v) k' = get d k'.
Proof.
  intros E. unfold setdefault. destruct (mem k d); [reflexivity|].
  now rewrite get_set, E.
Qed.

End DictLaws.

(** Evaluates the key comparisons left by [get_set]. *)
Ltac keys := cbn [String.eqb Ascii.eqb Bool.eqb].

Ltac reads := unfold get_str, get_dict, get_float; rewrite ?get_set; keys.

(** Case analysis on every test [calculate_entropy] makes. *)
Ltac entropy_cases :=
  cbv zeta;
  repeat match goal with
         | |- context [PyStr.contains ?a ?b] =>
             let c := fresh "c" in set (c := PyStr.contains a b); clearbody c
         | |- context [truthy ?a] =>
             let c := fresh "c" in set (c := truthy a); clearbody c
         | |- context [String.eqb ?a ?b] =>
             let c := fresh "c" in set (c := String.eqb a b); clearbody c
         | |- context [Nat.ltb ?a ?b] =>
             let c := fresh "c" in set (c := Nat.ltb a b); clearbody c
         end;
  repeat match goal with c : bool |- _ => destruct c end;
  cbn [negb orb andb]; lia.

(* ------------------------------------------------------------------ *)
(** ** The entropy heuristic *)

(** The score is a function of six reads of the state. *)
Lemma calculate_entropy_reads (s1 s2 : State) :
  get_str s1 "prompt_integrity" = get_str s2 "prompt_integrity" ->
  get_str s1 "resource_management" = get_str s2 "resource_management" ->
  get_str s1 "plan" = get_str s2 "plan" ->
  get_dict s1 "validations" = get_dict s2 "validations" ->
  get_str s1 "success_criteria" = get_str s2 "success_criteria" ->
  get_str s1 "current_action" = get_str s2 "current_action" ->
  get_dict s1 "code_chunks" = get_dict s2 "code_chunks" ->
  calculate_entropy s1 = calculate_entropy s2.
Proof.
  unfold calculate_entropy. now intros -> -> -> -> -> -> ->.
Qed.

Lemma calculate_entropy_sum (s : State) : calculate_entropy s = entropy_sum s.
Proof. unfold calculate_entropy, entropy_sum, invalid_count. entropy_cases. Qed.

Lemma entropy_validations (s : State) (vs : dict string) :
  calculate_entropy (set s "validations" (PDict vs))
  = (calculate_entropy s
     + 70 * (Z.of_nat (invalid_count vs)
             - Z.of_nat (invalid_count (get_or (get_dict s "validations") []))))%Z.
Proof.
  rewrite !calculate_entropy_sum. unfold entropy_sum. reads. cbn [get_or]. lia.
Qed.

Lemma invalid_count_set (vs : dict string) (k v : string) :
  PyStr.startswith "INVALID" v = true ->
  (invalid_count vs <= invalid_count (set vs k v))%nat
  /\ (get vs k = None -> invalid_count (set vs k v) = S (invalid_count vs)).
Proof.
  intros Hv. unfold invalid_count, values. split.
  - destruct (get vs k) as [v0|] eqn:G.
    + destruct (set_present vs k v v0 G) as (d1 & d2 & -> & ->).
      rewrite !map_app, !filter_app, !length_app. simpl. rewrite Hv.
      destruct (PyStr.startswith "INVALID" v0); simpl; lia.
    + rewrite (set_fresh vs k v G), map_app, filter_app, length_app.
      simpl. lia.
  - intros G. rewrite (set_fresh vs k v G), map_app, filter_app, length_app.
    simpl. rewrite Hv. simpl. lia.
Qed.

(** C4. One more invalid verdict in [validations] never lowers the score
    (and a verdict under a new chunk id raises it by 0.7); a plan going
    from non-empty to empty raises the score by exactly 1.0, the penalty
    for a missing plan. *)
Theorem C4_entropy_monotone (s : State) :
  (forall k v,
      PyStr.startswith "INVALID" v = true ->
      let validations := get_or (get_dict s "validations") [] in
      let s' := set s "validations" (PDict (set validations k v)) in
      (calculate_entropy s <= calculate_entropy s')%Z
      /\ (get validations k = None ->
          calculate_entropy s' = (calculate_entropy s + 70)%Z))
  /\ (forall p,
        get_str s "plan" = Some p -> p <> EmptyString ->
        calculate_entropy (set s "plan" (PStr EmptyString))
        = (calculate_entropy s + 100)%Z).
Proof.
  split.
  - intros k v Hv validations s'. subst s'.
    destruct (invalid_count_set validations k v Hv) as [Hle Hnew].
    rewrite entropy_validations. fold validations. split; [lia|].
    intros G. rewrite (Hnew G). lia.
  - intros p Hp Hne.
    rewrite !calculate_entropy_sum. unfold entropy_sum. reads.
    fold (get_str s "plan"). rewrite Hp.
    destruct p as [|c p]; [congruence|]. cbn [get_or truthy]. lia.
Qed.

Lemma C4_entropy_monotone_witness :
  (calculate_entropy planned_state
   <= calculate_entropy
        (set planned_state "validations" (PDict [("chunk_1", "INVALID - no")])))%Z
  /\ calculate_entropy
       (set planned_state "validations" (PDict [("chunk_1", "INVALID - no")]))
     = (calculate_entropy planned_state + 70)%Z
  /\ calculate_entropy (set planned_state "plan" (PStr EmptyString))
     = (calculate_entropy planned_state + 100)%Z.
Proof.
  destruct (C4_entropy_monotone planned_state) as [H1 H2].
  destruct (H1 "chunk_1" "INVALID - no" eq_refl) as [H3 H4].
  split; [exact H3 | split; [exact (H4 eq_refl)|]].
  apply (H2 "1. fetch 2. print"); [reflexivity | discriminate].
Defined.

(** C5, as amended.  The integrity penalty is added exactly when the
    report, read as empty when there is none, does not contain
    "INTEGRITY OK"; so it is added, too, while no report has been produced. *)
Theorem C5_integrity_penalty (s : State) (report : string) :
  let ok := calculate_entropy (set s "prompt_integrity" (PStr "INTEGRITY OK")) in
  calculate_entropy (set s "prompt_integrity" (PStr report))
  = (ok + if PyStr.contains "INTEGRITY OK" report then 0 else 50)%Z
  /\ (get s "prompt_integrity" = None -> integrity_penalty_added s)
  /\ integrity_penalty_added (set s "prompt_integrity" (PStr EmptyString)).
Proof.
  assert (E : forall r,
             calculate_entropy (set s "prompt_integrity" (PStr r))
             = (calculate_entropy (set s "prompt_integrity" (PStr "INTEGRITY OK"))
                + if PyStr.contains "INTEGRITY OK" r then 0 else 50)%Z).
  { intros r. rewrite !calculate_entropy_sum. unfold entropy_sum. reads.
    cbn [get_or].
    change (PyStr.contains "INTEGRITY OK" "INTEGRITY OK") with true. lia. }
  cbv zeta. split; [apply E | split].
  - intros G. unfold integrity_penalty_added.
    rewrite !calculate_entropy_sum. unfold entropy_sum. reads. rewrite G.
    cbn [get_or].
    change (PyStr.contains "INTEGRITY OK" "INTEGRITY OK") with true.
    change (PyStr.contains "INTEGRITY OK" EmptyString) with false. lia.
  - unfold integrity_penalty_added.
    rewrite !calculate_entropy_sum. unfold entropy_sum. reads.
    cbn [get_or].
    change (PyStr.contains "INTEGRITY OK" "INTEGRITY OK") with true.
    change (PyStr.contains "INTEGRITY OK" EmptyString) with false. lia.
Qed.

Lemma C5_integrity_penalty_witness :
  get initial_state "prompt_integrity" = None
  /\ integrity_penalty_added initial_state.
Proof.
  split; [reflexivity|].
  exact (proj1 (proj2 (C5_integrity_penalty initial_state EmptyString)) eq_refl).
Defined.

(** C5 as stated fails on the state every run starts from: no report has
    been produced, and the penalty is in the score. *)
Lemma C5_counterexample :
  get initial_state "prompt_integrity" = None
  /\ calculate_entropy initial_state = 230%Z
  /\ calculate_entropy (set initial_state "prompt_integrity" (PStr "INTEGRITY OK"))
     = 180%Z
  /\ integrity_penalty_added initial_state.
Proof. repeat split. Qed.

(* ------------------------------------------------------------------ *)
(** ** Characters, case and white space *)

Lemma concat_empty_cons (x : string) (l : list string) :
  String.concat EmptyString (x :: l) = x ++ String.concat EmptyString l.
Proof. destruct l; cbn [String.concat append]; [now rewrite append_nil_r | reflexivity]. Qed.

Lemma text_of_cons (c : N * string) (cs : list (N * string)) :
  Unicode.text_of (c :: cs) = snd c ++ Unicode.text_of cs.
Proof. unfold Unicode.text_of. cbn [map]. apply concat_empty_cons. Qed.

Lemma chars_cons_ascii (c : ascii) (s : string) :
  (Unicode.byte c <? 0x80)%N = true ->
  Unicode.chars (String c s) = (Unicode.byte c, String c EmptyString) :: Unicode.chars s.
Proof. intros H. cbn [Unicode.chars]. now rewrite H. Qed.

Lemma upper_cons_ascii (c : ascii) (s : string) :
  (Unicode.byte c <? 0x80)%N = true ->
  PyStr.upper (String c s) = String (ascii_upper c) (PyStr.upper s).
Proof.
  intros H. unfold PyStr.upper. rewrite (chars_cons_ascii c s H).
  cbn [map fst snd]. rewrite concat_empty_cons.
  replace (match Unicode.toupper (Unicode.byte c) with
           | Some image => Unicode.encode_all image
           | None => String c EmptyString
           end) with (String (ascii_upper c) EmptyString); [reflexivity|].
  destruct c as [[] [] [] [] [] [] [] []]; try discriminate H; reflexivity.
Qed.

Lemma lower_chars_cons_ascii (c : ascii) (before : list N) (cs : list (N * string)) :
  (Unicode.byte c <? 0x80)%N = true ->
  PyStr.lower_chars before ((Unicode.byte c, String c EmptyString) :: cs)
  = String (ascii_lower c) (PyStr.lower_chars (Unicode.byte c :: before) cs).
Proof.
  intros H. cbn [PyStr.lower_chars fst snd].
  replace (if (Unicode.byte c =? 0x3a3)%N
           then Unicode.encode
                  (if Unicode.final_sigma before (map fst cs) then 0x3c2%N else 0x3c3%N)
           else match Unicode.tolower (Unicode.byte c) with
                | Some image => Unicode.encode_all image
                | None => String c EmptyString
                end) with (String (ascii_lower c) EmptyString); [reflexivity|].
  destruct c as [[] [] [] [] [] [] [] []]; try discriminate H; reflexivity.
Qed.

Lemma upper_ascii (s : string) :
  ascii_text s = true -> PyStr.upper s = map_chars ascii_upper s.
Proof.
  unfold ascii_text. induction s as [|c s IH]; [reflexivity|].
  cbn [list_ascii_of_string forallb]. intros H. apply andb_true_iff in H as [Hc Hs].
  rewrite upper_cons_ascii by exact Hc. cbn [map_chars]. now rewrite IH.
Qed.

Lemma lower_chars_ascii (s : string) (before : list N) :
  ascii_text s = true ->
  PyStr.lower_chars before (Unicode.chars s) = map_chars ascii_lower s.
Proof.
  unfold ascii_text. revert before. induction s as [|c s IH]; intros before;
    [reflexivity|].
  cbn [list_ascii_of_string forallb]. intros H. apply andb_true_iff in H as [Hc Hs].
  rewrite (chars_cons_ascii c s Hc), lower_chars_cons_ascii by exact Hc.
  cbn [map_chars]. now rewrite IH.
Qed.

Lemma lower_ascii (s : string) :
  ascii_text s = true -> PyStr.lower s = map_chars ascii_lower s.
Proof. apply lower_chars_ascii. Qed.

Lemma ascii_text_map_chars (f : ascii -> ascii) (s : string) :
  (forall c, (Unicode.byte c <? 0x80)%N = true -> (Unicode.byte (f c) <? 0x80)%N = true) ->
  ascii_text s = true -> ascii_text (map_chars f s) = true.
Proof.
  intros F. unfold ascii_text. induction s as [|c s IH]; [reflexivity|].
  cbn [map_chars list_ascii_of_string forallb]. intros H.
  apply andb_true_iff in H as [Hc Hs]. now rewrite (F c Hc), IH.
Qed.

Lemma ascii_upper_ascii (c : ascii) :
  (Unicode.byte c <? 0x80)%N = true -> (Unicode.byte (ascii_upper c) <? 0x80)%N = true.
Proof. destruct c as [[] [] [] [] [] [] [] []]; intros H; try discriminate H; reflexivity. Qed.

Lemma ascii_lower_ascii (c : ascii) :
  (Unicode.byte c <? 0x80)%N = true -> (Unicode.byte (ascii_lower c) <? 0x80)%N = true.
Proof. destruct c as [[] [] [] [] [] [] [] []]; intros H; try discriminate H; reflexivity. Qed.

Lemma lower_upper_char (c : ascii) : ascii_lower (ascii_upper c) = ascii_lower c.
Proof. destruct c as [[] [] [] [] [] [] [] []]; reflexivity. Qed.

Lemma upper_lower_char (c : ascii) : ascii_upper (ascii_lower c) = ascii_upper c.
Proof. destruct c as [[] [] [] [] [] [] [] []]; reflexivity. Qed.

Lemma map_chars_compose (f g h : ascii -> ascii) (s : string) :
  (forall c, f (g c) = h c) -> map_chars f (map_chars g s) = map_chars h s.
Proof. intros E. induction s as [|c s IH]; cbn [map_chars]; congruence. Qed.

(** In ASCII text a change of case and back is a change of case. *)
Lemma lower_upper (s : string) :
  ascii_text s = true -> PyStr.lower (PyStr.upper s) = PyStr.lower s.
Proof.
  intros A. rewrite (upper_ascii s A), (lower_ascii s A).
  rewrite lower_ascii by (apply ascii_text_map_chars; [apply ascii_upper_ascii | exact A]).
  apply map_chars_compose, lower_upper_char.
Qed.

Lemma upper_lower (s : string) :
  ascii_text s = true -> PyStr.upper (PyStr.lower s) = PyStr.upper s.
Proof.
  intros A. rewrite (upper_ascii s A), (lower_ascii s A).
  rewrite upper_ascii by (apply ascii_text_map_chars; [apply ascii_lower_ascii | exact A]).
  apply map_chars_compose, upper_lower_char.
Qed.

Lemma ascii_text_lower (s : string) :
  ascii_text s = true -> ascii_text (PyStr.lower s) = true.
Proof.
  intros A. rewrite (lower_ascii s A).
  apply ascii_text_map_chars; [apply ascii_lower_ascii | exact A].
Qed.

Lemma lstrip_Forall (P : N * string -> Prop) (cs : list (N * string)) :
  Forall P cs -> Forall P (PyStr.lstrip cs).
Proof.
  induction 1 as [|c cs Pc F IH]; [constructor|].
  cbn [PyStr.lstrip]. destruct (Unicode.isspace (fst c)); [exact IH | now constructor].
Qed.

Lemma rstrip_Forall (P : N * string -> Prop) (cs : list (N * string)) :
  Forall P cs -> Forall P (PyStr.rstrip cs).
Proof.
  induction 1 as [|c cs Pc F IH]; [constructor|].
  cbn [PyStr.rstrip]. destruct (PyStr.rstrip cs) as [|r rs].
  - destruct (Unicode.isspace (fst c)); repeat constructor; assumption.
  - now constructor.
Qed.

Lemma rstrip_cons (c : N * string) (cs : list (N * string)) :
  Unicode.isspace (fst c) = false -> PyStr.rstrip (c :: cs) = c :: PyStr.rstrip cs.
Proof. intros E. cbn [PyStr.rstrip]. rewrite E. now destruct (PyStr.rstrip cs). Qed.

Lemma ascii_text_app (a b : string) :
  ascii_text (a ++ b) = ascii_text a && ascii_text b.
Proof.
  unfold ascii_text. induction a as [|c a IH]; [reflexivity|].
  cbn [append list_ascii_of_string forallb]. now rewrite IH, andb_assoc.
Qed.

Lemma chars_ascii_Forall (s : string) :
  ascii_text s = true -> Forall (fun c => ascii_text (snd c) = true) (Unicode.chars s).
Proof.
  unfold ascii_text at 1. induction s as [|c s IH]; [constructor|].
  cbn [list_ascii_of_string forallb]. intros H. apply andb_true_iff in H as [Hc Hs].
  rewrite (chars_cons_ascii c s Hc). constructor; [|now apply IH].
  unfold ascii_text. cbn. now rewrite Hc.
Qed.

Lemma ascii_text_strip (s : string) :
  ascii_text s = true -> ascii_text (PyStr.strip s) = true.
Proof.
  intros A. unfold PyStr.strip.
  pose proof (rstrip_Forall _ _ (lstrip_Forall _ _ (chars_ascii_Forall s A))) as F.
  induction F as [|c cs Pc F IH]; [reflexivity|].
  now rewrite text_of_cons, ascii_text_app, Pc, IH.
Qed.

(** The characters of any text. *)

Ltac bools :=
  repeat match goal with
         | H : (_ && _)%bool = true |- _ => apply andb_true_iff in H as [? ?]
         | H : negb _ = true |- _ => apply negb_true_iff in H
         | H : (_ <=? _)%N = true |- _ => apply N.leb_le in H
         | H : (_ <=? _)%N = false |- _ => apply N.leb_gt in H
         | H : (_ <? _)%N = true |- _ => apply N.ltb_lt in H
         | H : (_ <? _)%N = false |- _ => apply N.ltb_ge in H
         | H : (_ =? _)%N = true |- _ => apply N.eqb_eq in H
         | H : (_ =? _)%N = false |- _ => apply N.eqb_neq in H
         end.

Lemma char2_ok (c0 c1 : ascii) (cp : N) :
  Unicode.char2 (Unicode.byte c0) (Unicode.byte c1) = Some cp ->
  char_ok (cp, String c0 (String c1 EmptyString)).
Proof.
  unfold Unicode.char2, Unicode.cont.
  destruct (_ && _ && _)%bool eqn:E; [|discriminate]. intros [= <-].
  right. cbn [fst snd high_bytes list_ascii_of_string forallb]. bools. split.
  - apply N.ltb_ge. lia.
  - rewrite !andb_true_iff, !N.leb_le. lia.
Qed.

Lemma char3_ok (c0 c1 c2 : ascii) (cp : N) :
  Unicode.char3 (Unicode.byte c0) (Unicode.byte c1) (Unicode.byte c2) = Some cp ->
  char_ok (cp, String c0 (String c1 (String c2 EmptyString))).
Proof.
  unfold Unicode.char3, Unicode.cont.
  destruct (_ && _ && _ && _)%bool eqn:E; [|discriminate]. cbv zeta. bools.
  destruct (_ && negb _)%bool eqn:E2; [|discriminate]. intros [= <-].
  right. cbn [fst snd high_bytes list_ascii_of_string forallb]. bools. split.
  - apply N.ltb_ge. lia.
  - rewrite !andb_true_iff, !N.leb_le. lia.
Qed.

Lemma char4_ok (c0 c1 c2 c3 : ascii) (cp : N) :
  Unicode.char4 (Unicode.byte c0) (Unicode.byte c1) (Unicode.byte c2)
                (Unicode.byte c3) = Some cp ->
  char_ok (cp, String c0 (String c1 (String c2 (String c3 EmptyString)))).
Proof.
  unfold Unicode.char4, Unicode.cont.
  destruct (_ && _ && _ && _ && _)%bool eqn:E; [|discriminate]. cbv zeta. bools.
  destruct (_ && _)%bool eqn:E2; [|discriminate]. intros [= <-].
  right. cbn [fst snd high_bytes list_ascii_of_string forallb]. bools. split.
  - apply N.ltb_ge. lia.
  - rewrite !andb_true_iff, !N.leb_le. lia.
Qed.

Lemma stray_ok (c0 : ascii) :
  (Unicode.byte c0 <? 0x80)%N = false -> char_ok (Unicode.stray c0).
Proof.
  intros E. right. unfold Unicode.stray.
  cbn [fst snd high_bytes list_ascii_of_string forallb]. bools.
  split; [apply N.ltb_ge; lia | rewrite andb_true_r; now apply N.leb_le].
Qed.

Lemma chars_ok (s : string) : Forall char_ok (Unicode.chars s).
Proof.
  assert (G : forall n s, (String.length s <= n)%nat -> Forall char_ok (Unicode.chars s)).
  { clear s. induction n as [|n IH]; intros [|c0 s1] L; try constructor;
      cbn [String.length] in L; [lia|].
    cbn [Unicode.chars].
    assert (I1 : Forall char_ok (Unicode.chars s1)) by (apply IH; lia).
    destruct (Unicode.byte c0 <? 0x80)%N eqn:E0.
    { constructor; [left; now exists c0 | exact I1]. }
    pose proof (stray_ok c0 E0) as S0.
    destruct s1 as [|c1 s2]; [now constructor|]. cbn [String.length] in L.
    destruct (Unicode.char2 _ _) as [cp|] eqn:E2.
    { constructor; [now apply char2_ok | apply IH; lia]. }
    destruct s2 as [|c2 s3]; [now constructor|]. cbn [String.length] in L.
    destruct (Unicode.char3 _ _ _) as [cp|] eqn:E3.
    { constructor; [now apply char3_ok | apply IH; lia]. }
    destruct s3 as [|c3 s4]; [now constructor|]. cbn [String.length] in L.
    destruct (Unicode.char4 _ _ _ _) as [cp|] eqn:E4.
    { constructor; [now apply char4_ok | apply IH; lia]. }
    now constructor. }
  now apply (G (String.length s)).
Qed.

(** Lower case has no capital I. *)

Lemma no_I_app (a b : string) : no_I (a ++ b) = no_I a && no_I b.
Proof.
  unfold no_I. induction a as [|c a IH]; [reflexivity|].
  cbn [append list_ascii_of_string forallb]. now rewrite IH, andb_assoc.
Qed.

Lemma high_bytes_app (a b : string) :
  high_bytes (a ++ b) = high_bytes a && high_bytes b.
Proof.
  unfold high_bytes. induction a as [|c a IH]; [reflexivity|].
  cbn [append list_ascii_of_string forallb]. now rewrite IH, andb_assoc.
Qed.

Lemma high_no_I (t : string) : high_bytes t = true -> no_I t = true.
Proof.
  unfold high_bytes, no_I. induction t as [|c t IH]; [reflexivity|].
  cbn [list_ascii_of_string forallb]. intros H. apply andb_true_iff in H as [Hc Ht].
  rewrite (IH Ht), andb_true_r. apply negb_true_iff.
  destruct (Ascii.eqb c "I") eqn:E; [|reflexivity].
  apply Ascii.eqb_eq in E. subst c. discriminate Hc.
Qed.

Lemma high_chr (n : N) :
  (0x80 <= n < 256)%N -> high_bytes (Unicode.chr n) = true.
Proof.
  intros B. unfold high_bytes, Unicode.chr, Unicode.byte.
  cbn [list_ascii_of_string forallb].
  rewrite N_ascii_embedding by lia. rewrite andb_true_r. apply N.leb_le. lia.
Qed.

Lemma encode_high (x : N) :
  (0x80 <= x < 0x110000)%N -> high_bytes (Unicode.encode x) = true.
Proof.
  intros B. unfold Unicode.encode.
  pose proof (N.mod_lt x 64 ltac:(discriminate)) as M0.
  pose proof (N.mod_lt (x / 64) 64 ltac:(discriminate)) as M1.
  pose proof (N.mod_lt (x / 4096) 64 ltac:(discriminate)) as M2.
  pose proof (fun H => N.Div0.div_lt_upper_bound x 64 32 H) as D1.
  pose proof (fun H => N.Div0.div_lt_upper_bound x 4096 16 H) as D2.
  pose proof (fun H => N.Div0.div_lt_upper_bound x 262144 5 H) as D3.
  change (64 * 32)%N with 2048%N in D1. change (4096 * 16)%N with 65536%N in D2.
  change (262144 * 5)%N with 1310720%N in D3.
  set (r0 := (x mod 64)%N) in *. set (r1 := ((x / 64) mod 64)%N) in *.
  set (r2 := ((x / 4096) mod 64)%N) in *. set (q1 := (x / 64)%N) in *.
  set (q2 := (x / 4096)%N) in *. set (q3 := (x / 262144)%N) in *.
  clearbody r0 r1 r2 q1 q2 q3.
  destruct (x <? 0x80)%N eqn:E0; [bools; lia|].
  destruct (x <? 0x800)%N eqn:E1.
  { bools. rewrite high_bytes_app, !high_chr by lia. reflexivity. }
  destruct ((0xdc80 <=? x)%N && (x <=? 0xdcff)%N) eqn:E2.
  { bools. apply high_chr. lia. }
  destruct (x <? 0x10000)%N eqn:E3.
  { bools. rewrite !high_bytes_app, !high_chr by lia. reflexivity. }
  bools. rewrite !high_bytes_app, !high_chr by lia. reflexivity.
Qed.

Lemma find_full_In (table : list (N * list N)) (cp : N) (image : list N) :
  Unicode.find_full table cp = Some image -> In (cp, image) table.
Proof.
  induction table as [|[cp' i] table IH]; cbn [Unicode.find_full]; [discriminate|].
  destruct (cp' =? cp)%N eqn:E.
  - intros [= ->]. apply N.eqb_eq in E. subst. now left.
  - intros H. right. now apply IH.
Qed.

Lemma find_run_In (table : list (N * N * N * N)) (cp x : N) :
  Unicode.find_run table cp = Some x ->
  exists first last step image,
    In (first, last, step, image) table
    /\ (first <= cp <= last)%N /\ x = (image + (cp - first))%N.
Proof.
  induction table as [|[[[first last] step] image] table IH];
    cbn [Unicode.find_run]; [discriminate|].
  destruct (_ && _ && _)%bool eqn:E.
  - intros [= <-]. exists first, last, step, image. bools.
    repeat split; auto. now left.
  - intros H. destruct (IH H) as (f & l & s & i & I & B).
    exists f, l, s, i. split; [now right | exact B].
Qed.

Lemma lower_runs_no_I : forallb run_no_I Unicode.LOWER = true.
Proof. vm_compute. reflexivity. Qed.

Lemma lower_full_no_I :
  forallb (fun e => no_I (Unicode.encode_all (snd e))) Unicode.LOWER_FULL = true.
Proof. vm_compute. reflexivity. Qed.

Lemma ascii_lower_not_I (c : ascii) : ascii_lower c <> "I"%char.
Proof. destruct c as [[] [] [] [] [] [] [] []]; discriminate. Qed.

Lemma lower_chars_no_I (cs : list (N * string)) :
  Forall char_ok cs -> forall before, no_I (PyStr.lower_chars before cs) = true.
Proof.
  induction 1 as [|c cs Hc F IH]; intros before; [reflexivity|].
  destruct Hc as [(b & -> & Hb) | [Hh Hs]].
  - rewrite lower_chars_cons_ascii by exact Hb.
    unfold no_I. cbn [list_ascii_of_string forallb]. fold (no_I (PyStr.lower_chars (Unicode.byte b :: before) cs)).
    rewrite IH, andb_true_r. apply negb_true_iff.
    destruct (Ascii.eqb (ascii_lower b) "I") eqn:E; [|reflexivity].
    apply Ascii.eqb_eq in E. now apply ascii_lower_not_I in E.
  - cbn [PyStr.lower_chars]. rewrite no_I_app, IH, andb_true_r.
    destruct (fst c =? 0x3a3)%N.
    { now destruct (Unicode.final_sigma before (map fst cs)). }
    unfold Unicode.tolower. rewrite Hh.
    destruct (Unicode.find_full Unicode.LOWER_FULL (fst c)) as [image|] eqn:E.
    { apply find_full_In in E. pose proof lower_full_no_I as T.
      rewrite forallb_forall in T. exact (T _ E). }
    destruct (Unicode.find_run Unicode.LOWER (fst c)) as [x|] eqn:E';
      cbn [option_map]; [|now apply high_no_I].
    apply find_run_In in E' as (first & last & step & image & I & B & ->).
    pose proof lower_runs_no_I as T. rewrite forallb_forall in T.
    specialize (T _ I). cbn [run_no_I] in T.
    unfold Unicode.encode_all. cbn [map]. rewrite concat_empty_cons, append_nil_r.
    bools. apply orb_true_iff in T as [T | T];
      [apply orb_true_iff in T as [T | T]|]; bools.
    + lia.
    + apply high_no_I, encode_high. lia.
    + replace (image + (fst c - first))%N with image by lia. assumption.
Qed.

Lemma contains_no_I (s : string) :
  no_I s = true -> PyStr.contains "INTEGRITY OK" s = false.
Proof.
  unfold no_I. induction s as [|c s IH]; [reflexivity|].
  cbn [list_ascii_of_string forallb]. intros H. apply andb_true_iff in H as [Hc Hs].
  cbn [PyStr.contains]. rewrite (IH Hs), orb_false_r. cbn [prefix].
  destruct (ascii_dec "I" c) as [<-|]; [discriminate Hc | reflexivity].
Qed.

Lemma no_marker_in_lower (r : string) :
  PyStr.contains "INTEGRITY OK" (PyStr.lower r) = false.
Proof. apply contains_no_I, lower_chars_no_I, chars_ok. Qed.

(** A text that starts with "Er", stripped and in upper case. *)

Lemma strip_Er (rest : string) :
  PyStr.strip (String "E" (String "r" rest))
  = String "E" (String "r" (Unicode.text_of (PyStr.rstrip (Unicode.chars rest)))).
Proof.
  unfold PyStr.strip. rewrite !chars_cons_ascii by reflexivity.
  cbn [PyStr.lstrip fst]. change (Unicode.isspace (Unicode.byte "E")) with false.
  cbv iota. rewrite !rstrip_cons by reflexivity. now rewrite !text_of_cons.
Qed.

Lemma upper_Er (t : string) :
  PyStr.upper (String "E" (String "r" t)) = String "E" (String "R" (PyStr.upper t)).
Proof. now rewrite !upper_cons_ascii by reflexivity. Qed.

(* ------------------------------------------------------------------ *)
(** ** 'cube': the action clamp *)

Lemma in_list_In (x : string) (xs : list string) :
  in_list x xs = true <-> In x xs.
Proof.
  unfold in_list. rewrite existsb_exists. split.
  - intros (y & Hy & E). apply String.eqb_eq in E. now subst.
  - intros H. exists x. split; [assumption | apply String.eqb_refl].
Qed.

Lemma ACTIONS_upper (a : string) :
  In a ACTIONS -> PyStr.upper a = a /\ ascii_text a = true.
Proof.
  simpl. intros H.
  repeat (destruct H as [<-|H]; [split; reflexivity|]). contradiction.
Qed.

(** C3, as amended.  The fold of 'cube' strips the output and puts it in
    upper case: if that is one of the six actions, [current_action]
    becomes it and nothing is printed; if not, [current_action] becomes
    PLAN and a warning is printed; so [current_action] is always one of
    the six.  For an output in ASCII, the action the fold sets is the one
    the output names, whatever its case. *)
Theorem C3_action_clamp (output : string) (state : State) :
  let printed := fst (Cube_process_output output state) in
  let state' := snd (Cube_process_output output state) in
  let action := PyStr.upper (PyStr.strip output) in
  (In action ACTIONS ->
   get state' "current_action" = Some (PStr action) /\ printed = [])
  /\ (~ In action ACTIONS ->
      get state' "current_action" = Some (PStr "PLAN")
      /\ printed = [invalid_action_warning action])
  /\ (exists a, In a ACTIONS /\ get state' "current_action" = Some (PStr a))
  /\ (ascii_text output = true ->
      forall a, In a ACTIONS -> (names_action output a <-> action = a)).
Proof.
  unfold Cube_process_output, names_action. cbv zeta.
  set (action := PyStr.upper (PyStr.strip output)).
  split; [|split; [|split]].
  - intros M. apply in_list_In in M. rewrite M. cbn [negb fst snd].
    now rewrite get_set_same.
  - intros M. destruct (in_list action ACTIONS) eqn:E.
    + now apply in_list_In in E.
    + cbn [negb fst snd]. now rewrite get_set_same.
  - destruct (in_list action ACTIONS) eqn:E; cbn [negb fst snd];
      rewrite get_set_same.
    + apply in_list_In in E. now exists action.
    + exists "PLAN". split; [now left | reflexivity].
  - intros A a Ha. destruct (ACTIONS_upper a Ha) as [Ua Aa].
    pose proof (ascii_text_strip output A) as At. unfold action. split.
    + intros E. rewrite <- Ua, <- (upper_lower a Aa), <- E.
      now rewrite upper_lower.
    + intros E. rewrite <- E. now rewrite lower_upper.
Qed.

Lemma C3_action_clamp_witness :
  (names_action " compose " "COMPOSE"
   <-> PyStr.upper (PyStr.strip " compose ") = "COMPOSE")
  /\ get (snd (Cube_process_output " compose " initial_state)) "current_action"
     = Some (PStr "COMPOSE")
  /\ get (snd (Cube_process_output "banana" initial_state)) "current_action"
     = Some (PStr "PLAN")
  /\ fst (Cube_process_output "banana" initial_state)
     = [invalid_action_warning "BANANA"].
Proof.
  split; [|split].
  - apply (proj2 (proj2 (proj2 (C3_action_clamp " compose " initial_state))));
      [reflexivity | simpl; tauto].
  - apply (proj1 (C3_action_clamp " compose " initial_state)).
    vm_compute. tauto.
  - apply (proj1 (proj2 (C3_action_clamp "banana" initial_state))).
    vm_compute. intuition discriminate.
Defined.

(** C3 as stated fails outside ASCII: the upper case of the dotless small
    i is the capital I, so the fold takes "valIdate" written with it for
    VALIDATE and prints no warning, although the output names no action:
    its lower case, which keeps the dotless i, is that of none of the
    six. *)
Lemma C3_counterexample :
  (forall a, In a ACTIONS -> ~ names_action dotless_output a)
  /\ Cube_process_output dotless_output initial_state
     = ([], set initial_state "current_action" (PStr "VALIDATE")).
Proof.
  split.
  - intros a Ha E. unfold names_action in E. simpl in Ha.
    repeat (destruct Ha as [<-|Ha]; [vm_compute in E; discriminate E|]).
    contradiction.
  - vm_compute. reflexivity.
Qed.

(* ------------------------------------------------------------------ *)
(** ** Reads after the writes the agents make *)

Lemma get_setdefault {V : Type} (d : dict V) (k : string) (v : V) (k' : string) :
  get (setdefault d k v) k'
  = match get d k' with
    | Some x => Some x
    | None => if String.eqb k k' then Some v else None
    end.
Proof.
  unfold setdefault, mem. destruct (get d k) as [x|] eqn:G.
  - destruct (get d k') eqn:G'; [reflexivity|].
    destruct (String.eqb k k') eqn:E; [|reflexivity].
    apply String.eqb_eq in E; subst. congruence.
  - rewrite get_set. destruct (String.eqb k k') eqn:E.
    + apply String.eqb_eq in E; subst. now rewrite G.
    + now destruct (get d k').
Qed.

Lemma get_dict_setdefault (s : State) (k k' : string) :
  get_or (get_dict (setdefault s k (PDict [])) k') []
  = get_or (get_dict s k') [].
Proof.
  unfold get_dict. rewrite get_setdefault.
  destruct (get s k') as [[]|]; try reflexivity.
  now destruct (String.eqb k k').
Qed.

Lemma get_str_setdefault (s : State) (k k' : string) :
  get_str (setdefault s k (PDict [])) k' = get_str s k'.
Proof.
  unfold get_str. rewrite get_setdefault.
  destruct (get s k') as [[]|]; try reflexivity.
  now destruct (String.eqb k k').
Qed.

Lemma get_set_item (s : State) (k id v k' : string) :
  get (set_item s k id v) k'
  = if String.eqb k k'
    then Some (PDict (set (get_or (get_dict s k) []) id v))
    else get s k'.
Proof. unfold set_item. apply get_set. Qed.

Lemma get_str_set (s : State) (k : string) (v : pyval) (k' : string) :
  get_str (set s k v) k'
  = if String.eqb k k'
    then match v with PStr x => Some x | _ => None end
    else get_str s k'.
Proof. unfold get_str. rewrite get_set. now destruct (String.eqb k k'). Qed.

Lemma get_dict_set (s : State) (k : string) (v : pyval) (k' : string) :
  get_dict (set s k v) k'
  = if String.eqb k k'
    then match v with PDict d => Some d | _ => None end
    else get_dict s k'.
Proof. unfold get_dict. rewrite get_set. now destruct (String.eqb k k'). Qed.

Lemma get_str_set_item (s : State) (k id v k' : string) :
  get_str (set_item s k id v) k'
  = if String.eqb k k' then None else get_str s k'.
Proof. unfold set_item. apply get_str_set. Qed.

Lemma get_dict_set_item (s : State) (k id v k' : string) :
  get_dict (set_item s k id v) k'
  = if String.eqb k k'
    then Some (set (get_or (get_dict s k) []) id v)
    else get_dict s k'.
Proof. unfold set_item. apply get_dict_set. Qed.

(** The agents' writes, read back. *)
Ltac folds :=
  unfold code_chunks_of, validations_of;
  rewrite ?get_str_set, ?get_dict_set, ?get_str_set_item, ?get_dict_set_item,
          ?get_set, ?get_set_item;
  keys.

(* ------------------------------------------------------------------ *)
(** ** 'work': verdicts *)

(** C8, as amended.  With [last_chunk_id] unset (absent, or empty), the
    fold of 'work' changes nothing but for the [validations] mapping it
    creates, empty, when the state has none; a state that has the mapping
    is left as it is. *)
Theorem C8_checker_without_chunk (output : string) (state : State) :
  get state "last_chunk_id" = None
  \/ get state "last_chunk_id" = Some (PStr EmptyString) ->
  Work_process_output output state = setdefault state "validations" (PDict [])
  /\ (mem "validations" state = true -> Work_process_output output state = state)
  /\ (mem "validations" state = false ->
      Work_process_output output state
      = (state ++ [("validations", PDict [])])%list).
Proof.
  intros U.
  assert (E : Work_process_output output state
              = setdefault state "validations" (PDict [])).
  { unfold Work_process_output. rewrite get_str_setdefault. unfold get_str.
    destruct U as [-> | ->]; reflexivity. }
  rewrite E. split; [reflexivity | split]; intros M.
  - now apply setdefault_present.
  - unfold setdefault. rewrite M. apply set_fresh.
    unfold mem in M. now destruct (get state "validations").
Qed.

Lemma C8_checker_without_chunk_witness :
  Work_process_output "VALID" initial_state = initial_state.
Proof.
  apply (proj1 (proj2 (C8_checker_without_chunk "VALID" initial_state
                         (or_introl eq_refl)))).
  reflexivity.
Defined.

(** C8 as stated fails on the empty state: [last_chunk_id] is unset and
    the fold adds a field. *)
Lemma C8_counterexample :
  get ([] : State) "last_chunk_id" = None
  /\ Work_process_output "VALID" [] = [("validations", PDict [])]
  /\ Work_process_output "VALID" [] <> [].
Proof. repeat split. discriminate. Qed.

Lemma Work_process_output_set (output id : string) (state : State) :
  get state "last_chunk_id" = Some (PStr id) -> id <> EmptyString ->
  Work_process_output output state
  = let state1 := setdefault state "validations" (PDict []) in
    if PyStr.startswith "VALID" output
    then set_item state1 "validations" id "VALID"
    else set (set_item state1 "validations" id ("INVALID - " ++ output)) "advice"
             (PStr ("Validation failed for " ++ id ++ ": " ++ output)).
Proof.
  intros G Hne. unfold Work_process_output.
  rewrite get_str_setdefault. unfold get_str. rewrite G.
  destruct id; [congruence | reflexivity].
Qed.

Lemma validations_of_setdefault (s : State) :
  validations_of (setdefault s "validations" (PDict [])) = validations_of s.
Proof. apply get_dict_setdefault. Qed.

(** C9. With [last_chunk_id] set, the fold of 'work' goes by the first
    five characters alone: an output that starts with "VALID" is recorded
    as "VALID" (and the advice is left alone); any other output is
    recorded as "INVALID - " followed by the output, and replaces the
    advice. *)
Theorem C9_checker_prefix (output last_chunk_id : string) (state : State) :
  get state "last_chunk_id" = Some (PStr last_chunk_id) ->
  last_chunk_id <> EmptyString ->
  let state' := Work_process_output output state in
  ((exists rest, output = "VALID" ++ rest) ->
   get (validations_of state') last_chunk_id = Some "VALID"
   /\ get state' "advice" = get state "advice")
  /\ (~ (exists rest, output = "VALID" ++ rest) ->
      get (validations_of state') last_chunk_id = Some ("INVALID - " ++ output)
      /\ get state' "advice"
         = Some (PStr ("Validation failed for " ++ last_chunk_id ++ ": " ++ output))).
Proof.
  intros G Hne state'. subst state'.
  rewrite (Work_process_output_set output last_chunk_id state G Hne).
  cbv zeta. rewrite <- startswith_spec.
  destruct (PyStr.startswith "VALID" output); split;
    try (intros H; exfalso; congruence); intros _; split; folds;
    cbn [get_or]; rewrite ?get_set_same; try reflexivity.
  now rewrite get_setdefault_other.
Qed.

Lemma C9_checker_prefix_witness :
  get (validations_of (Work_process_output "VALIDATION FAILED: syntax error"
                         one_chunk_state)) "chunk_1" = Some "VALID"
  /\ get (validations_of (Work_process_output "Looks fine" one_chunk_state))
         "chunk_1" = Some "INVALID - Looks fine"
  /\ get (Work_process_output "Looks fine" one_chunk_state) "advice"
     = Some (PStr "Validation failed for chunk_1: Looks fine").
Proof.
  split.
  - apply (proj1 (C9_checker_prefix "VALIDATION FAILED: syntax error" "chunk_1"
                    one_chunk_state eq_refl ltac:(discriminate))).
    now exists "ATION FAILED: syntax error".
  - apply (proj2 (C9_checker_prefix "Looks fine" "chunk_1"
                    one_chunk_state eq_refl ltac:(discriminate))).
    intros [rest E]. discriminate E.
Defined.

(* ------------------------------------------------------------------ *)
(** ** Verdicts are about chunks that exist *)

Lemma chunk_keys_frame (s s' : State) :
  validations_of s' = validations_of s ->
  code_chunks_of s' = code_chunks_of s ->
  get s' "last_chunk_id" = get s "last_chunk_id" ->
  chunk_keys_ok s -> chunk_keys_ok s'.
Proof. unfold chunk_keys_ok. now intros -> -> ->. Qed.

Lemma get_str_Some (s : State) (k x : string) :
  get_str s k = Some x <-> get s k = Some (PStr x).
Proof.
  unfold get_str. destruct (get s k) as [[]|]; split; congruence.
Qed.

Lemma Core_keeps_chunk_keys (output : string) (s : State) :
  chunk_keys_ok s -> chunk_keys_ok (Core_process_output output s).
Proof.
  intros [Hv Hl]. unfold Core_process_output.
  destruct (PyStr.contains "```python" output); [|now split].
  destruct (fenced_code output) as [code_chunk|]; [|now split].
  set (id := "chunk_" ++ _).
  split.
  - intros k. folds. cbn [get_or]. rewrite !get_dict_setdefault.
    intros H. apply keys_set. right. now apply Hv.
  - intros id'. folds. intros [= <-]. cbn [get_or]. apply keys_set. now left.
Qed.

Lemma Work_keeps_chunk_keys (output : string) (s : State) :
  chunk_keys_ok s -> chunk_keys_ok (Work_process_output output s).
Proof.
  intros [Hv Hl].
  assert (F : chunk_keys_ok (setdefault s "validations" (PDict []))).
  { apply (chunk_keys_frame s); [| | | now split].
    - apply get_dict_setdefault.
    - apply get_dict_setdefault.
    - now apply get_setdefault_other. }
  destruct (get_str s "last_chunk_id") as [id|] eqn:G.
  - destruct id as [|c id].
    + unfold Work_process_output. rewrite get_str_setdefault, G. exact F.
    + apply get_str_Some in G.
      rewrite (Work_process_output_set output _ s G ltac:(discriminate)).
      cbv zeta.
      destruct (PyStr.startswith "VALID" output); split.
      * intros k. folds. cbn [get_or]. rewrite !get_dict_setdefault.
        intros H. apply keys_set in H. destruct H as [->|H]; [now apply Hl | now apply Hv].
      * intros id'. folds. rewrite get_setdefault_other by reflexivity.
        rewrite get_dict_setdefault. apply Hl.
      * intros k. folds. cbn [get_or]. rewrite !get_dict_setdefault.
        intros H. apply keys_set in H. destruct H as [->|H]; [now apply Hl | now apply Hv].
      * intros id'. folds. rewrite get_setdefault_other by reflexivity.
        rewrite get_dict_setdefault. apply Hl.
  - unfold Work_process_output. rewrite get_str_setdefault, G. exact F.
Qed.

Lemma fold_keeps_chunk_keys (r : Role) (output : string) (s : State) :
  chunk_keys_ok s -> chunk_keys_ok (snd (process_output r output s)).
Proof.
  intros H. destruct r; cbn [process_output snd].
  - unfold Cube_process_output.
    destruct (negb _); cbn [snd];
      (apply (chunk_keys_frame s); [| | | exact H]); folds; reflexivity.
  - unfold Wave_process_output.
    apply (chunk_keys_frame s); [| | | exact H]; folds; reflexivity.
  - now apply Core_keeps_chunk_keys.
  - now apply Work_keeps_chunk_keys.
  - unfold Loop_process_output.
    destruct (_ || _);
      (apply (chunk_keys_frame s); [| | | exact H]); folds; reflexivity.
  - unfold Code_process_output.
    destruct (PyStr.contains _ _); [|exact H].
    destruct (fenced_code output); [|exact H].
    apply (chunk_keys_frame s); [| | | exact H]; folds; reflexivity.
  - unfold Line_process_output.
    apply (chunk_keys_frame s); [| | | exact H]; folds; reflexivity.
  - unfold Coin_process_output.
    apply (chunk_keys_frame s); [| | | exact H]; folds; reflexivity.
Qed.

Lemma reachable_chunk_keys (s : State) : reachable s -> chunk_keys_ok s.
Proof.
  induction 1 as [|r output s _ IH|s _ IH].
  - split; [intros k [] | discriminate].
  - now apply fold_keeps_chunk_keys.
  - apply (chunk_keys_frame s); [| | | exact IH]; folds; reflexivity.
Qed.

(** C6. In every state reachable from the initial one by the agents'
    folds, every key of [validations] is a key of [code_chunks]. *)
Theorem C6_validation_keys (s : State) (k : string) :
  reachable s ->
  In k (keys (validations_of s)) -> In k (keys (code_chunks_of s)).
Proof. intros R. apply (reachable_chunk_keys s R). Qed.

Lemma C6_validation_keys_witness :
  keys (validations_of checked_state) = ["chunk_1"]
  /\ In "chunk_1" (keys (code_chunks_of checked_state)).
Proof.
  split; [reflexivity|].
  apply (C6_validation_keys checked_state "chunk_1").
  - unfold checked_state. do 2 apply reachable_fold. apply reachable_initial.
  - simpl. now left.
Defined.

(* ------------------------------------------------------------------ *)
(** ** 'code': what goes into the assembler's prompt *)

Lemma read_json_char (c : ascii) (tail : string) :
  read_json_string (json_char c ++ tail) = consed c (read_json_string tail).
Proof. destruct c as [[] [] [] [] [] [] [] []]; reflexivity. Qed.

Lemma concat_map_cons (f : ascii -> string) (c : ascii) (l : list ascii) :
  String.concat EmptyString (map f (c :: l)) = f c ++ String.concat EmptyString (map f l).
Proof.
  cbn [map String.concat]. destruct (map f l) eqn:E; [|reflexivity].
  cbn [String.concat]. now rewrite append_nil_r.
Qed.

(** A string written by [json.dumps] reads back as itself. *)
Lemma read_json_string_dumps (s tail : string) :
  read_json_string
    (String.concat EmptyString (map json_char (list_ascii_of_string s)) ++ DQ ++ tail)
  = Some (s, tail).
Proof.
  induction s as [|c s IH].
  - reflexivity.
  - cbn [list_ascii_of_string]. rewrite concat_map_cons, !append_assoc, read_json_char.
    now rewrite IH.
Qed.

Lemma expect_append (p r : string) : expect p (p ++ r) = Some r.
Proof. unfold expect. now rewrite prefix_append, drop_append. Qed.

Lemma expect_append2 (a b r : string) : expect (a ++ b) (a ++ b ++ r) = Some r.
Proof. rewrite <- append_assoc. apply expect_append. Qed.

Lemma read_entries_step (fuel : nat) (k v tail : string) :
  read_entries (S fuel) (json_entry (k, v) ++ tail)
  = match expect ("," ++ LF) tail with
    | Some s5 =>
        match read_entries fuel s5 with
        | Some (d, rest) => Some ((k, v) :: d, rest)
        | None => None
        end
    | None =>
        match expect (LF ++ "}") tail with
        | Some rest => Some ([(k, v)], rest)
        | None => None
        end
    end.
Proof.
  cbn [read_entries]. unfold json_entry, json_string. cbn [fst snd].
  rewrite !append_assoc, expect_append2, read_json_string_dumps.
  now rewrite expect_append2, read_json_string_dumps.
Qed.

Lemma concat_cons2 (sep x y : string) (l : list string) :
  String.concat sep (x :: y :: l) = x ++ sep ++ String.concat sep (y :: l).
Proof. reflexivity. Qed.

Lemma read_entries_dumps (fuel : nat) (kv : string * string) (d : dict string)
  (tail : string) :
  (List.length d < fuel)%nat ->
  read_entries fuel
    (String.concat ("," ++ LF) (map json_entry (kv :: d)) ++ LF ++ "}" ++ tail)
  = Some (kv :: d, tail).
Proof.
  revert kv fuel. induction d as [|kv' d IH]; intros [k v] fuel L;
    (destruct fuel as [|fuel]; [simpl in L; lia|]).
  - cbn [map String.concat]. rewrite read_entries_step.
    change (expect ("," ++ LF) (LF ++ "}" ++ tail)) with (@None string).
    now rewrite expect_append2.
  - change (map json_entry ((k, v) :: kv' :: d))
      with (json_entry (k, v) :: json_entry kv' :: map json_entry d).
    rewrite concat_cons2.
    change (json_entry kv' :: map json_entry d) with (map json_entry (kv' :: d)).
    rewrite !append_assoc, read_entries_step, expect_append2.
    rewrite IH by (simpl in L; lia). reflexivity.
Qed.

Lemma length_concat_entries (d : dict string) :
  (List.length d <= String.length (String.concat ("," ++ LF) (map json_entry d)))%nat.
Proof.
  induction d as [|kv d IH]; [simpl; lia|].
  cbn [map String.concat]. destruct (map json_entry d) eqn:E.
  - destruct d; [|discriminate]. unfold json_entry. rewrite !length_append. simpl. lia.
  - rewrite !length_append. unfold json_entry at 1. rewrite !length_append.
    cbn [List.length] in *. simpl String.length at 1. lia.
Qed.

(** A mapping written by [json.dumps(d, indent=2)] reads back as itself,
    whatever text follows it. *)
Lemma json_loads_dumps (d : dict string) (tail : string) :
  json_loads_chunks (json_dumps_chunks d ++ tail) = Some (d, tail).
Proof.
  destruct d as [|kv d].
  - unfold json_loads_chunks. change (json_dumps_chunks []) with "{}".
    now rewrite expect_append.
  - unfold json_dumps_chunks, json_object, json_loads_chunks.
    cbn [Nat.mul Nat.add spaces].
    change (fun kv0 : string * string => _) with json_entry.
    rewrite !append_assoc.
    change (expect "{}" _) with (@None string).
    rewrite expect_append2.
    change (EmptyString ++ "}") with "}".
    apply read_entries_dumps.
    pose proof (length_concat_entries (kv :: d)) as B.
    rewrite !length_append. cbn [List.length] in *. lia.
Qed.

(** C7. The meta-prompt of 'code' carries, after the line "Validated
    Chunks:", the JSON text of exactly the chunks whose verdict is
    "VALID": the text reads back as the mapping of those chunks, and an
    entry of [code_chunks] is among them if and only if [validations]
    holds "VALID" under its key.  Chunks with another verdict, or none, do
    not reach the prompt, which is the same for any two states that agree
    on the valid chunks and on the success criteria. *)
Theorem C7_assembler_gate (base_prompt : string) (state : State) :
  (exists text tail,
     Code_create_meta_prompt base_prompt state
     = "You are 'code', the composer. Your task is to assemble the validated code chunks into a single, coherent, and executable Python script."
       ++ LF ++ "Validated Chunks:" ++ LF ++ text
     /\ json_loads_chunks text = Some (validated_chunks state, tail)
     /\ PyStr.startswith
          (LF ++ "Success Criteria: "
              ++ get_or (get_str state "success_criteria") "None" ++ LF)
          tail = true)
  /\ (forall k v,
        In (k, v) (validated_chunks state)
        <-> In (k, v) (code_chunks_of state)
            /\ get (validations_of state) k = Some "VALID")
  /\ (forall state2,
        validated_chunks state2 = validated_chunks state ->
        get_str state2 "success_criteria" = get_str state "success_criteria" ->
        Code_create_meta_prompt base_prompt state2
        = Code_create_meta_prompt base_prompt state).
Proof.
  split; [|split].
  - unfold Code_create_meta_prompt. cbn [String.concat].
    generalize (json_dumps_chunks (validated_chunks state)) (json_loads_dumps (validated_chunks state)).
    generalize (get_or (get_str state "success_criteria") "None") as criteria.
    intros criteria chunks L. eexists (chunks ++ _), _.
    split; [|split; [apply L|]].
    + rewrite !append_assoc. cbn [append]. reflexivity.
    + apply startswith_spec. eexists.
      rewrite !append_assoc. cbn [append LF]. reflexivity.
  - intros k v. unfold validated_chunks. rewrite filter_In. cbn [fst].
    fold (validations_of state). fold (code_chunks_of state).
    destruct (get (validations_of state) k) as [x|]; [|intuition discriminate].
    split; intros [H1 H2]; split; auto.
    + apply String.eqb_eq in H2. now subst.
    + injection H2 as ->. apply String.eqb_refl.
  - intros state2 E1 E2. unfold Code_create_meta_prompt. now rewrite E1, E2.
Qed.

Lemma C7_assembler_gate_witness :
  validated_chunks mixed_state = [("chunk_2", "print(1)")]
  /\ Code_create_meta_prompt "p" [("code_chunks", PDict [("chunk_2", "print(1)")]);
                                  ("validations", PDict [("chunk_2", "VALID")])]
     = Code_create_meta_prompt "p" mixed_state.
Proof.
  split; [reflexivity|].
  apply (proj2 (proj2 (C7_assembler_gate "p" mixed_state))); reflexivity.
Defined.

(* ------------------------------------------------------------------ *)
(** ** 'core' and 'code': the fenced text *)

Lemma append_eq_length (a x b y : string) :
  a ++ x = b ++ y -> String.length a = String.length b -> a = b /\ x = y.
Proof.
  revert b. induction a as [|c a IH]; intros [|d b]; simpl; try discriminate.
  - auto.
  - intros [= -> E] [= L]. destruct (IH b E L) as [-> ->]. auto.
Qed.

(** [partition] returns the first occurrence, and nothing else does. *)
Lemma partition_spec (sep s b a : string) :
  PyStr.partition sep s = Some (b, a)
  <-> s = b ++ sep ++ a
      /\ forall b' a', s = b' ++ sep ++ a' -> String.length b <= String.length b'.
Proof.
  split.
  - intros P. split; [now apply partition_sound | now apply (partition_first sep s b a)].
  - intros [E F]. destruct (PyStr.partition sep s) as [[b0 a0]|] eqn:P.
    + pose proof (partition_sound _ _ _ _ P) as E0.
      pose proof (partition_first _ _ _ _ P b a E) as L0.
      pose proof (F b0 a0 E0) as L.
      rewrite E in E0. destruct (append_eq_length _ _ _ _ E0) as [-> E1]; [lia|].
      apply append_inv_head in E1. now subst.
    + exfalso. now apply (partition_None sep s P b a).
Qed.

Lemma before_nil (sep : string) : before sep EmptyString = EmptyString.
Proof.
  unfold before. rewrite PyStr.partition_nil.
  now destruct (prefix sep EmptyString).
Qed.

Lemma before_cons (sep : string) (c : ascii) (s : string) :
  before sep (String c s)
  = if prefix sep (String c s) then EmptyString else String c (before sep s).
Proof.
  unfold before. rewrite PyStr.partition_cons.
  destruct (prefix sep (String c s)); [reflexivity|].
  now destruct (PyStr.partition sep s) as [[b a]|].
Qed.

Lemma before_is_prefix (sep s : string) : exists t, s = before sep s ++ t.
Proof.
  unfold before. destruct (PyStr.partition sep s) as [[b a]|] eqn:P.
  - exists (sep ++ a). now apply partition_sound.
  - exists EmptyString. now rewrite append_nil_r.
Qed.

Lemma prefix_MARK_FENCE (s : string) :
  prefix MARK s = true -> prefix FENCE s = true.
Proof.
  intros H. apply startswith_spec in H. destruct H as [r ->].
  apply (prefix_append FENCE ("python" ++ r)).
Qed.

Lemma prefix_false_shorter (p a t : string) :
  prefix p (a ++ t) = false -> prefix p a = false.
Proof.
  intros H. destruct (prefix p a) eqn:E; [|reflexivity].
  now rewrite (prefix_extend p a t E) in H.
Qed.

Lemma prefix_cons_same (c : ascii) (p s : string) :
  prefix (String c p) (String c s) = prefix p s.
Proof. simpl. destruct (ascii_dec c c); congruence. Qed.

Lemma prefix_nil (s : string) : prefix EmptyString s = true.
Proof. now destruct s. Qed.

Lemma fence_then_marker (x : string) :
  PyStr.contains ("`" ++ MARK) (FENCE ++ x) = false ->
  prefix MARK (FENCE ++ x) = false ->
  before MARK (FENCE ++ x) = FENCE ++ before MARK x.
Proof.
  intros H P.
  change (FENCE ++ x) with (String "`" (String "`" (String "`" x))) in *.
  change ("`" ++ MARK) with (String "`" MARK) in H.
  rewrite !contains_cons, !prefix_cons_same in H.
  apply orb_false_iff in H. destruct H as [H0 H].
  apply orb_false_iff in H. destruct H as [H1 _].
  now rewrite before_cons, P, before_cons, H0, before_cons, H1.
Qed.

(** Cutting at the next opening marker first does not move the cut at the
    next fence, unless that marker starts inside the fence. *)
Lemma before_fence_before_marker (r : string) :
  PyStr.contains ("`" ++ MARK) r = false ->
  before FENCE (before MARK r) = before FENCE r.
Proof.
  induction r as [|c r IH]; intros H.
  - now rewrite !before_nil.
  - assert (H' : PyStr.contains ("`" ++ MARK) r = false).
    { rewrite contains_cons in H. now apply orb_false_iff in H. }
    destruct (prefix MARK (String c r)) eqn:PM.
    + rewrite (before_cons MARK), PM, before_nil, before_cons.
      now rewrite (prefix_MARK_FENCE _ PM).
    + destruct (prefix FENCE (String c r)) eqn:PF.
      * pose proof PF as PF'.
        apply startswith_spec in PF'. destruct PF' as [x E]. rewrite E in *.
        rewrite (fence_then_marker x H PM).
        change (FENCE ++ before MARK x)
          with (String "`" (String "`" (String "`" (before MARK x)))).
        change (FENCE ++ x) with (String "`" (String "`" (String "`" x))).
        rewrite !(before_cons FENCE). unfold FENCE.
        now rewrite !prefix_cons_same, !prefix_nil.
      * rewrite (before_cons MARK), PM, !(before_cons FENCE), PF.
        destruct (before_is_prefix MARK r) as [t Et].
        assert (PF2 : prefix FENCE (String c (before MARK r)) = false).
        { apply (prefix_false_shorter _ _ t). simpl. now rewrite <- Et. }
        now rewrite PF2, (IH H').
Qed.

Lemma split_first (c : ascii) (sep s : string) :
  nth_error (PyStr.split (String c sep) s) 0 = Some (before (String c sep) s).
Proof.
  rewrite split_unfold. unfold before.
  now destruct (PyStr.partition (String c sep) s) as [[b a]|].
Qed.

Lemma split_second (c : ascii) (sep s : string) :
  nth_error (PyStr.split (String c sep) s) 1
  = match PyStr.partition (String c sep) s with
    | Some (_, a) => Some (before (String c sep) a)
    | None => None
    end.
Proof.
  rewrite split_unfold.
  destruct (PyStr.partition (String c sep) s) as [[b a]|]; [|reflexivity].
  apply (split_first c sep a).
Qed.

(** What the code takes from an output. *)
Lemma fenced_code_eq (output : string) :
  fenced_code output
  = match PyStr.partition MARK output with
    | Some (_, rest) => Some (PyStr.strip (before FENCE (before MARK rest)))
    | None => None
    end.
Proof.
  unfold fenced_code.
  rewrite (split_second "`" "``python" output). fold MARK.
  destruct (PyStr.partition MARK output) as [[b rest]|]; [|reflexivity].
  now rewrite (split_first "`" "``" (before MARK rest)).
Qed.

(** The guarded index never fails. *)
Lemma fenced_code_total (output : string) :
  PyStr.contains "```python" output = true -> fenced_code output <> None.
Proof.
  rewrite fenced_code_eq. intros H. apply contains_partition in H. fold MARK in H.
  now destruct (PyStr.partition MARK output) as [[b rest]|].
Qed.

(** C10, as amended.  From an output with the opening marker, 'core' and
    'code' take the text between the first marker and the next fence after
    it, or all that follows the marker when no fence does, stripped of
    surrounding white space; 'core' stores it under the next chunk id and
    'code' as the final script.  This is for outputs in which no later
    opening marker comes directly after a backtick. *)
Theorem C10_fenced_text (output lead rest : string) (state : State) :
  PyStr.partition MARK output = Some (lead, rest) ->
  PyStr.contains ("`" ++ MARK) rest = false ->
  let text := PyStr.strip (before FENCE rest) in
  let chunk_id := "chunk_" ++ str_of_nat (len (code_chunks_of state) + 1) in
  text_in_fence output = Some (before FENCE rest)
  /\ fenced_code output = Some text
  /\ code_chunks_of (Core_process_output output state)
     = set (code_chunks_of state) chunk_id text
  /\ get (Core_process_output output state) "last_chunk_id" = Some (PStr chunk_id)
  /\ get (Code_process_output output state) "final_script" = Some (PStr text)
  /\ (PyStr.contains FENCE rest = false -> text = PyStr.strip rest).
Proof.
  intros P H text chunk_id.
  assert (F : fenced_code output = Some text).
  { rewrite fenced_code_eq, P. unfold text.
    now rewrite before_fence_before_marker. }
  assert (C : PyStr.contains "```python" output = true).
  { apply contains_partition. fold MARK. now rewrite P. }
  split; [|split; [|split; [|split; [|split]]]].
  - unfold text_in_fence. now rewrite P.
  - exact F.
  - unfold Core_process_output. rewrite C, F. folds. cbn [get_or].
    now rewrite get_dict_setdefault.
  - unfold Core_process_output. rewrite C, F. folds. reflexivity.
  - unfold Code_process_output. rewrite C, F. now rewrite get_set_same.
  - intros N. unfold text, before.
    destruct (PyStr.partition FENCE rest) as [[b a]|] eqn:Q; [|reflexivity].
    assert (T : PyStr.contains FENCE rest = true).
    { apply contains_partition. now rewrite Q. }
    congruence.
Qed.

Lemma C10_fenced_text_witness :
  get (code_chunks_of (Core_process_output fenced_output initial_state)) "chunk_1"
  = Some "print(1)"
  /\ get (Code_process_output unterminated_output initial_state) "final_script"
     = Some (PStr "print(2)").
Proof.
  split.
  - destruct (C10_fenced_text fenced_output ("Here it is:" ++ LF)
                (LF ++ "print(1)" ++ LF ++ "```" ++ LF ++ "Done.") initial_state
                eq_refl eq_refl) as (_ & _ & E & _).
    rewrite E. reflexivity.
  - destruct (C10_fenced_text unterminated_output EmptyString
                (LF ++ "print(2)" ++ LF) initial_state eq_refl eq_refl)
      as (_ & _ & _ & _ & E & _).
    exact E.
Defined.

(** C10 as stated fails where a second opening marker starts inside the
    fence that closes the first: the text between the first marker and
    the next fence is empty, and the code stores a backtick. *)
Lemma C10_counterexample :
  text_in_fence "```python````python" = Some EmptyString
  /\ fenced_code "```python````python" = Some "`"
  /\ get (code_chunks_of (Core_process_output "```python````python" initial_state))
         "chunk_1" = Some "`"
  /\ get (Code_process_output "```python````python" initial_state) "final_script"
     = Some (PStr "`").
Proof. repeat split. Qed.

(* ------------------------------------------------------------------ *)
(** ** The engine: fingerprints *)

Lemma reason_and_act_hash (r : Role) (p h : string) (reply : Reply) (st : State) :
  reasoning_hash (snd (reason_and_act r p h reply st))
  = rehash_fragment h (name_of r) (create_meta_prompt r p st).
Proof.
  unfold reason_and_act, think, act.
  now destruct (process_output r (response_text r reply) st).
Qed.

Lemma reason_and_act_state (r : Role) (p h : string) (reply : Reply) (st : State) :
  snd (fst (reason_and_act r p h reply st))
  = snd (process_output r (response_text r reply) st).
Proof.
  unfold reason_and_act, think, act.
  now destruct (process_output r (response_text r reply) st).
Qed.

Lemma gather_hashes (tasks : list Role) (p h : string) (reply : Role -> Reply)
  (finish : Role -> nat) (st : State) :
  map reasoning_hash (snd (gather tasks p h reply finish st))
  = map (fun r => rehash_fragment h (name_of r) (create_meta_prompt r p st)) tasks.
Proof. unfold gather, think. cbn [snd]. now rewrite !map_map. Qed.

Lemma last_default {A : Type} (l : list A) (a b : A) :
  l <> [] -> last l a = last l b.
Proof.
  induction l as [|x l IH]; [congruence|]. intros _.
  destruct l as [|y l]; [reflexivity|]. cbn [last] in *. apply IH. discriminate.
Qed.

Lemma last_cons {A : Type} (x : A) (l : list A) (a : A) :
  last (x :: l) a = last l x.
Proof.
  destruct l as [|y l]; [reflexivity|].
  change (last (x :: y :: l) a) with (last (y :: l) a).
  apply last_default. discriminate.
Qed.

Lemma last_app_default {A : Type} (l1 l2 : list A) (a : A) :
  last (l1 ++ l2) a = last l2 (last l1 a).
Proof.
  revert a. induction l1 as [|x l1 IH]; intros a; [reflexivity|].
  cbn [app]. now rewrite !last_cons, IH.
Qed.

Lemma fold_left_last {A B : Type} (f : B -> A) (l : list B) (a : A) :
  fold_left (fun _ x => f x) l a = last (map f l) a.
Proof.
  revert a. induction l as [|x l IH]; intros a; [reflexivity|].
  cbn [fold_left map]. now rewrite IH, last_cons.
Qed.

Lemma linear_linearb (previous : string) (links : list (Role * string * string)) :
  linear previous links <-> linearb previous links = true.
Proof.
  revert previous. induction links as [|[[r i] f] links IH]; intros previous.
  - cbn. tauto.
  - cbn [linear linearb]. rewrite andb_true_iff, String.eqb_eq, IH. tauto.
Qed.

Lemma tasks_of_COMPLETE (st : State) : tasks_to_run "COMPLETE" st = [].
Proof. reflexivity. Qed.

(** One pass through the loop body. *)
Lemma cycle_body_spec (w : World) (p : string) (n : nat) (st : State) (h : string) :
  let s := cycle_body w p n st h in
  let c := step_cycle s in
  number c = n
  /\ origin c = h
  /\ observed c = set st "current_entropy_score" (PFloat (calculate_entropy st))
  /\ decided c
     = snd (process_output Cube (response_text Cube (reply_of w n Cube)) (observed c))
  /\ reasoning_hash (cube_result c)
     = rehash_fragment h (name_of Cube) (create_meta_prompt Cube p (observed c))
  /\ action c = get_or (get_str (decided c) "current_action") "PLAN"
  /\ map reasoning_hash (results c)
     = map (fun r => rehash_fragment (reasoning_hash (cube_result c)) (name_of r)
                       (create_meta_prompt r p (decided c)))
           (tasks_to_run (action c) (decided c))
  /\ step_hash s = last (fingerprints_of c) h
  /\ (step_break s = true -> action c = "COMPLETE" /\ results c = []
                             /\ step_state s = decided c)
  /\ (step_break s = false -> action c <> "COMPLETE").
Proof.
  cbv zeta. unfold cycle_body.
  set (st1 := set st "current_entropy_score" (PFloat (calculate_entropy st))).
  pose proof (reason_and_act_hash Cube p h (reply_of w n Cube) st1) as Hh.
  pose proof (reason_and_act_state Cube p h (reply_of w n Cube) st1) as Hs.
  destruct (reason_and_act Cube p h (reply_of w n Cube) st1) as [[printed st2] res].
  cbn [fst snd] in Hh, Hs.
  set (act := get_or (get_str st2 "current_action") "PLAN").
  destruct (String.eqb act "COMPLETE") eqn:E.
  - apply String.eqb_eq in E. unfold fingerprints_of.
    cbn [step_cycle step_hash step_break step_state
      number origin observed decided cube_result action results map last].
    rewrite E, tasks_of_COMPLETE. repeat split; auto; try discriminate.
  - apply String.eqb_neq in E.
    destruct (tasks_to_run act st2) as [|t ts] eqn:T.
    + unfold fingerprints_of.
      cbn [step_cycle step_hash step_break step_state
        number origin observed decided cube_result action results map last].
      rewrite T. repeat split; auto; try discriminate.
    + pose proof (gather_hashes (t :: ts) p (reasoning_hash res) (reply_of w n)
                    (finish_of w n) st2) as Hg.
      destruct (gather (t :: ts) p (reasoning_hash res) (reply_of w n)
                  (finish_of w n) st2) as [[printed1 st3] rs].
      cbn [snd] in Hg.
      cbn [step_cycle step_hash step_break step_state
        number origin observed decided cube_result action results fingerprints_of].
      rewrite T. repeat split; auto; try discriminate.
      unfold fingerprints_of. cbn [cube_result results].
      now rewrite fold_left_last, last_cons.
Qed.

Lemma cycles_fingerprints (w : World) (p : string) (todo : list nat)
  (st : State) (h : string) :
  let out := cycles w p todo st h in
  fingerprints_ok p h (out_log out)
  /\ out_hash out = last (flat_map fingerprints_of (out_log out)) h.
Proof.
  revert st h. induction todo as [|n todo IH]; intros st h; [now split|].
  cbn [cycles]. cbv zeta.
  destruct (cycle_body_spec w p n st h) as (_ & Ho & _ & _ & Hc & _ & Hr & Hl & _).
  set (s := cycle_body w p n st h) in *.
  destruct (step_break s).
  - cbn [out_log out_hash fingerprints_ok flat_map]. rewrite app_nil_r.
    repeat split; auto.
  - destruct (IH (step_state s) (step_hash s)) as [IH1 IH2].
    cbn [out_log out_hash fingerprints_ok flat_map].
    rewrite <- Hl. repeat split; auto.
    now rewrite IH2, Hl, last_app_default.
Qed.

(** C1, as amended.  Every fingerprint is the digest of an earlier chain
    element, the name of the agent and the meta-prompt the agent
    rendered: for 'cube', the element is the last one of the chain; for
    each agent gathered in a cycle, it is the fingerprint of 'cube' in
    that cycle, whatever the agent's place among those gathered.  The
    chain starts with the digest of the request, and its last element is
    the hash the run ends with. *)
Theorem C1_fingerprints (w : World) (initial_prompt : string) :
  let run := run_orchestration w initial_prompt in
  genesis_hash run = create_genesis_hash initial_prompt
  /\ fingerprints_ok initial_prompt (genesis_hash run) (log run)
  /\ final_hash run = last (chain run) (genesis_hash run).
Proof.
  cbv zeta. unfold run_orchestration, chain.
  cbn [genesis_hash log final_hash].
  destruct (cycles_fingerprints w initial_prompt (seq 1 max_cycles) initial_state
              (create_genesis_hash initial_prompt)) as [H1 H2].
  split; [reflexivity | split; [exact H1|]].
  now rewrite last_cons.
Qed.

(** C1 as stated fails in a cycle that gathers several agents: the chain
    element before the fingerprint of 'loop' is the fingerprint of 'wave',
    and the fingerprint of 'loop' is derived from that of 'cube'. *)
Lemma C1_counterexample :
  let p := "write a hello world script" in
  let run := run_orchestration world_plan_once p in
  chain run
  = [ "2c63fc3908e4032f8052396eddc01c0a9b9d1924ad84c8a45615133e462e3f2a";
      "974ea87ae2ee43e276c73ca43aee070dd278b922ca4f74672d422aa38d274306";
      "cc1aa5a92754db606d7738a5d7c1aeb1e3d5631e3a9832b97a4a9073f1346c4e";
      "660a4ce2b720b529040652eac0cd369f27acc796b65dd5582d1a13f46172460e";
      "81b855c3a3092fc2427813f4d6857cdca37435b73cd00afc3a5a25b7094ba327";
      "87ef5bb8076bba440ac3b331c081e69771b48aaae2cb8eaeeef8bc67e61e3c0c";
      "e1588238eb23f1c268179a02cd37c5d6985a96d1fa057bd0d3f68da1f4d89386" ]
  /\ match log run with
     | c :: _ =>
         map agent (cube_result c :: results c)
         = [ "CubeOrchestrator"; "WavePromiser"; "LoopAdvisor";
             "LineResourceManager"; "CoinRequestSecurer" ]
         /\ rehash_fragment
              "cc1aa5a92754db606d7738a5d7c1aeb1e3d5631e3a9832b97a4a9073f1346c4e"
              "LoopAdvisor" (create_meta_prompt Loop p (decided c))
            = "96f55e4258a92df03ce8f6bb5e31f10600418895f1740ae622c3c353d8f9aaef"
         /\ rehash_fragment
              "974ea87ae2ee43e276c73ca43aee070dd278b922ca4f74672d422aa38d274306"
              "LoopAdvisor" (create_meta_prompt Loop p (decided c))
            = "660a4ce2b720b529040652eac0cd369f27acc796b65dd5582d1a13f46172460e"
     | [] => False
     end
  /\ ~ linear (genesis_hash run) (flat_map (links_of p) (log run)).
Proof.
  cbv zeta. split; [vm_compute; reflexivity | split].
  - vm_compute. repeat split.
  - rewrite linear_linearb. apply not_true_iff_false. vm_compute. reflexivity.
Qed.

(* ------------------------------------------------------------------ *)
(** ** The engine: termination *)



(* ------------------------------------------------------------------ *)
(** ** The states of a run *)

Lemma gather_state (tasks : list Role) (p h : string) (reply : Role -> Reply)
  (finish : Role -> nat) (st : State) :
  reachable st -> reachable (snd (fst (gather tasks p h reply finish st))).
Proof.
  unfold gather. cbn [fst snd].
  generalize (completion_order finish tasks) as order.
  generalize (@nil string) as printed.
  intros printed order. revert printed st.
  induction order as [|r order IH]; intros printed st R; [exact R|].
  cbn [fold_left fst snd].
  pose proof (reachable_fold r (response_text r (reply r)) st R) as R'.
  destruct (process_output r (response_text r (reply r)) st) as [pr st'].
  now apply IH.
Qed.

Lemma cycle_body_state (w : World) (p : string) (n : nat) (st : State) (h : string) :
  reachable st ->
  let s := cycle_body w p n st h in
  reachable (observed (step_cycle s)) /\ reachable (decided (step_cycle s))
  /\ reachable (step_state s).
Proof.
  intros R. cbv zeta. unfold cycle_body.
  set (st1 := set st "current_entropy_score" (PFloat (calculate_entropy st))).
  assert (R1 : reachable st1) by now apply reachable_score.
  pose proof (reason_and_act_state Cube p h (reply_of w n Cube) st1) as Hs.
  destruct (reason_and_act Cube p h (reply_of w n Cube) st1) as [[printed st2] res].
  cbn [fst snd] in Hs.
  assert (R2 : reachable st2) by (rewrite Hs; now apply reachable_fold).
  destruct (String.eqb _ "COMPLETE"); [now repeat split|].
  destruct (tasks_to_run _ st2) as [|t ts]; [now repeat split|].
  pose proof (gather_state (t :: ts) p (reasoning_hash res) (reply_of w n)
                (finish_of w n) st2 R2) as R3.
  destruct (gather (t :: ts) p (reasoning_hash res) (reply_of w n)
              (finish_of w n) st2) as [[printed1 st3] rs].
  now repeat split.
Qed.

Lemma cycles_state (w : World) (p : string) (todo : list nat) (st : State)
  (h : string) :
  reachable st ->
  let out := cycles w p todo st h in
  reachable (out_state out)
  /\ Forall (fun c => reachable (observed c) /\ reachable (decided c)) (out_log out).
Proof.
  revert st h. induction todo as [|n todo IH]; intros st h R; [now split|].
  cbn [cycles]. cbv zeta.
  destruct (cycle_body_state w p n st h R) as (R1 & R2 & R3).
  set (s := cycle_body w p n st h) in *.
  destruct (step_break s); cbn [out_state out_log].
  - split; [exact R3 | repeat constructor; assumption].
  - destruct (IH (step_state s) (step_hash s) R3) as [I1 I2].
    split; [exact I1 | constructor; [split; assumption | exact I2]].
Qed.

Lemma well_typed_set (s : State) (k : string) (v : pyval) :
  kind_ok k v = true -> well_typed s -> well_typed (set s k v).
Proof.
  intros K W k' v'. rewrite get_set. destruct (String.eqb k k') eqn:E.
  - apply String.eqb_eq in E. subst k'. now intros [= <-].
  - apply W.
Qed.

Lemma well_typed_setdefault (s : State) (k : string) (v : pyval) :
  kind_ok k v = true -> well_typed s -> well_typed (setdefault s k v).
Proof.
  intros K W. unfold setdefault. destruct (mem k s); [exact W|].
  now apply well_typed_set.
Qed.

Lemma fold_keeps_well_typed (r : Role) (output : string) (s : State) :
  well_typed s -> well_typed (snd (process_output r output s)).
Proof.
  intros W. destruct r; cbn [process_output snd].
  - unfold Cube_process_output. destruct (in_list _ ACTIONS) eqn:M; cbn [negb snd];
      now apply well_typed_set.
  - now apply well_typed_set.
  - unfold Core_process_output.
    destruct (PyStr.contains _ _); [|exact W].
    destruct (fenced_code output); [|exact W].
    apply well_typed_set; [reflexivity|]. apply well_typed_set; [reflexivity|].
    now apply well_typed_setdefault.
  - unfold Work_process_output.
    assert (W1 : well_typed (setdefault s "validations" (PDict [])))
      by now apply well_typed_setdefault.
    destruct (get_str _ "last_chunk_id") as [id|]; [|exact W1].
    destruct (truthy id); [|exact W1].
    destruct (PyStr.startswith "VALID" output).
    + now apply well_typed_set.
    + apply well_typed_set; [reflexivity|]. now apply well_typed_set.
  - unfold Loop_process_output. apply well_typed_set; [reflexivity|].
    destruct (_ || _); [now apply well_typed_set | exact W].
  - unfold Code_process_output.
    destruct (PyStr.contains _ _); [|exact W].
    destruct (fenced_code output); [|exact W]. now apply well_typed_set.
  - now apply well_typed_set.
  - now apply well_typed_set.
Qed.

(** Every reachable state, and so every state of a run, is well typed. *)
Lemma reachable_well_typed (s : State) : reachable s -> well_typed s.
Proof.
  induction 1 as [|r output s _ IH|s _ IH].
  - intros k v. unfold initial_state. cbn [get].
    repeat match goal with
           | |- context [String.eqb ?a k] =>
               destruct (String.eqb a k) eqn:E;
               [apply String.eqb_eq in E; subst k; now intros [= <-] | clear E]
           end.
    discriminate.
  - now apply fold_keeps_well_typed.
  - now apply well_typed_set.
Qed.

(** Every state of a run is reachable: verdicts are for stored chunks
    after any number of cycles. *)
Corollary run_validation_keys (w : World) (p : string) (k : string) :
  In k (keys (validations_of (final_state (run_orchestration w p)))) ->
  In k (keys (code_chunks_of (final_state (run_orchestration w p)))).
Proof.
  apply reachable_chunk_keys. unfold run_orchestration. cbn [final_state].
  apply cycles_state. apply reachable_initial.
Qed.

(* ================================================================== *)
(** * Further properties *)

Lemma str_of_nat_inj (n m : nat) : str_of_nat n = str_of_nat m -> n = m.
Proof.
  unfold str_of_nat. intros E. apply Unsigned.to_uint_inj.
  apply (f_equal NilEmpty.uint_of_string) in E.
  rewrite !NilEmpty.usu in E. congruence.
Qed.

Lemma chunk_name_inj (n m : nat) : chunk_name n = chunk_name m -> n = m.
Proof.
  unfold chunk_name. intros E. apply append_inv_head in E. now apply str_of_nat_inj.
Qed.

Lemma chunk_names_S (n : nat) : chunk_names (S n) = (chunk_names n ++ [chunk_name (n + 1)])%list.
Proof.
  unfold chunk_names. rewrite seq_S, map_app. cbn [map]. now rewrite Nat.add_comm.
Qed.

Lemma chunk_name_fresh (n : nat) : ~ In (chunk_name (n + 1)) (chunk_names n).
Proof.
  unfold chunk_names. rewrite in_map_iff. intros (m & E & H).
  apply chunk_name_inj in E. apply in_seq in H. lia.
Qed.

Lemma keys_app {V : Type} (d1 d2 : dict V) : keys (d1 ++ d2)%list = (keys d1 ++ keys d2)%list.
Proof. apply map_app. Qed.

Lemma len_keys {V : Type} (d : dict V) : List.length (keys d) = len d.
Proof. apply length_map. Qed.

(** What a successful fold of 'core' does to a state whose chunks are in
    order. *)
Lemma Core_appends (output text : string) (s : State) :
  chunks_in_order s ->
  PyStr.contains "```python" output = true ->
  fenced_code output = Some text ->
  let id := chunk_name (len (code_chunks_of s) + 1) in
  code_chunks_of (Core_process_output output s)
  = (code_chunks_of s ++ [(id, text)])%list
  /\ get (Core_process_output output s) "last_chunk_id" = Some (PStr id).
Proof.
  intros [K _] C F id. unfold Core_process_output. rewrite C, F.
  fold (code_chunks_of s). fold (chunk_name (len (code_chunks_of s) + 1)). fold id.
  split.
  - folds. cbn [get_or]. rewrite get_dict_setdefault. fold (code_chunks_of s).
    apply set_fresh.
    destruct (get (code_chunks_of s) id) eqn:G; [|reflexivity].
    exfalso. apply (chunk_name_fresh (len (code_chunks_of s))).
    rewrite <- K. apply get_keys. fold id. congruence.
  - folds. reflexivity.
Qed.

Lemma Core_keeps_order (output : string) (s : State) :
  chunks_in_order s -> chunks_in_order (Core_process_output output s).
Proof.
  intros O.
  destruct (PyStr.contains "```python" output) eqn:C.
  2:{ unfold Core_process_output. now rewrite C. }
  destruct (fenced_code output) as [text|] eqn:F.
  2:{ unfold Core_process_output. now rewrite C, F. }
  destruct (Core_appends output text s O C F) as [E L].
  destruct O as [K _]. unfold chunks_in_order. rewrite E, L.
  unfold len. rewrite length_app, keys_app, K. cbn [List.length keys map fst].
  fold (len (code_chunks_of s)).
  replace (len (code_chunks_of s) + 1)%nat with (S (len (code_chunks_of s))) by lia.
  rewrite chunk_names_S.
  replace (len (code_chunks_of s) + 1)%nat with (S (len (code_chunks_of s))) by lia.
  split; reflexivity.
Qed.

(* ------------------------------------------------------------------ *)
(** ** What each fold may write *)

Lemma get_set_other {V : Type} (d : dict V) (k k' : string) (v : V) :
  k <> k' -> get (set d k v) k' = get d k'.
Proof. intros N. rewrite get_set. apply String.eqb_neq in N. now rewrite N. Qed.

Lemma get_setdefault_ne {V : Type} (d : dict V) (k k' : string) (v : V) :
  k <> k' -> get (setdefault d k v) k' = get d k'.
Proof. intros N. apply get_setdefault_other. now apply String.eqb_neq. Qed.

Lemma get_set_item_other (s : State) (k id v k' : string) :
  k <> k' -> get (set_item s k id v) k' = get s k'.
Proof. intros N. unfold set_item. now apply get_set_other. Qed.

Lemma fold_frame (r : Role) (output : string) (s : State) (k : string) :
  ~ In k (writes r) -> get (snd (process_output r output s)) k = get s k.
Proof.
  intros N. destruct r; cbn [process_output snd writes In] in *.
  - unfold Cube_process_output. destruct (negb _); cbn [snd];
      apply get_set_other; intuition.
  - apply get_set_other; intuition.
  - unfold Core_process_output.
    destruct (PyStr.contains _ _); [|reflexivity].
    destruct (fenced_code output); [|reflexivity].
    rewrite get_set_other, get_set_item_other, get_setdefault_ne; intuition.
  - unfold Work_process_output.
    destruct (get_str _ "last_chunk_id") as [id|];
      [|apply get_setdefault_ne; intuition].
    destruct (truthy id); [|apply get_setdefault_ne; intuition].
    destruct (PyStr.startswith "VALID" output).
    + rewrite get_set_item_other, get_setdefault_ne; intuition.
    + rewrite get_set_other, get_set_item_other, get_setdefault_ne; intuition.
  - unfold Loop_process_output. rewrite get_set_other by intuition.
    destruct (_ || _); [apply get_set_other; intuition | reflexivity].
  - unfold Code_process_output.
    destruct (PyStr.contains _ _); [|reflexivity].
    destruct (fenced_code output); [|reflexivity].
    apply get_set_other; intuition.
  - apply get_set_other; intuition.
  - apply get_set_other; intuition.
Qed.

Lemma code_chunks_of_frame (s s' : State) :
  get s' "code_chunks" = get s "code_chunks" -> code_chunks_of s' = code_chunks_of s.
Proof. unfold code_chunks_of, get_dict. now intros ->. Qed.

Lemma validations_of_frame (s s' : State) :
  get s' "validations" = get s "validations" -> validations_of s' = validations_of s.
Proof. unfold validations_of, get_dict. now intros ->. Qed.

Lemma chunks_in_order_frame (s s' : State) :
  get s' "code_chunks" = get s "code_chunks" ->
  get s' "last_chunk_id" = get s "last_chunk_id" ->
  chunks_in_order s -> chunks_in_order s'.
Proof.
  intros E1 E2. unfold chunks_in_order.
  now rewrite (code_chunks_of_frame s s' E1), E2.
Qed.

Lemma fold_keeps_order (r : Role) (output : string) (s : State) :
  chunks_in_order s -> chunks_in_order (snd (process_output r output s)).
Proof.
  intros O.
  destruct r; try (apply (chunks_in_order_frame s); [| | exact O];
                   apply fold_frame; cbn; intuition discriminate).
  now apply Core_keeps_order.
Qed.

Lemma reachable_chunks_in_order (s : State) : reachable s -> chunks_in_order s.
Proof.
  induction 1 as [|r output s _ IH|s _ IH].
  - split; reflexivity.
  - now apply fold_keeps_order.
  - apply (chunks_in_order_frame s); [| | exact IH];
      apply get_set_other; discriminate.
Qed.

(** X1. In every reachable state the chunks are [chunk_1 .. chunk_n], in
    this order, and [last_chunk_id] names the newest, [chunk_n] (it is
    absent while there is no chunk). *)
Theorem X1_chunk_ids (s : State) :
  reachable s ->
  let n := len (code_chunks_of s) in
  keys (code_chunks_of s) = map chunk_name (seq 1 n)
  /\ get s "last_chunk_id"
     = match n with
       | O => None
       | S _ => Some (PStr (chunk_name n))
       end.
Proof. intros R. apply (reachable_chunks_in_order s R). Qed.

Lemma X1_chunk_ids_witness :
  keys (code_chunks_of checked_state) = ["chunk_1"]
  /\ get checked_state "last_chunk_id" = Some (PStr "chunk_1").
Proof.
  apply (X1_chunk_ids checked_state).
  unfold checked_state. do 2 apply reachable_fold. apply reachable_initial.
Defined.

Lemma get_app_present {V : Type} (d1 d2 : dict V) (k : string) :
  In k (keys d1) -> get (d1 ++ d2)%list k = get d1 k.
Proof.
  induction d1 as [|[k0 v0] d1 IH]; cbn [keys map fst In app get]; [tauto|].
  destruct (String.eqb k0 k) eqn:E; [reflexivity|].
  intros [H|H]; [apply String.eqb_neq in E; congruence | now apply IH].
Qed.

(** X2. In a reachable state, a fold of 'core' on an output with the
    marker appends: the chunk goes last, under the next id, the chunks
    already stored keep their place and text, and [last_chunk_id] moves to
    the new chunk. *)
Theorem X2_core_appends (output : string) (s : State) :
  reachable s ->
  PyStr.contains "```python" output = true ->
  exists text,
    fenced_code output = Some text
    /\ code_chunks_of (Core_process_output output s)
       = (code_chunks_of s
          ++ [(chunk_name (len (code_chunks_of s) + 1), text)])%list
    /\ (forall k, In k (keys (code_chunks_of s)) ->
                  get (code_chunks_of (Core_process_output output s)) k
                  = get (code_chunks_of s) k)
    /\ get (Core_process_output output s) "last_chunk_id"
       = Some (PStr (chunk_name (len (code_chunks_of s) + 1))).
Proof.
  intros R C. destruct (fenced_code output) as [text|] eqn:F.
  2:{ exfalso. now apply (fenced_code_total output C). }
  exists text.
  destruct (Core_appends output text s (reachable_chunks_in_order s R) C F) as [E L].
  split; [reflexivity | split; [exact E | split; [|exact L]]].
  intros k H. rewrite E. now apply get_app_present.
Qed.

Lemma X2_core_appends_witness :
  keys (code_chunks_of
          (Core_process_output ("```python" ++ LF ++ "x = 2" ++ LF ++ "```")
             one_chunk_state))
  = ["chunk_1"; "chunk_2"].
Proof.
  destruct (X2_core_appends ("```python" ++ LF ++ "x = 2" ++ LF ++ "```")
              one_chunk_state) as (text & _ & E & _).
  - unfold one_chunk_state.
    apply (reachable_fold Core _ initial_state reachable_initial).
  - reflexivity.
  - rewrite E. reflexivity.
Defined.

Lemma Work_process_output_unset (output : string) (s : State) :
  get s "last_chunk_id" = None ->
  Work_process_output output s = setdefault s "validations" (PDict []).
Proof.
  intros G. unfold Work_process_output. rewrite get_str_setdefault.
  unfold get_str. now rewrite G.
Qed.

(** X3. In a reachable state, the fold of 'work' writes no verdict but
    that of the newest chunk, and no other agent's fold changes
    [validations]: a chunk followed by another before it is checked never
    gets a verdict. *)
Theorem X3_only_newest_checked (r : Role) (output : string) (s : State) (k : string) :
  reachable s ->
  k <> chunk_name (len (code_chunks_of s)) ->
  get (validations_of (snd (process_output r output s))) k
  = get (validations_of s) k.
Proof.
  intros R N.
  destruct (reachable_chunks_in_order s R) as [_ L].
  destruct r;
    try (rewrite (validations_of_frame s); [reflexivity|];
         apply fold_frame; cbn; intuition discriminate).
  cbn [process_output snd].
  destruct (len (code_chunks_of s)) as [|n] eqn:E.
  - rewrite (Work_process_output_unset output s L).
    now rewrite validations_of_setdefault.
  - rewrite (Work_process_output_set output _ s L) by discriminate.
    cbv zeta. destruct (PyStr.startswith "VALID" output); folds; cbn [get_or];
      rewrite get_dict_setdefault; fold (validations_of s);
      apply get_set_other; congruence.
Qed.

Lemma X3_only_newest_checked_witness :
  get (validations_of (snd (process_output Work "VALID" two_chunk_state))) "chunk_1"
  = None.
Proof.
  rewrite (X3_only_newest_checked Work "VALID" two_chunk_state "chunk_1").
  - reflexivity.
  - unfold two_chunk_state, one_chunk_state.
    apply (reachable_fold Core). apply (reachable_fold Core). apply reachable_initial.
  - discriminate.
Defined.

(* ------------------------------------------------------------------ *)
(** ** Fields are never removed *)

Lemma keys_set_app {V : Type} (d : dict V) (k : string) (v : V) :
  keys (set d k v) = (keys d ++ if mem k d then [] else [k])%list.
Proof.
  unfold mem. induction d as [|[k0 v0] d IH]; cbn [set keys map fst get app].
  - reflexivity.
  - destruct (String.eqb k0 k) eqn:E; cbn [map fst].
    + now rewrite app_nil_r.
    + f_equal. exact IH.
Qed.

Lemma keys_setdefault_app {V : Type} (d : dict V) (k : string) (v : V) :
  keys (setdefault d k v) = (keys d ++ if mem k d then [] else [k])%list.
Proof.
  unfold setdefault. destruct (mem k d) eqn:M.
  - now rewrite app_nil_r.
  - now rewrite keys_set_app, M.
Qed.

Lemma grows_refl (allowed : list string) (s : State) : grows_within allowed s s.
Proof. exists []. split; [now rewrite app_nil_r | intros x []]. Qed.

Lemma grows_trans (allowed : list string) (s1 s2 s3 : State) :
  grows_within allowed s1 s2 -> grows_within allowed s2 s3 ->
  grows_within allowed s1 s3.
Proof.
  intros (n1 & E1 & I1) (n2 & E2 & I2). exists (n1 ++ n2)%list. split.
  - now rewrite E2, E1, app_assoc.
  - now apply incl_app.
Qed.

Lemma grows_set (allowed : list string) (s : State) (k : string) (v : pyval) :
  In k allowed -> grows_within allowed s (set s k v).
Proof.
  intros H. exists (if mem k s then [] else [k]). split; [apply keys_set_app|].
  destruct (mem k s); intros x; cbn [In]; intuition congruence.
Qed.

Lemma grows_setdefault (allowed : list string) (s : State) (k : string) (v : pyval) :
  In k allowed -> grows_within allowed s (setdefault s k v).
Proof.
  intros H. exists (if mem k s then [] else [k]). split; [apply keys_setdefault_app|].
  destruct (mem k s); intros x; cbn [In]; intuition congruence.
Qed.

Lemma fold_grows (r : Role) (output : string) (s : State) :
  grows_within (writes r) s (snd (process_output r output s)).
Proof.
  destruct r; cbn [process_output snd writes].
  - unfold Cube_process_output. destruct (negb _); cbn [snd];
      apply grows_set; cbn; auto.
  - apply grows_set; cbn; auto.
  - unfold Core_process_output.
    destruct (PyStr.contains _ _); [|apply grows_refl].
    destruct (fenced_code output); [|apply grows_refl].
    eapply grows_trans; [|apply grows_set; cbn; auto].
    eapply grows_trans; [|apply grows_set; cbn; auto].
    apply grows_setdefault; cbn; auto.
  - unfold Work_process_output.
    assert (G : grows_within ["validations"; "advice"] s
                  (setdefault s "validations" (PDict [])))
      by (apply grows_setdefault; cbn; auto).
    destruct (get_str _ "last_chunk_id") as [id|]; [|exact G].
    destruct (truthy id); [|exact G].
    destruct (PyStr.startswith "VALID" output).
    + eapply grows_trans; [exact G | apply grows_set; cbn; auto].
    + eapply grows_trans; [|apply grows_set; cbn; auto].
      eapply grows_trans; [exact G | apply grows_set; cbn; auto].
  - unfold Loop_process_output.
    eapply grows_trans; [|apply grows_set; cbn; auto].
    destruct (_ || _); [apply grows_set; cbn; auto | apply grows_refl].
  - unfold Code_process_output.
    destruct (PyStr.contains _ _); [|apply grows_refl].
    destruct (fenced_code output); [|apply grows_refl].
    apply grows_set; cbn; auto.
  - apply grows_set; cbn; auto.
  - apply grows_set; cbn; auto.
Qed.

(** X4. No fold removes or moves a field: after the fold of any agent on
    any output the state has its former keys in their former order,
    followed by the keys the fold added, which are among the keys that
    agent writes; every other field keeps its value. *)
Theorem X4_fields_stay (r : Role) (output : string) (s : State) :
  let s' := snd (process_output r output s) in
  (exists new, keys s' = (keys s ++ new)%list /\ incl new (writes r))
  /\ (forall k, ~ In k (writes r) -> get s' k = get s k)
  /\ (forall k, mem k s = true -> mem k s' = true).
Proof.
  cbv zeta. split; [apply fold_grows | split; [intros k; apply fold_frame|]].
  intros k M. destruct (fold_grows r output s) as (new & E & _).
  unfold mem in *.
  destruct (get (snd (process_output r output s)) k) eqn:G; [reflexivity|].
  exfalso. assert (I : In k (keys s)).
  { apply get_keys. now destruct (get s k). }
  assert (I' : In k (keys (snd (process_output r output s)))).
  { rewrite E. apply in_or_app. now left. }
  apply get_keys in I'. congruence.
Qed.

Lemma reachable_status (s : State) :
  reachable s -> get s "status" = Some (PStr "STARTING").
Proof.
  induction 1 as [|r output s _ IH|s _ IH].
  - reflexivity.
  - rewrite fold_frame; [exact IH|]. destruct r; cbn; intuition discriminate.
  - rewrite get_set_other; [exact IH | discriminate].
Qed.

(** X5. The [status] field is written once, when the run starts: in
    every reachable state, and so in the state a run ends with, whether
    completed or not, it still reads "STARTING". *)
Theorem X5_status_never_changes (w : World) (initial_prompt : string) (s : State) :
  (reachable s -> get s "status" = Some (PStr "STARTING"))
  /\ get (final_state (run_orchestration w initial_prompt)) "status"
     = Some (PStr "STARTING").
Proof.
  split; [apply reachable_status|].
  apply reachable_status. unfold run_orchestration. cbn [final_state].
  apply cycles_state. apply reachable_initial.
Qed.

(* ------------------------------------------------------------------ *)
(** ** More on the entropy heuristic *)

Ltac if_cases :=
  repeat match goal with
         | |- context [if ?b then _ else _] => destruct b eqn:?
         end.

(** X6. The score is at least 0.7 for each invalid verdict, and at most
    3.0 above that; so it is never negative. *)
Theorem X6_entropy_bounds (s : State) :
  let invalid := Z.of_nat (invalid_count (validations_of s)) in
  (0 <= 70 * invalid <= calculate_entropy s)%Z
  /\ (calculate_entropy s <= 70 * invalid + 300)%Z.
Proof.
  cbv zeta. rewrite calculate_entropy_sum. unfold entropy_sum.
  fold (validations_of s).
  generalize (invalid_count (validations_of s)) as n. intros n.
  if_cases; lia.
Qed.

(** X7. The score is zero exactly when the integrity report has the
    marker, the resource report mentions neither complexity nor scope,
    there is a non-empty plan, no verdict is invalid, there are non-empty
    success criteria, and the action is neither REFINE nor PLAN with a
    chunk stored. *)
Theorem X7_entropy_zero (s : State) :
  let action := get_or (get_str s "current_action") EmptyString in
  calculate_entropy s = 0%Z
  <-> PyStr.contains "INTEGRITY OK"
        (get_or (get_str s "prompt_integrity") EmptyString) = true
      /\ mentions_issue (get_or (get_str s "resource_management") EmptyString) = false
      /\ get_or (get_str s "plan") EmptyString <> EmptyString
      /\ invalid_count (validations_of s) = 0%nat
      /\ get_or (get_str s "success_criteria") EmptyString <> EmptyString
      /\ action <> "REFINE"
      /\ (action = "PLAN" -> code_chunks_of s = []).
Proof.
  cbv zeta. rewrite calculate_entropy_sum. unfold entropy_sum, mentions_issue.
  fold (validations_of s). fold (code_chunks_of s).
  set (n := invalid_count (validations_of s)).
  set (plan := get_or (get_str s "plan") EmptyString).
  set (criteria := get_or (get_str s "success_criteria") EmptyString).
  set (action := get_or (get_str s "current_action") EmptyString).
  set (rm := PyStr.lower (get_or (get_str s "resource_management") EmptyString)).
  assert (T : forall x, x <> EmptyString <-> truthy x = true).
  { intros [|c x]; cbn; split; congruence. }
  assert (Lz : code_chunks_of s = [] <-> (0 <? len (code_chunks_of s))%nat = false).
  { destruct (code_chunks_of s); cbn; split; congruence. }
  rewrite (T plan), (T criteria), Lz, <- (String.eqb_neq action "REFINE"),
    <- (String.eqb_eq action "PLAN").
  clearbody n plan criteria action rm. clear T Lz.
  destruct (PyStr.contains "INTEGRITY OK" _);
    destruct (PyStr.contains "complexity" rm || PyStr.contains "scope" rm);
    destruct (PyStr.contains "reduce" rm || PyStr.contains "manage" rm);
    destruct (truthy plan); destruct (truthy criteria);
    destruct (String.eqb action "REFINE"); destruct (String.eqb action "PLAN");
    destruct (0 <? len (code_chunks_of s))%nat;
    cbn [andb]; intuition (try congruence; try lia).
Qed.

Lemma entropy_frame (s s' : State) :
  (forall k, In k ENTROPY_KEYS -> get s' k = get s k) ->
  calculate_entropy s' = calculate_entropy s.
Proof.
  intros H. apply calculate_entropy_reads; unfold get_str, get_dict;
    rewrite H; try reflexivity; cbn; auto 10.
Qed.

(** X8. The score depends on seven fields only: a write to any other
    field leaves it as it is.  So storing the score does not change the
    score, and neither does anything 'code' does: a final script does not
    lower the entropy. *)
Theorem X8_entropy_frame (s : State) :
  (forall k v, ~ In k ENTROPY_KEYS ->
               calculate_entropy (set s k v) = calculate_entropy s)
  /\ calculate_entropy
       (set s "current_entropy_score" (PFloat (calculate_entropy s)))
     = calculate_entropy s
  /\ (forall output,
        calculate_entropy (Code_process_output output s) = calculate_entropy s).
Proof.
  assert (F : forall k v, ~ In k ENTROPY_KEYS ->
                          calculate_entropy (set s k v) = calculate_entropy s).
  { intros k v N. apply entropy_frame. intros k' I.
    apply get_set_other. congruence. }
  split; [exact F | split].
  - apply F. cbn. intuition discriminate.
  - intros output. unfold Code_process_output.
    destruct (PyStr.contains _ _); [|reflexivity].
    destruct (fenced_code output); [|reflexivity].
    apply F. cbn. intuition discriminate.
Qed.

(** X9. The resource-management report costs nothing if it mentions
    neither complexity nor scope, 0.2 if it mentions one of them and also
    reducing or managing, 0.4 if it mentions one of them and neither of
    these.  A report in ASCII is read without regard to case; outside
    ASCII this can fail: "scope" written with a long s costs nothing, and
    0.4 once it is put in upper case, where the long s becomes S. *)
Theorem X9_resource_penalty (s : State) (report : string) :
  let with_report r := set s "resource_management" (PStr r) in
  calculate_entropy (with_report report)
  = (calculate_entropy (with_report EmptyString)
     + if mentions_issue report
       then if mentions_mitigation report then 20 else 40
       else 0)%Z
  /\ (ascii_text report = true ->
      calculate_entropy (with_report (PyStr.upper report))
      = calculate_entropy (with_report report))
  /\ calculate_entropy (with_report (PyStr.upper long_s_report))
     = (calculate_entropy (with_report long_s_report) + 40)%Z.
Proof.
  cbv zeta.
  assert (E : forall r,
             calculate_entropy (set s "resource_management" (PStr r))
             = (calculate_entropy (set s "resource_management" (PStr EmptyString))
                + if mentions_issue r
                  then if mentions_mitigation r then 20 else 40
                  else 0)%Z).
  { intros r. rewrite !calculate_entropy_sum.
    unfold entropy_sum, mentions_issue, mentions_mitigation. reads. cbn [get_or].
    change (PyStr.lower EmptyString) with EmptyString.
    change (PyStr.contains "complexity" EmptyString) with false.
    change (PyStr.contains "scope" EmptyString) with false.
    cbn [orb]. lia. }
  split; [apply E | split].
  - intros A. rewrite (E (PyStr.upper report)), (E report).
    unfold mentions_issue, mentions_mitigation. now rewrite (lower_upper report A).
  - rewrite (E (PyStr.upper long_s_report)), (E long_s_report).
    change (mentions_issue (PyStr.upper long_s_report)) with true.
    change (mentions_mitigation (PyStr.upper long_s_report)) with false.
    change (mentions_issue long_s_report) with false. cbv iota. lia.
Qed.

Lemma X9_resource_penalty_witness :
  calculate_entropy (set initial_state "resource_management" (PStr (PyStr.upper "scope creep")))
  = calculate_entropy (set initial_state "resource_management" (PStr "scope creep")).
Proof.
  apply (proj1 (proj2 (X9_resource_penalty initial_state "scope creep"))).
  reflexivity.
Defined.

(** X10. The integrity marker is matched with regard to case: a report
    in lower case always carries the penalty, whatever it says. *)
Theorem X10_integrity_case (s : State) (report : string) :
  integrity_penalty_added (set s "prompt_integrity" (PStr (PyStr.lower report))).
Proof.
  unfold integrity_penalty_added.
  rewrite !calculate_entropy_sum. unfold entropy_sum. reads. cbn [get_or].
  rewrite no_marker_in_lower.
  change (PyStr.contains "INTEGRITY OK" "INTEGRITY OK") with true. lia.
Qed.

(* ------------------------------------------------------------------ *)
(** ** 'loop': when the plan is replaced *)

Lemma mem_get_str (s : State) (k : string) :
  mem k s = false -> get s k = None.
Proof. unfold mem. now destruct (get s k). Qed.

(** X11. The fold of 'loop' always replaces the advice.  It sets the plan
    when the state has no plan field or the output says "refinement" (in
    any case); otherwise the plan stays as it is, empty or not, and the
    score with it. *)
Theorem X11_plan_policy (output : string) (s : State) :
  let s' := Loop_process_output output s in
  let refines := PyStr.contains "refinement" (PyStr.lower output) in
  get s' "advice" = Some (PStr output)
  /\ (mem "plan" s = false \/ refines = true -> get s' "plan" = Some (PStr output))
  /\ (mem "plan" s = true -> refines = false ->
      get s' "plan" = get s "plan"
      /\ calculate_entropy s' = calculate_entropy s).
Proof.
  cbv zeta. unfold Loop_process_output. split; [apply get_set_same | split].
  - intros H. rewrite get_set_other by discriminate.
    assert (C : negb (mem "plan" s)
                || PyStr.contains "refinement" (PyStr.lower output) = true).
    { destruct H as [-> | ->]; [reflexivity | apply orb_true_r]. }
    rewrite C. apply get_set_same.
  - intros M R. rewrite M, R. cbn [negb orb]. split.
    + apply get_set_other. discriminate.
    + apply entropy_frame. intros k I. apply get_set_other.
      cbn in I. intuition (subst; discriminate).
Qed.

Lemma X11_plan_policy_witness :
  get (Loop_process_output "Add error handling."
         (Loop_process_output EmptyString initial_state)) "plan"
  = Some (PStr EmptyString).
Proof.
  rewrite (proj1 (proj2 (proj2 (X11_plan_policy "Add error handling."
                                  (Loop_process_output EmptyString initial_state)))
                        eq_refl eq_refl)).
  reflexivity.
Defined.

(* ------------------------------------------------------------------ *)
(** ** Digests and fragments *)

Lemma length_round (s : list Z) (kw : Z * Z) :
  List.length (Hashlib.round s kw) = List.length s.
Proof.
  unfold Hashlib.round.
  destruct s as [|a [|b [|c [|d [|e [|f [|g [|h [|i s]]]]]]]]]; reflexivity.
Qed.

Lemma length_compress (h block : list Z) :
  List.length (Hashlib.compress h block) = List.length h.
Proof.
  unfold Hashlib.compress. rewrite length_map, length_combine.
  match goal with |- context [fold_left Hashlib.round ?l h] =>
    generalize l end.
  intros l.
  assert (E : List.length (fold_left Hashlib.round l h) = List.length h).
  { revert h. induction l as [|kw l IH]; intros h; [reflexivity|].
    cbn [fold_left]. now rewrite IH, length_round. }
  rewrite E. apply Nat.min_id.
Qed.

Lemma length_digest_words (msg : list Z) :
  List.length (Hashlib.digest_words msg) = 8%nat.
Proof.
  unfold Hashlib.digest_words. cbv zeta.
  generalize (Hashlib.blocks (List.length (Hashlib.pad msg) / 64) (Hashlib.pad msg)).
  intros bs. change 8%nat with (List.length Hashlib.H0).
  generalize Hashlib.H0. induction bs as [|b bs IH]; intros h; [reflexivity|].
  cbn [fold_left]. now rewrite IH, length_compress.
Qed.

Lemma hex_digit_is_hex (x : Z) :
  is_hex (Hashlib.hex_digit (Z.land x 15)) = true.
Proof.
  change 15%Z with (Z.ones 4). rewrite Z.land_ones by lia.
  pose proof (Z.mod_pos_bound x (2 ^ 4) ltac:(lia)) as B.
  set (y := (x mod 2 ^ 4)%Z) in *.
  assert (C : (y = 0 \/ y = 1 \/ y = 2 \/ y = 3 \/ y = 4 \/ y = 5 \/ y = 6 \/ y = 7
              \/ y = 8 \/ y = 9 \/ y = 10 \/ y = 11 \/ y = 12 \/ y = 13 \/ y = 14
              \/ y = 15)%Z) by lia.
  clearbody y. repeat (destruct C as [-> | C]; [reflexivity|]). now subst.
Qed.

Lemma hex_word_format (x : Z) :
  String.length (Hashlib.hex_word x) = 8%nat
  /\ forallb is_hex (list_ascii_of_string (Hashlib.hex_word x)) = true.
Proof.
  unfold Hashlib.hex_word. rewrite list_ascii_of_string_of_list_ascii.
  split; [reflexivity|].
  cbn [map forallb]. change 0xf%Z with 15%Z.
  now rewrite !hex_digit_is_hex.
Qed.

Lemma list_ascii_append (a b : string) :
  list_ascii_of_string (a ++ b)
  = (list_ascii_of_string a ++ list_ascii_of_string b)%list.
Proof. induction a as [|c a IH]; [reflexivity|]. cbn. now rewrite IH. Qed.

Lemma concat_words_format (ws : list Z) :
  let h := String.concat EmptyString (map Hashlib.hex_word ws) in
  String.length h = (8 * List.length ws)%nat
  /\ forallb is_hex (list_ascii_of_string h) = true.
Proof.
  cbv zeta. induction ws as [|x ws [IH1 IH2]]; [now split|].
  destruct (hex_word_format x) as [L F].
  assert (E : String.concat EmptyString (map Hashlib.hex_word (x :: ws))
              = Hashlib.hex_word x
                ++ String.concat EmptyString (map Hashlib.hex_word ws)).
  { cbn [map String.concat]. destruct ws as [|y ws]; [|reflexivity].
    cbn [map String.concat]. now rewrite append_nil_r. }
  rewrite E, length_append, list_ascii_append, forallb_app, L, F, IH1, IH2.
  cbn [List.length andb]. split; [lia | reflexivity].
Qed.

Lemma sha256_is_digest (s : string) : is_digest (Hashlib.sha256_hexdigest s).
Proof.
  unfold is_digest, Hashlib.sha256_hexdigest.
  destruct (concat_words_format (Hashlib.digest_words (Hashlib.encode s))) as [L F].
  cbv zeta in L, F. now rewrite L, F, length_digest_words.
Qed.

(** X12. Every fingerprint, whatever the request, the agent and the
    meta-prompt, is a text of 64 hexadecimal digits in lower case. *)
Theorem X12_digest_format (prompt origin_hash agent_name thought : string) :
  is_digest (create_genesis_hash prompt)
  /\ is_digest (rehash_fragment origin_hash agent_name thought).
Proof. split; apply sha256_is_digest. Qed.

Lemma colon_split (n n' t t' : string) :
  colon_free n = true -> colon_free n' = true ->
  n ++ ":" ++ t = n' ++ ":" ++ t' -> n = n' /\ t = t'.
Proof.
  unfold colon_free. revert n'.
  induction n as [|c n IH]; intros [|c' n'] F F' E; cbn in E, F, F'.
  - injection E as ->. now split.
  - injection E as <- _. discriminate.
  - injection E as -> _. discriminate.
  - injection E as -> E.
    apply andb_true_iff in F as [_ F]. apply andb_true_iff in F' as [_ F'].
    destruct (IH n' F F' E) as [-> ->]. now split.
Qed.

Lemma name_of_inj (r r' : Role) : name_of r = name_of r' -> r = r'.
Proof. destruct r, r'; intros E; try reflexivity; discriminate E. Qed.

(** X13. What is hashed for a fingerprint tells the origin, the agent
    and the meta-prompt apart, as long as the origin is itself a digest
    and the name is one of the eight agents': two such texts are equal
    only if all three parts are.  The separator itself is not escaped:
    with other origins or names, text can move across it. *)
Theorem X13_fragment_unambiguous :
  (forall (o o' : string) (r r' : Role) (t t' : string),
      is_digest o -> is_digest o' ->
      fragment_of o (name_of r) t = fragment_of o' (name_of r') t' ->
      o = o' /\ r = r' /\ t = t')
  /\ (forall o n t, rehash_fragment o n t
                    = Hashlib.sha256_hexdigest (fragment_of o n t))
  /\ (forall o x n t,
        rehash_fragment (o ++ ":" ++ x) n t = rehash_fragment o (x ++ ":" ++ n) t).
Proof.
  split; [|split].
  - intros o o' r r' t t' [L _] [L' _] E. unfold fragment_of in E.
    apply append_eq_length in E; [|congruence]. destruct E as [-> E].
    injection E as E.
    apply colon_split in E; [| now destruct r | now destruct r'].
    destruct E as [N ->]. apply name_of_inj in N. now subst.
  - reflexivity.
  - intros o x n t. unfold rehash_fragment. cbv zeta. f_equal.
    now rewrite !append_assoc.
Qed.

Lemma X13_fragment_unambiguous_witness :
  create_genesis_hash "a" = create_genesis_hash "a" /\ Cube = Cube /\ "x" = "x".
Proof.
  apply (proj1 X13_fragment_unambiguous
           (create_genesis_hash "a") (create_genesis_hash "a") Cube Cube "x" "x").
  - apply sha256_is_digest.
  - apply sha256_is_digest.
  - reflexivity.
Defined.

(* ------------------------------------------------------------------ *)
(** ** Gathered agents and the order of completion *)

Lemma same_values_set (s s' : State) (k : string) (v : pyval) :
  same_values s s' -> same_values (set s k v) (set s' k v).
Proof. intros E k'. now rewrite !get_set, E. Qed.

Lemma same_values_mem (s s' : State) (k : string) :
  same_values s s' -> mem k s = mem k s'.
Proof. intros E. unfold mem. now rewrite E. Qed.

Lemma planner_respects (r : Role) (output : string) (s s' : State) :
  In r planners -> same_values s s' ->
  same_values (snd (process_output r output s)) (snd (process_output r output s')).
Proof.
  intros I E. cbn in I. destruct I as [<- | [<- | [<- | [<- | []]]]];
    cbn [process_output snd].
  - now apply same_values_set.
  - unfold Loop_process_output. rewrite (same_values_mem s s' "plan" E).
    destruct (_ || _); repeat apply same_values_set; assumption.
  - now apply same_values_set.
  - now apply same_values_set.
Qed.

Lemma mem_set_other (s : State) (k k' : string) (v : pyval) :
  k <> k' -> mem k' (set s k v) = mem k' s.
Proof. intros N. unfold mem. now rewrite get_set_other. Qed.

Lemma planners_commute (r r' : Role) (o o' : string) (s : State) :
  In r planners -> In r' planners -> r <> r' ->
  same_values (snd (process_output r o (snd (process_output r' o' s))))
              (snd (process_output r' o' (snd (process_output r o s)))).
Proof.
  intros I I' N k. cbn in I, I'.
  destruct I as [<- | [<- | [<- | [<- | []]]]];
    destruct I' as [<- | [<- | [<- | [<- | []]]]]; try congruence;
    cbn [process_output snd];
    unfold Wave_process_output, Loop_process_output, Line_process_output,
      Coin_process_output;
    rewrite ?mem_set_other by discriminate;
    try destruct (negb (mem "plan" s) || _);
    rewrite !get_set;
    repeat match goal with
           | |- context [String.eqb ?a k] =>
               destruct (String.eqb_spec a k) as [<-|?]
           end;
    reflexivity.
Qed.

Lemma Role_eq_dec (x y : Role) : {x = y} + {x <> y}.
Proof. decide equality. Defined.

Lemma folds_respect (reply : Role -> Reply) (l : list Role) (s s' : State) :
  Forall (fun r => In r planners) l -> same_values s s' ->
  same_values (folds_of reply l s) (folds_of reply l s').
Proof.
  intros F. revert s s'. induction F as [|r l I F IH]; intros s s' E; [exact E|].
  cbn [folds_of fold_left]. apply IH. now apply planner_respects.
Qed.

Lemma folds_permuted (reply : Role -> Reply) (l l' : list Role) :
  Permutation l l' -> Forall (fun r => In r planners) l ->
  forall s s', same_values s s' ->
               same_values (folds_of reply l s) (folds_of reply l' s').
Proof.
  induction 1 as [|x l l' P IH|x y l|l l' l'' P IH P' IH']; intros F s s' E.
  - exact E.
  - inversion F as [|? ? I F']; subst. cbn [folds_of fold_left].
    apply IH; [exact F'|]. now apply planner_respects.
  - inversion F as [|? ? Iy F']; subst. inversion F' as [|? ? Ix F'']; subst.
    cbn [folds_of fold_left]. apply (folds_respect reply l); [exact F''|].
    intros k. destruct (Role_eq_dec x y) as [->|N].
    + now rewrite (planner_respects y _ _ _ Iy (planner_respects y _ s s' Iy E) k).
    + rewrite (planners_commute x y _ _ s Ix Iy N k).
      now rewrite (planner_respects y _ _ _ Iy (planner_respects x _ s s' Ix E) k).
  - intros k. rewrite (IH F s s (fun _ => eq_refl) k).
    apply IH'; [|exact E]. now apply (Permutation_Forall P).
Qed.

Lemma insert_by_perm (f : Role -> nat) (r : Role) (l : list Role) :
  Permutation (insert_by f r l) (r :: l).
Proof.
  induction l as [|x l IH]; [reflexivity|]. cbn [insert_by].
  destruct (f r <=? f x)%nat; [reflexivity|].
  rewrite IH. apply perm_swap.
Qed.

Lemma completion_order_perm (f : Role -> nat) (tasks : list Role) :
  Permutation (completion_order f tasks) tasks.
Proof.
  induction tasks as [|r l IH]; [reflexivity|].
  unfold completion_order in *. cbn [fold_right].
  rewrite insert_by_perm. now constructor.
Qed.

Lemma completion_order_one (f : Role -> nat) (r : Role) :
  completion_order f [r] = [r].
Proof. reflexivity. Qed.

(** What [gather] leaves: nothing printed unless 'cube' is among the
    tasks, and the folds in completion order. *)
Lemma gather_folds (tasks : list Role) (p h : string) (reply : Role -> Reply)
  (finish : Role -> nat) (st : State) :
  ~ In Cube tasks ->
  fst (fst (gather tasks p h reply finish st)) = []
  /\ snd (fst (gather tasks p h reply finish st))
     = folds_of reply (completion_order finish tasks) st.
Proof.
  intros N. unfold gather. cbn [fst snd].
  assert (N' : ~ In Cube (completion_order finish tasks)).
  { intros I. apply N. now apply (Permutation_in _ (completion_order_perm finish tasks)). }
  revert N'. generalize (completion_order finish tasks) as order. clear N.
  intros order. revert st.
  induction order as [|r order IH]; intros st N; [now split|].
  cbn [fold_left folds_of fst snd app].
  assert (E : fst (process_output r (response_text r (reply r)) st) = []).
  { destruct r; try reflexivity. exfalso. apply N. now left. }
  destruct (process_output r (response_text r (reply r)) st) as [pr st'].
  cbn [fst snd] in *. subst pr. apply IH. intros I. apply N. now right.
Qed.

Lemma tasks_to_run_cases (action : string) (st : State) :
  tasks_to_run action st = planners
  \/ tasks_to_run action st = []
  \/ exists r, r <> Cube /\ tasks_to_run action st = [r].
Proof.
  unfold tasks_to_run.
  destruct (String.eqb action "PLAN"); [now left|].
  right.
  destruct (String.eqb action "EXECUTE"); [right; exists Core; now split|].
  destruct (String.eqb action "VALIDATE").
  { destruct (truthy _); [right; exists Work; now split | now left]. }
  destruct (String.eqb action "REFINE"); [right; exists Loop; now split|].
  destruct (String.eqb action "COMPOSE"); [right; exists Code; now split|].
  now left.
Qed.

Lemma same_values_entropy (s s' : State) :
  same_values s s' -> calculate_entropy s = calculate_entropy s'.
Proof. intros E. apply entropy_frame. intros k _. apply E. Qed.

Lemma same_values_prompt (r : Role) (p : string) (s s' : State) :
  same_values s s' -> prints_state r = false ->
  create_meta_prompt r p s = create_meta_prompt r p s'.
Proof.
  intros E P. destruct r; try discriminate P; cbn [create_meta_prompt];
    unfold Cube_create_meta_prompt, Wave_create_meta_prompt,
      Core_create_meta_prompt, Work_create_meta_prompt, Code_create_meta_prompt,
      validated_chunks, get_str, get_dict, get_float;
    now rewrite !E.
Qed.

(** X17. The agents of one cycle are run together, and their answers
    are folded into the state in the order they arrive.  Whatever that
    order, the results are the same and the state holds the same value
    under every key (only the order of its keys can differ), so the score
    of the next cycle is the same, and so is every later meta-prompt that
    does not print the state as JSON (all but those of 'loop', 'line' and
    'coin'). *)
Theorem X17_arrival_order (action prompt origin_hash : string)
  (reply : Role -> Reply) (finish finish' : Role -> nat) (st : State) :
  let tasks := tasks_to_run action st in
  let '(printed, st1, res) := gather tasks prompt origin_hash reply finish st in
  let '(printed', st2, res') := gather tasks prompt origin_hash reply finish' st in
  printed = [] /\ printed' = [] /\ res = res'
  /\ same_values st1 st2
  /\ calculate_entropy st1 = calculate_entropy st2
  /\ (forall r p, prints_state r = false ->
                  create_meta_prompt r p st1 = create_meta_prompt r p st2).
Proof.
  cbv zeta.
  assert (N : ~ In Cube (tasks_to_run action st)).
  { destruct (tasks_to_run_cases action st) as [-> | [-> | (r & R & ->)]];
      cbn; intuition congruence. }
  destruct (gather_folds _ prompt origin_hash reply finish st N) as [P1 S1].
  destruct (gather_folds _ prompt origin_hash reply finish' st N) as [P2 S2].
  assert (R : snd (gather (tasks_to_run action st) prompt origin_hash reply finish st)
              = snd (gather (tasks_to_run action st) prompt origin_hash reply finish' st))
    by reflexivity.
  destruct (gather _ prompt origin_hash reply finish st) as [[printed st1] res].
  destruct (gather _ prompt origin_hash reply finish' st) as [[printed' st2] res'].
  cbn [fst snd] in *.
  assert (V : same_values st1 st2).
  { subst st1 st2.
    destruct (tasks_to_run_cases action st) as [-> | [-> | (r & _ & ->)]].
    - intros k.
      rewrite (folds_permuted reply _ planners (completion_order_perm finish _)
                 ltac:(eapply Permutation_Forall;
                         [symmetry; apply completion_order_perm
                         | apply Forall_forall; auto]) st st (fun _ => eq_refl) k).
      symmetry.
      apply (folds_permuted reply _ planners (completion_order_perm finish' _));
        [|intros ?; reflexivity].
      eapply Permutation_Forall;
        [symmetry; apply completion_order_perm | apply Forall_forall; auto].
    - intros k. reflexivity.
    - intros k. now rewrite !completion_order_one. }
  repeat split; auto.
  - now apply same_values_entropy.
  - intros r p Pr. now apply same_values_prompt.
Qed.

(* ------------------------------------------------------------------ *)
(** ** Calls that fail *)

Lemma error_text_shape (r : Role) (e : string) :
  exists rest, error_text r e = String "E" (String "r" rest)
               /\ exists t, PyStr.strip (error_text r e)
                            = String "E" (String "r" t).
Proof.
  unfold error_text. cbn [append]. eexists. split; [reflexivity|].
  eexists. apply strip_Er.
Qed.

Lemma error_text_no_action (r : Role) (e : string) :
  in_list (PyStr.upper (PyStr.strip (error_text r e))) ACTIONS = false.
Proof.
  destruct (error_text_shape r e) as (rest & _ & t & ->).
  rewrite upper_Er. reflexivity.
Qed.

Lemma Cube_fold_error (e : string) (s : State) :
  process_output Cube (error_text Cube e) s
  = ([invalid_action_warning (PyStr.upper (PyStr.strip (error_text Cube e)))],
     set s "current_action" (PStr "PLAN")).
Proof.
  cbn [process_output]. unfold Cube_process_output. cbv zeta.
  now rewrite error_text_no_action.
Qed.

Lemma invalid_count_replace (vs : dict string) (k v : string) :
  (invalid_count (set vs k v)
   + (match get vs k with
      | Some v0 => if PyStr.startswith "INVALID" v0 then 1 else 0
      | None => 0
      end)
   = invalid_count vs + (if PyStr.startswith "INVALID" v then 1 else 0))%nat.
Proof.
  unfold invalid_count, values. destruct (get vs k) as [v0|] eqn:G.
  - destruct (set_present vs k v v0 G) as (d1 & d2 & -> & ->).
    rewrite !map_app, !filter_app, !length_app. cbn [map snd filter].
    destruct (PyStr.startswith "INVALID" v0), (PyStr.startswith "INVALID" v);
      cbn [List.length]; lia.
  - rewrite (set_fresh vs k v G), map_app, filter_app, length_app.
    cbn [map snd filter].
    destruct (PyStr.startswith "INVALID" v); cbn [List.length]; lia.
Qed.

Lemma entropy_setdefault_validations (s : State) :
  calculate_entropy (setdefault s "validations" (PDict [])) = calculate_entropy s.
Proof.
  rewrite !calculate_entropy_sum. unfold entropy_sum.
  now rewrite !get_str_setdefault, !get_dict_setdefault.
Qed.

(** X14. When the call to the model fails, the error message is handled
    as though it were the model's answer.  It is never empty and never
    names an action, so 'cube' warns and falls back to PLAN; and it never
    starts with VALID, so 'work' records the newest chunk as invalid,
    which raises the score by 0.7 unless that chunk had been found
    invalid before. *)
Theorem X14_failed_call (r : Role) (e : string) (s : State) :
  response_text r (ClientError e) = error_text r e
  /\ truthy (error_text r e) = true
  /\ process_output Cube (response_text Cube (ClientError e)) s
     = ([invalid_action_warning (PyStr.upper (PyStr.strip (error_text Cube e)))],
        set s "current_action" (PStr "PLAN"))
  /\ (forall id,
        get s "last_chunk_id" = Some (PStr id) -> id <> EmptyString ->
        let s' := snd (process_output Work (response_text Work (ClientError e)) s) in
        get (validations_of s') id = Some ("INVALID - " ++ error_text Work e)
        /\ calculate_entropy s'
           = (calculate_entropy s + if found_invalid s id then 0 else 70)%Z).
Proof.
  split; [reflexivity | split; [|split]].
  - now destruct (error_text_shape r e) as (rest & -> & _).
  - apply Cube_fold_error.
  - intros id L T. cbv zeta. cbn [process_output snd response_text].
    fold (error_text Work e).
    rewrite (Work_process_output_set _ id s L T). cbv zeta.
    assert (V : PyStr.startswith "VALID" (error_text Work e) = false).
    { now destruct (error_text_shape Work e) as (rest & -> & _). }
    rewrite V. split.
    + folds. cbn [get_or]. now rewrite get_set_same.
    + rewrite (entropy_frame (set_item (setdefault s "validations" (PDict []))
                                "validations" id ("INVALID - " ++ error_text Work e))
                 (set _ "advice" _)).
      2:{ intros k I. apply get_set_other. cbn in I. intuition (subst; discriminate). }
      unfold set_item. rewrite entropy_validations, entropy_setdefault_validations.
      fold (validations_of (setdefault s "validations" (PDict []))).
      rewrite validations_of_setdefault.
      pose proof (invalid_count_replace (validations_of s) id
                    ("INVALID - " ++ error_text Work e)) as C.
      change (PyStr.startswith "INVALID" ("INVALID - " ++ error_text Work e))
        with true in C.
      unfold found_invalid.
      destruct (get (validations_of s) id) as [v0|];
        [destruct (PyStr.startswith "INVALID" v0)|]; lia.
Qed.

Lemma X14_failed_call_witness :
  calculate_entropy
    (snd (process_output Work (response_text Work (ClientError "timeout"))
            one_chunk_state))
  = (calculate_entropy one_chunk_state + 70)%Z.
Proof.
  apply (proj2 (proj2 (proj2 (proj2 (X14_failed_call Work "timeout" one_chunk_state)))
                 "chunk_1" eq_refl ltac:(discriminate))).
Defined.

(* ------------------------------------------------------------------ *)
(** ** The engine: who runs in a cycle *)

Lemma reason_and_act_eq (r : Role) (p h : string) (reply : Reply) (st : State) :
  reason_and_act r p h reply st
  = (fst (process_output r (response_text r reply) st),
     snd (process_output r (response_text r reply) st),
     mkResult (name_of r) (role_of r) (model_of r) (response_text r reply)
              (rehash_fragment h (name_of r) (create_meta_prompt r p st))).
Proof.
  unfold reason_and_act, think, act.
  now destruct (process_output r (response_text r reply) st).
Qed.

Lemma gather_results (tasks : list Role) (p h : string) (reply : Role -> Reply)
  (finish : Role -> nat) (st : State) :
  snd (gather tasks p h reply finish st)
  = map (fun r => mkResult (name_of r) (role_of r) (model_of r)
                           (response_text r (reply r))
                           (rehash_fragment h (name_of r) (create_meta_prompt r p st)))
        tasks.
Proof. unfold gather. cbn [snd]. rewrite map_map. reflexivity. Qed.

Lemma tasks_no_cube (action : string) (st : State) :
  ~ In Cube (tasks_to_run action st).
Proof.
  destruct (tasks_to_run_cases action st) as [-> | [-> | (r & R & ->)]];
    cbn; intuition congruence.
Qed.

(** One pass through the loop body, by what it leaves. *)
Lemma cycle_body_agents (w : World) (p : string) (n : nat) (st : State) (h : string) :
  let s := cycle_body w p n st h in
  let c := step_cycle s in
  let tasks := tasks_to_run (action c) (decided c) in
  observed c = set st "current_entropy_score" (PFloat (calculate_entropy st))
  /\ process_output Cube (response_text Cube (reply_of w n Cube)) (observed c)
     = (step_printed s, decided c)
  /\ action c = get_or (get_str (decided c) "current_action") "PLAN"
  /\ results c = map (result_of w p n (reasoning_hash (cube_result c)) (decided c)) tasks
  /\ step_state s
     = folds_of (reply_of w n) (completion_order (finish_of w n) tasks) (decided c)
  /\ snapshot c = match tasks with [] => None | _ => Some (step_state s) end
  /\ step_break s = String.eqb (action c) "COMPLETE".
Proof.
  cbv zeta. unfold cycle_body. rewrite reason_and_act_eq.
  set (st1 := set st "current_entropy_score" (PFloat (calculate_entropy st))).
  destruct (process_output Cube (response_text Cube (reply_of w n Cube)) st1)
    as [printed st2] eqn:EC.
  cbn [fst snd reasoning_hash].
  set (hc := rehash_fragment h (name_of Cube) (create_meta_prompt Cube p st1)).
  set (act := get_or (get_str st2 "current_action") "PLAN").
  destruct (String.eqb act "COMPLETE") eqn:E.
  - apply String.eqb_eq in E.
    cbn [step_cycle step_state step_printed step_break
      observed decided action results snapshot cube_result reasoning_hash].
    rewrite E, tasks_of_COMPLETE. now repeat split.
  - destruct (tasks_to_run act st2) as [|t ts] eqn:T.
    + cbn [step_cycle step_state step_printed step_break
        observed decided action results snapshot cube_result reasoning_hash].
      rewrite T, E. now repeat split.
    + pose proof (gather_results (t :: ts) p hc (reply_of w n) (finish_of w n) st2) as GR.
      destruct (gather_folds (t :: ts) p hc (reply_of w n) (finish_of w n) st2) as [GP GS].
      { rewrite <- T. apply tasks_no_cube. }
      destruct (gather (t :: ts) p hc (reply_of w n) (finish_of w n) st2)
        as [[printed1 st3] rs].
      cbn [fst snd] in GR, GP, GS. subst printed1 st3 rs.
      cbn [step_cycle step_state step_printed step_break
        observed decided action results snapshot cube_result reasoning_hash].
      rewrite T, E, app_nil_r. now repeat split.
Qed.

Lemma cycles_log (w : World) (p : string) (P : Cycle -> Prop) :
  (forall n st h, reachable st -> P (step_cycle (cycle_body w p n st h))) ->
  forall todo st h, reachable st -> Forall P (out_log (cycles w p todo st h)).
Proof.
  intros HP todo. induction todo as [|n todo IH]; intros st h R; [constructor|].
  cbn [cycles]. cbv zeta.
  destruct (cycle_body_state w p n st h R) as (_ & _ & R3).
  pose proof (HP n st h R) as Pc.
  destruct (step_break (cycle_body w p n st h)); cbn [out_log].
  - now repeat constructor.
  - constructor; [exact Pc | now apply IH].
Qed.

Lemma Cube_action (output : string) (s : State) :
  exists a, get_str (snd (Cube_process_output output s)) "current_action" = Some a
            /\ In a ACTIONS.
Proof.
  unfold Cube_process_output. cbv zeta.
  destruct (in_list _ ACTIONS) eqn:E; cbn [negb snd]; unfold get_str;
    rewrite get_set_same; eexists; split; try reflexivity.
  - now apply in_list_In.
  - cbn. auto.
Qed.

Lemma chunk_name_truthy (n : nat) : truthy (chunk_name n) = true.
Proof. reflexivity. Qed.

Lemma validate_runs (s : State) :
  reachable s ->
  tasks_to_run "VALIDATE" s = match code_chunks_of s with [] => [] | _ => [Work] end.
Proof.
  intros R. destruct (reachable_chunks_in_order s R) as [_ L].
  unfold tasks_to_run. cbn [String.eqb Ascii.eqb Bool.eqb]. unfold get_str.
  cbv zeta in L. rewrite L. unfold len.
  now destruct (code_chunks_of s).
Qed.

(** X18. In every cycle of every run the action is one of the six, and
    the agents that run after 'cube' are those of the action: the four
    planners for PLAN, 'core' for EXECUTE, 'loop' for REFINE, 'code' for
    COMPOSE, none for COMPLETE, and for VALIDATE 'work' if there is a
    chunk and nobody if there is none.  The state file is written in the
    cycles in which some agent ran besides 'cube'. *)
Theorem X18_cycle_agents (w : World) (initial_prompt : string) :
  Forall
    (fun c =>
       In (action c) ACTIONS
       /\ results c
          = map (result_of w initial_prompt (number c)
                           (reasoning_hash (cube_result c)) (decided c))
                (if String.eqb (action c) "PLAN" then [Wave; Loop; Line; Coin]
                 else if String.eqb (action c) "EXECUTE" then [Core]
                 else if String.eqb (action c) "VALIDATE" then
                   match code_chunks_of (decided c) with [] => [] | _ => [Work] end
                 else if String.eqb (action c) "REFINE" then [Loop]
                 else if String.eqb (action c) "COMPOSE" then [Code]
                 else [])
       /\ (snapshot c = None <-> results c = []))
    (log (run_orchestration w initial_prompt)).
Proof.
  unfold run_orchestration. cbn [log].
  apply cycles_log; [|constructor].
  intros n st h R.
  destruct (cycle_body_state w initial_prompt n st h R) as (R1 & R2 & _).
  destruct (cycle_body_spec w initial_prompt n st h) as (Hn & _).
  destruct (cycle_body_agents w initial_prompt n st h)
    as (Ho & Hc & Ha & Hr & Hs & Hf & _).
  cbv zeta in *.
  set (s := cycle_body w initial_prompt n st h) in *.
  set (c := step_cycle s) in *.
  assert (A : In (action c) ACTIONS).
  { destruct (Cube_action (response_text Cube (reply_of w n Cube)) (observed c))
      as (a & G & I).
    cbn [process_output] in Hc. rewrite Hc in G. cbn [snd] in G.
    now rewrite Ha, G. }
  assert (T : tasks_to_run (action c) (decided c)
              = if String.eqb (action c) "PLAN" then [Wave; Loop; Line; Coin]
                else if String.eqb (action c) "EXECUTE" then [Core]
                else if String.eqb (action c) "VALIDATE" then
                  match code_chunks_of (decided c) with [] => [] | _ => [Work] end
                else if String.eqb (action c) "REFINE" then [Loop]
                else if String.eqb (action c) "COMPOSE" then [Code]
                else []).
  { destruct (String.eqb (action c) "PLAN") eqn:E1;
      [unfold tasks_to_run; now rewrite E1|].
    destruct (String.eqb (action c) "EXECUTE") eqn:E2;
      [unfold tasks_to_run; now rewrite E1, E2|].
    destruct (String.eqb (action c) "VALIDATE") eqn:E3.
    - apply String.eqb_eq in E3. rewrite E3. now apply validate_runs.
    - unfold tasks_to_run. now rewrite E1, E2, E3. }
  split; [exact A | split].
  - rewrite Hn, Hr, T. reflexivity.
  - rewrite Hf, Hr. destruct (tasks_to_run (action c) (decided c)); cbn [map];
      split; intros; congruence.
Qed.

Lemma length_fingerprints (w : World) (p : string) (n : nat) (st : State) (h : string) :
  let k := List.length (fingerprints_of (step_cycle (cycle_body w p n st h))) in
  k = 1%nat \/ k = 2%nat \/ k = 5%nat.
Proof.
  cbv zeta. unfold fingerprints_of. cbn [List.length]. rewrite length_map.
  destruct (cycle_body_agents w p n st h) as (_ & _ & _ & Hr & _).
  cbv zeta in Hr. rewrite Hr, length_map.
  destruct (tasks_to_run_cases
              (action (step_cycle (cycle_body w p n st h)))
              (decided (step_cycle (cycle_body w p n st h))))
    as [-> | [-> | (r & _ & ->)]]; cbn; auto.
Qed.

Lemma cycles_chain_length (w : World) (p : string) (todo : list nat)
  (st : State) (h : string) :
  let fs := flat_map fingerprints_of (out_log (cycles w p todo st h)) in
  (List.length fs <= 5 * List.length todo)%nat
  /\ (todo <> [] -> 1 <= List.length fs)%nat
  /\ Forall (fun c => let k := List.length (fingerprints_of c) in
                      k = 1 \/ k = 2 \/ k = 5)%nat
            (out_log (cycles w p todo st h)).
Proof.
  cbv zeta. revert st h. induction todo as [|n todo IH]; intros st h.
  - cbn. repeat split; [lia | congruence | constructor].
  - cbn [cycles]. cbv zeta.
    pose proof (length_fingerprints w p n st h) as L. cbv zeta in L.
    destruct (step_break (cycle_body w p n st h));
      cbn [out_log flat_map List.length]; rewrite length_app.
    + cbn [List.length]. repeat split; [lia | lia | constructor; [exact L | constructor]].
    + destruct (IH (step_state (cycle_body w p n st h))
                   (step_hash (cycle_body w p n st h))) as (I1 & _ & I3).
      repeat split; [lia | lia | now constructor].
Qed.

Lemma log_run (w : World) (p : string) :
  log (run_orchestration w p)
  = out_log (cycles w p (seq 1 max_cycles) initial_state (create_genesis_hash p)).
Proof. reflexivity. Qed.

Lemma final_state_run (w : World) (p : string) :
  final_state (run_orchestration w p)
  = out_state (cycles w p (seq 1 max_cycles) initial_state (create_genesis_hash p)).
Proof. reflexivity. Qed.

(** X19. The chain of a run holds the fingerprint of the request and
    then, for each cycle, one fingerprint for 'cube' and one for each
    agent gathered: 1, 2 or 5 a cycle, so between 2 and 51 in all. *)
Theorem X19_chain_length (w : World) (initial_prompt : string) :
  let run := run_orchestration w initial_prompt in
  (2 <= List.length (chain run) <= 51)%nat
  /\ List.length (chain run)
     = S (list_sum (map (fun c => S (List.length (results c))) (log run)))
  /\ Forall (fun c => let k := S (List.length (results c)) in
                      k = 1 \/ k = 2 \/ k = 5)%nat (log run).
Proof.
  cbv zeta. unfold chain. rewrite length_cons, log_run.
  pose proof (cycles_chain_length w initial_prompt (seq 1 max_cycles) initial_state
                (create_genesis_hash initial_prompt)) as L.
  cbv zeta in L. revert L.
  generalize (out_log (cycles w initial_prompt (seq 1 max_cycles) initial_state
                         (create_genesis_hash initial_prompt))).
  intros l (L1 & L2 & L3). rewrite length_seq in L1.
  assert (L2' : (1 <= List.length (flat_map fingerprints_of l))%nat)
    by (apply L2; discriminate).
  clear L2. unfold max_cycles in L1.
  split; [lia | split].
  - f_equal. clear. induction l as [|c l IH]; [reflexivity|].
    cbn [flat_map map list_sum]. rewrite length_app, IH.
    unfold fingerprints_of. cbn [List.length]. now rewrite length_map.
  - eapply Forall_impl; [|exact L3]. intros c. unfold fingerprints_of.
    cbn [List.length]. now rewrite length_map.
Qed.

(* ------------------------------------------------------------------ *)
(** ** The engine: what a run can leave *)

Lemma folds_frame (reply : Role -> Reply) (order : list Role) (s : State)
  (k : string) :
  (forall r, In r order -> ~ In k (writes r)) ->
  get (folds_of reply order s) k = get s k.
Proof.
  revert s. induction order as [|r order IH]; intros s H; [reflexivity|].
  change (folds_of reply (r :: order) s)
    with (folds_of reply order
            (snd (process_output r (response_text r (reply r)) s))).
  rewrite IH by (intros r' I; apply H; now right).
  apply fold_frame. apply H. now left.
Qed.

Lemma tasks_in (action : string) (st : State) (r : Role) :
  In r (tasks_to_run action st) ->
  match r with
  | Cube => False
  | Core => action = "EXECUTE"
  | Work => action = "VALIDATE"
  | Code => action = "COMPOSE"
  | Loop => action = "PLAN" \/ action = "REFINE"
  | Wave | Line | Coin => action = "PLAN"
  end.
Proof.
  unfold tasks_to_run.
  destruct (String.eqb_spec action "PLAN") as [->|_];
    [cbn; intuition (subst; auto; discriminate)|].
  destruct (String.eqb_spec action "EXECUTE") as [->|_];
    [cbn; intuition (subst; auto; discriminate)|].
  destruct (String.eqb_spec action "VALIDATE") as [->|_];
    [destruct (truthy _); cbn; intuition (subst; auto; discriminate)|].
  destruct (String.eqb_spec action "REFINE") as [->|_];
    [cbn; intuition (subst; auto; discriminate)|].
  destruct (String.eqb_spec action "COMPOSE") as [->|_];
    [cbn; intuition (subst; auto; discriminate)|].
  intros [].
Qed.

(** A cycle in which the only agent that writes [k] does not run leaves
    the value under [k] as it was. *)
Lemma cycle_frame (w : World) (p : string) (n : nat) (st : State) (h : string)
  (k : string) (r0 : Role) :
  (forall r, In k (writes r) -> r = r0) -> r0 <> Cube ->
  k <> "current_entropy_score" ->
  let s := cycle_body w p n st h in
  ~ In r0 (tasks_to_run (action (step_cycle s)) (decided (step_cycle s))) ->
  get (step_state s) k = get st k.
Proof.
  intros W NC NS. cbv zeta. intros NI.
  destruct (cycle_body_agents w p n st h) as (Ho & Hc & _ & _ & Hs & _).
  cbv zeta in *. rewrite Hs, folds_frame.
  - replace (decided (step_cycle (cycle_body w p n st h)))
      with (snd (process_output Cube (response_text Cube (reply_of w n Cube))
                   (observed (step_cycle (cycle_body w p n st h)))))
      by now rewrite Hc.
    rewrite fold_frame by (intros I; apply NC; symmetry; now apply W).
    rewrite Ho. now apply get_set_other.
  - intros r I K. apply W in K. subst r. apply NI.
    exact (Permutation_in _ (completion_order_perm _ _) I).
Qed.

Lemma cycles_needs (w : World) (p : string) (k : string) (r0 : Role) (a : string) :
  (forall r, In k (writes r) -> r = r0) -> r0 <> Cube ->
  k <> "current_entropy_score" ->
  (forall action st, In r0 (tasks_to_run action st) -> action = a) ->
  forall todo st h,
    get (out_state (cycles w p todo st h)) k <> get st k ->
    Exists (fun c => action c = a) (out_log (cycles w p todo st h)).
Proof.
  intros W NC NS TA todo.
  induction todo as [|n todo IH]; intros st h D; [now contradiction D|].
  cbn [cycles] in *. cbv zeta in *.
  pose proof (cycle_frame w p n st h k r0 W NC NS) as F. cbv zeta in F.
  set (s := cycle_body w p n st h) in *.
  destruct (in_dec Role_eq_dec r0
              (tasks_to_run (action (step_cycle s)) (decided (step_cycle s))))
    as [I|NI].
  - apply TA in I. destruct (step_break s); cbn [out_log]; now apply Exists_cons_hd.
  - specialize (F NI). destruct (step_break s); cbn [out_log out_state] in *.
    + now contradiction D.
    + apply Exists_cons_tl. apply IH. now rewrite F.
Qed.

Lemma final_code_cycles (w : World) (p : string) :
  final_code (run_orchestration w p)
  = get_or (get_str (out_state (cycles w p (seq 1 max_cycles) initial_state
                                  (create_genesis_hash p))) "final_script")
           "# Composition failed. No final script was generated.".
Proof. reflexivity. Qed.

(** X16. What a run leaves, it leaves through the action made for it:
    chunks only if some cycle decided EXECUTE, verdicts only if some
    cycle decided VALIDATE (and some cycle EXECUTE), and a script other
    than the fixed comment only if some cycle decided COMPOSE. *)
Theorem X16_products_need_actions (w : World) (initial_prompt : string) :
  let run := run_orchestration w initial_prompt in
  let decided_on a := Exists (fun c => action c = a) (log run) in
  (code_chunks_of (final_state run) <> [] -> decided_on "EXECUTE")
  /\ (validations_of (final_state run) <> [] ->
      decided_on "VALIDATE" /\ decided_on "EXECUTE")
  /\ (final_code run <> no_script -> decided_on "COMPOSE").
Proof.
  cbv zeta. rewrite final_code_cycles, log_run, final_state_run.
  pose proof (cycles_state w initial_prompt (seq 1 max_cycles) initial_state
                (create_genesis_hash initial_prompt) reachable_initial) as R.
  cbv zeta in R. destruct R as [R _]. apply reachable_chunk_keys in R.
  pose proof (cycles_needs w initial_prompt "code_chunks" Core "EXECUTE") as NE.
  pose proof (cycles_needs w initial_prompt "validations" Work "VALIDATE") as NV.
  pose proof (cycles_needs w initial_prompt "final_script" Code "COMPOSE") as NC.
  specialize (NE ltac:(intros r I; destruct r; cbn in I; intuition discriminate)
                 ltac:(discriminate) ltac:(discriminate)
                 ltac:(intros a st I; now apply tasks_in in I)
                 (seq 1 max_cycles) initial_state (create_genesis_hash initial_prompt)).
  specialize (NV ltac:(intros r I; destruct r; cbn in I; intuition discriminate)
                 ltac:(discriminate) ltac:(discriminate)
                 ltac:(intros a st I; now apply tasks_in in I)
                 (seq 1 max_cycles) initial_state (create_genesis_hash initial_prompt)).
  specialize (NC ltac:(intros r I; destruct r; cbn in I; intuition discriminate)
                 ltac:(discriminate) ltac:(discriminate)
                 ltac:(intros a st I; now apply tasks_in in I)
                 (seq 1 max_cycles) initial_state (create_genesis_hash initial_prompt)).
  revert R NE NV NC.
  generalize (cycles w initial_prompt (seq 1 max_cycles) initial_state
                (create_genesis_hash initial_prompt)).
  intros out R NE NV NC.
  change (get initial_state "code_chunks") with (Some (PDict [])) in NE.
  change (get initial_state "validations") with (Some (PDict [])) in NV.
  change (get initial_state "final_script") with (@None pyval) in NC.
  assert (E : code_chunks_of (out_state out) <> [] ->
              Exists (fun c => action c = "EXECUTE") (out_log out)).
  { intros H. apply NE. intros G. apply H.
    unfold code_chunks_of, get_dict. now rewrite G. }
  split; [exact E | split].
  - intros H. split.
    + apply NV. intros G. apply H. unfold validations_of, get_dict. now rewrite G.
    + apply E. intros C. destruct R as [R _].
      destruct (validations_of (out_state out)) as [|[k v] vs]; [now apply H|].
      specialize (R k ltac:(now left)). rewrite C in R. exact R.
  - intros H. apply NC. intros G. apply H. unfold get_str. now rewrite G.
Qed.

(* ------------------------------------------------------------------ *)
(** ** A run without a model server *)

Lemma arrival_values (reply : Role -> Reply) (finish : Role -> nat) (s : State) :
  same_values (folds_of reply (completion_order finish planners) s)
              (folds_of reply planners s).
Proof.
  apply (folds_permuted reply _ planners (completion_order_perm finish _));
    [|intros ?; reflexivity].
  eapply Permutation_Forall;
    [symmetry; apply completion_order_perm | apply Forall_forall; auto].
Qed.

Lemma error_text_truthy (r : Role) (e : string) : truthy (error_text r e) = true.
Proof. now destruct (error_text_shape r e) as (rest & -> & _). Qed.

Lemma down_cycle (w : World) (p : string) (n : nat) (st : State) (h : string) :
  server_down w -> nothing_built st ->
  let s := cycle_body w p n st h in
  step_break s = false
  /\ action (step_cycle s) = "PLAN"
  /\ List.length (step_printed s) = 1%nat
  /\ nothing_built (step_state s) /\ planned (step_state s).
Proof.
  intros D (I1 & I2 & I3 & I4). cbv zeta.
  destruct (cycle_body_agents w p n st h) as (Ho & Hc & Ha & _ & Hs & _ & Hb).
  cbv zeta in *.
  set (s := cycle_body w p n st h) in *. set (c := step_cycle s) in *.
  destruct (D n Cube) as (e & Ee). rewrite Ee in Hc.
  change (response_text Cube (ClientError e)) with (error_text Cube e) in Hc.
  rewrite Cube_fold_error in Hc. injection Hc as Hp Hd.
  assert (A : action c = "PLAN").
  { rewrite Ha, <- Hd. unfold get_str. now rewrite get_set_same. }
  rewrite A in Hs, Hb.
  change (tasks_to_run "PLAN" (decided c)) with planners in Hs.
  assert (F : forall k, ~ In k ["success_criteria"; "plan"; "advice";
                                "resource_management"; "prompt_integrity";
                                "current_action"; "current_entropy_score"] ->
                        get (step_state s) k = get st k).
  { intros k N. rewrite Hs, folds_frame.
    - rewrite <- Hd, Ho, !get_set_other; [reflexivity| |];
        intros <-; apply N; cbn; auto 10.
    - intros r I K.
      apply (Permutation_in _ (completion_order_perm _ _)) in I.
      apply N. cbn in I. destruct I as [<- | [<- | [<- | [<- | []]]]];
        cbn in K; cbn; intuition. }
  assert (V : same_values (step_state s) (folds_of (reply_of w n) planners (decided c))).
  { rewrite Hs. apply arrival_values. }
  destruct (D n Wave) as (eW & EW). destruct (D n Loop) as (eL & EL).
  unfold folds_of in V. cbn [planners fold_left process_output snd] in V.
  rewrite EW, EL in V.
  change (response_text Wave (ClientError eW)) with (error_text Wave eW) in V.
  change (response_text Loop (ClientError eL)) with (error_text Loop eL) in V.
  unfold Coin_process_output, Line_process_output in V.
  assert (P : exists x, get (step_state s) "plan" = Some (PStr x) /\ truthy x = true).
  { rewrite V, !get_set_other by discriminate. unfold Loop_process_output.
    rewrite get_set_other by discriminate.
    destruct (negb (mem "plan" _) || _) eqn:C.
    - rewrite get_set_same. eexists. split; [reflexivity | apply error_text_truthy].
    - apply orb_false_iff in C as [C _]. apply negb_false_iff in C.
      unfold Wave_process_output, mem in *.
      rewrite get_set_other in * by discriminate.
      rewrite <- Hd, Ho, !get_set_other in * by discriminate.
      destruct I4 as [I4 | I4]; [now rewrite I4 in C | exact I4]. }
  split; [now rewrite Hb | split; [exact A | split; [now rewrite <- Hp|]]].
  split; [|split; [exact P | split]].
  - repeat split.
    + rewrite F; [exact I1 | cbn; intuition discriminate].
    + rewrite F; [exact I2 | cbn; intuition discriminate].
    + rewrite F; [exact I3 | cbn; intuition discriminate].
    + now right.
  - rewrite V, !get_set_other by discriminate. unfold Loop_process_output.
    rewrite get_set_other by discriminate.
    exists (error_text Wave eW). split; [|apply error_text_truthy].
    destruct (negb (mem "plan" _) || _); rewrite ?get_set_other by discriminate;
      apply get_set_same.
  - rewrite V, !get_set_other by discriminate. unfold Loop_process_output.
    rewrite get_set_other by discriminate.
    destruct (negb (mem "plan" _) || _); rewrite ?get_set_other by discriminate;
      unfold Wave_process_output; rewrite get_set_other by discriminate;
      rewrite <- Hd; apply get_set_same.
Qed.

Lemma down_cycles (w : World) (p : string) (todo : list nat) (st : State)
  (h : string) :
  server_down w -> nothing_built st ->
  let out := cycles w p todo st h in
  out_ending out = Exhausted
  /\ List.length (out_log out) = List.length todo
  /\ Forall (fun c => action c = "PLAN") (out_log out)
  /\ List.length (out_printed out) = List.length todo
  /\ nothing_built (out_state out)
  /\ (todo <> [] -> planned (out_state out)).
Proof.
  intros D. cbv zeta. revert st h.
  induction todo as [|n todo IH]; intros st h I.
  - cbn [cycles out_ending out_log out_printed out_state List.length].
    split; [reflexivity | split; [reflexivity | split; [constructor|]]].
    split; [reflexivity | split; [exact I | intros N; now contradiction N]].
  - cbn [cycles]. cbv zeta.
    destruct (down_cycle w p n st h D I) as (B & A & P & I' & Q).
    cbv zeta in *. rewrite B.
    destruct (IH (step_state (cycle_body w p n st h))
                 (step_hash (cycle_body w p n st h)) I')
      as (E1 & E2 & E3 & E4 & E5 & E6).
    cbn [out_ending out_log out_printed out_state List.length].
    rewrite length_app, P, E2, E4.
    split; [exact E1 | split; [reflexivity | split; [now constructor|]]].
    split; [reflexivity | split; [exact E5|]].
    intros _. destruct todo as [|m todo]; [exact Q | apply E6; discriminate].
Qed.

Lemma planned_entropy (s : State) :
  nothing_built s -> planned s -> (calculate_entropy s <= 90)%Z.
Proof.
  intros (I1 & I2 & _) ((x & Px & Tx) & (y & Py & Ty) & A).
  rewrite calculate_entropy_sum. unfold entropy_sum, get_str, get_dict.
  rewrite I1, I2, Px, Py, A. cbn [get_or]. rewrite Tx, Ty.
  change (invalid_count []) with O. cbn [String.eqb Ascii.eqb Bool.eqb len List.length].
  cbn [Nat.ltb Nat.leb andb Z.of_nat].
  repeat match goal with
         | |- context [if ?b then _ else _] => destruct b
         end; lia.
Qed.

Lemma ending_run (w : World) (p : string) :
  ending (run_orchestration w p)
  = out_ending (cycles w p (seq 1 max_cycles) initial_state (create_genesis_hash p)).
Proof. reflexivity. Qed.

Lemma warnings_run (w : World) (p : string) :
  warnings (run_orchestration w p)
  = out_printed (cycles w p (seq 1 max_cycles) initial_state (create_genesis_hash p)).
Proof. reflexivity. Qed.

(** X15. With the model server down for the whole run, every cycle
    falls back to PLAN with a warning, the four planners store their
    error messages as criteria, plan, assessment and report, and the run
    uses all ten cycles and delivers the fixed comment instead of a
    script.  The messages count as a plan and as criteria, so the score
    ends at 0.9 or less, below the 2.3 the run started with. *)
Theorem X15_server_down (w : World) (initial_prompt : string) :
  server_down w ->
  let run := run_orchestration w initial_prompt in
  ending run = Exhausted
  /\ List.length (log run) = 10%nat
  /\ Forall (fun c => action c = "PLAN") (log run)
  /\ List.length (warnings run) = 10%nat
  /\ code_chunks_of (final_state run) = []
  /\ final_code run = no_script
  /\ (calculate_entropy (final_state run) <= 90
      < calculate_entropy initial_state)%Z.
Proof.
  intros D. cbv zeta.
  rewrite ending_run, log_run, warnings_run, final_state_run, final_code_cycles.
  assert (I : nothing_built initial_state).
  { repeat split; try reflexivity. now left. }
  pose proof (down_cycles w initial_prompt (seq 1 max_cycles) initial_state
                (create_genesis_hash initial_prompt) D I) as L.
  cbv zeta in L. rewrite length_seq in L. revert L.
  generalize (cycles w initial_prompt (seq 1 max_cycles) initial_state
                (create_genesis_hash initial_prompt)).
  intros out (E1 & E2 & E3 & E4 & E5 & E6).
  specialize (E6 ltac:(discriminate)).
  pose proof (planned_entropy _ E5 E6) as B.
  destruct E5 as (C1 & _ & C3 & _).
  repeat split; auto.
  - unfold code_chunks_of, get_dict. now rewrite C1.
  - unfold get_str. now rewrite C3.
Qed.

Lemma X15_server_down_witness :
  final_code (run_orchestration world_down "Write a hello world script")
  = no_script.
Proof.
  apply (X15_server_down world_down "Write a hello world script").
  intros n r. exists "Connection refused". reflexivity.
Defined.

(* ------------------------------------------------------------------ *)
(** ** Meta-prompts and the request *)

Lemma contains_refl (p : string) : PyStr.contains p p = true.
Proof.
  apply contains_spec. exists EmptyString, EmptyString. cbn [append].
  now rewrite append_nil_r.
Qed.

Lemma contains_self (p t : string) : PyStr.contains p (p ++ t) = true.
Proof. apply contains_spec. now exists EmptyString, t. Qed.

Lemma contains_app_l (p s t : string) :
  PyStr.contains p t = true -> PyStr.contains p (s ++ t) = true.
Proof.
  rewrite !contains_spec. intros (b & a & ->). exists (s ++ b), a.
  now rewrite append_assoc.
Qed.

Lemma contains_app_r (p s t : string) :
  PyStr.contains p s = true -> PyStr.contains p (s ++ t) = true.
Proof.
  rewrite !contains_spec. intros (b & a & ->). exists b, (a ++ t).
  now rewrite !append_assoc.
Qed.

Lemma contains_concat (p sep x : string) (l : list string) :
  In x l -> PyStr.contains p x = true ->
  PyStr.contains p (String.concat sep l) = true.
Proof.
  intros I C. induction l as [|y l IH]; [destruct I|].
  cbn [String.concat]. destruct I as [-> | I].
  - destruct l; [exact C | now apply contains_app_r].
  - destruct l as [|z l]; [destruct I|].
    apply contains_app_l, contains_app_l. now apply IH.
Qed.

Ltac in_pick := (left; reflexivity) + (right; in_pick).

Ltac has_goal :=
  match goal with
  | |- PyStr.contains ?p ?p = true => apply contains_refl
  | |- PyStr.contains ?p (?p ++ _) = true => apply contains_self
  | |- PyStr.contains _ (_ ++ _) = true => apply contains_app_l; has_goal
  | |- PyStr.contains _ (String.concat _ _) = true =>
      eapply contains_concat; [in_pick|]; has_goal
  end.

(** X20. Six of the eight meta-prompts carry the request word for word;
    those of 'work' and 'code' do not depend on it: the validator and the
    composer are told the success criteria, never the request. *)
Theorem X20_prompts_and_request (r : Role) (base_prompt : string) (state : State) :
  if quotes_request r
  then PyStr.contains base_prompt (create_meta_prompt r base_prompt state) = true
  else forall other,
         create_meta_prompt r other state = create_meta_prompt r base_prompt state.
Proof.
  destruct r; cbn [quotes_request create_meta_prompt]; try reflexivity;
    unfold Cube_create_meta_prompt, Wave_create_meta_prompt,
      Core_create_meta_prompt, Loop_create_meta_prompt, Line_create_meta_prompt,
      Coin_create_meta_prompt; cbv zeta; has_goal.
Qed.

(* ------------------------------------------------------------------ *)
(** ** The verdicts kept *)

Lemma Forall_set {V : Type} (P : V -> Prop) (d : dict V) (k : string) (v : V) :
  Forall (fun kv => P (snd kv)) d -> P v ->
  Forall (fun kv => P (snd kv)) (set d k v).
Proof.
  intros F Pv. induction F as [|[k0 v0] d P0 F IH]; cbn [set].
  - now repeat constructor.
  - destruct (String.eqb k0 k); constructor; auto.
Qed.

Lemma Work_validations (output : string) (s : State) :
  validations_of (Work_process_output output s)
  = match get_str s "last_chunk_id" with
    | Some id =>
        if truthy id
        then set (validations_of s) id
               (if PyStr.startswith "VALID" output then "VALID"
                else "INVALID - " ++ output)
        else validations_of s
    | None => validations_of s
    end.
Proof.
  unfold Work_process_output. cbv zeta. rewrite get_str_setdefault.
  destruct (get_str s "last_chunk_id") as [id|];
    [destruct (truthy id); [destruct (PyStr.startswith "VALID" output)|]|];
    try apply validations_of_setdefault.
  - pose proof (get_dict_setdefault s "validations" "validations") as E.
    unfold validations_of, set_item, get_dict in *.
    rewrite get_set_same. cbn [get_or]. now rewrite E.
  - pose proof (get_dict_setdefault s "validations" "validations") as E.
    unfold validations_of, set_item, get_dict in *.
    rewrite get_set_other by discriminate.
    rewrite get_set_same. cbn [get_or]. now rewrite E.
Qed.

Lemma fold_keeps_verdicts (r : Role) (output : string) (s : State) :
  verdicts_ok s -> verdicts_ok (snd (process_output r output s)).
Proof.
  intros V. unfold verdicts_ok in *.
  destruct r;
    try (rewrite (validations_of_frame s);
         [exact V | apply fold_frame; cbn; intuition discriminate]).
  cbn [process_output snd]. rewrite Work_validations.
  destruct (get_str s "last_chunk_id") as [id|]; [|exact V].
  destruct (truthy id); [|exact V].
  apply Forall_set; [exact V|].
  destruct (PyStr.startswith "VALID" output); [now left | right; now eexists].
Qed.

Lemma reachable_verdicts (s : State) : reachable s -> verdicts_ok s.
Proof.
  induction 1 as [|r output s _ IH|s _ IH].
  - constructor.
  - now apply fold_keeps_verdicts.
  - unfold verdicts_ok. rewrite (validations_of_frame s); [exact IH|].
    apply get_set_other. discriminate.
Qed.

Lemma invalid_count_filter (vs : dict string) :
  invalid_count vs
  = List.length (filter (fun kv => PyStr.startswith "INVALID" (snd kv)) vs).
Proof.
  unfold invalid_count, values. rewrite <- (length_map snd (filter _ _)).
  f_equal. induction vs as [|[k v] d IH]; [reflexivity|].
  cbn [map filter snd]. destruct (PyStr.startswith "INVALID" v); cbn [map snd];
    now rewrite IH.
Qed.

(** X21. In every reachable state a verdict is either "VALID" or
    "INVALID - " followed by what 'work' was told, so the two counts of
    the status report of 'cube' add up to the number of verdicts, and the
    verdicts the score counts are all those that are not "VALID". *)
Theorem X21_verdicts (s : State) :
  reachable s ->
  let vs := validations_of s in
  let valid := filter (fun kv => String.eqb (snd kv) "VALID") vs in
  let invalid := filter (fun kv => PyStr.startswith "INVALID" (snd kv)) vs in
  (forall k v, get vs k = Some v -> is_verdict v)
  /\ (List.length valid + List.length invalid = len vs)%nat
  /\ (invalid_count vs = len vs - List.length valid)%nat.
Proof.
  intros R. cbv zeta. pose proof (reachable_verdicts s R) as V.
  unfold verdicts_ok in V.
  assert (C : (List.length (filter (fun kv => String.eqb (snd kv) "VALID")
                              (validations_of s))
               + List.length (filter (fun kv => PyStr.startswith "INVALID" (snd kv))
                                (validations_of s))
               = len (validations_of s))%nat).
  { unfold len. induction V as [|[k v] vs P V IH]; [reflexivity|].
    cbn [filter snd List.length] in *.
    destruct P as [-> | (o & ->)]; cbn [String.eqb Ascii.eqb Bool.eqb append];
      [change (PyStr.startswith "INVALID" "VALID") with false
      |change (PyStr.startswith "INVALID" (String "I" (String "N" (String "V"
                 (String "A" (String "L" (String "I" (String "D" (String " "
                 (String "-" (String " " o)))))))))))
         with (prefix EmptyString (String " " (String "-" (String " " o))))];
      cbn [prefix List.length]; lia. }
  split; [|split; [exact C|]].
  - intros k v G. apply get_In in G.
    rewrite Forall_forall in V. exact (V (k, v) G).
  - rewrite invalid_count_filter. lia.
Qed.

Lemma X21_verdicts_witness :
  (invalid_count (validations_of checked_state)
   = len (validations_of checked_state)
     - List.length (filter (fun kv => String.eqb (snd kv) "VALID")
                      (validations_of checked_state)))%nat.
Proof.
  apply (X21_verdicts checked_state).
  apply (reachable_fold Work), (reachable_fold Core), reachable_initial.
Defined.

(* ------------------------------------------------------------------ *)
(** ** The score kept in the state *)

Lemma no_agent_writes_score (r : Role) : ~ In SCORE (writes r).
Proof. destruct r; cbn; intuition discriminate. Qed.

Lemma cycle_score (w : World) (p : string) (n : nat) (st : State) (h : string) :
  let s := cycle_body w p n st h in
  let c := step_cycle s in
  let score := Some (PFloat (calculate_entropy st)) in
  calculate_entropy (observed c) = calculate_entropy st
  /\ get (observed c) SCORE = score
  /\ get (decided c) SCORE = score
  /\ get (step_state s) SCORE = score.
Proof.
  cbv zeta.
  destruct (cycle_body_agents w p n st h) as (Ho & Hc & _ & _ & Hs & _).
  cbv zeta in *.
  assert (D : get (decided (step_cycle (cycle_body w p n st h))) SCORE
              = Some (PFloat (calculate_entropy st))).
  { replace (decided (step_cycle (cycle_body w p n st h)))
      with (snd (process_output Cube (response_text Cube (reply_of w n Cube))
                   (observed (step_cycle (cycle_body w p n st h)))))
      by now rewrite Hc.
    rewrite fold_frame by apply no_agent_writes_score.
    rewrite Ho. apply get_set_same. }
  repeat split.
  - rewrite Ho. apply entropy_frame. intros k I. apply get_set_other.
    cbn in I. intuition (subst; discriminate).
  - rewrite Ho. apply get_set_same.
  - exact D.
  - rewrite Hs, folds_frame; [exact D|]. intros r _. apply no_agent_writes_score.
Qed.

Lemma cycles_score (w : World) (p : string) (todo : list nat) (st : State)
  (h : string) (d : Cycle) :
  todo <> [] ->
  let out := cycles w p todo st h in
  out_log out <> []
  /\ get (out_state out) SCORE
     = Some (PFloat (calculate_entropy (observed (last (out_log out) d)))).
Proof.
  cbv zeta. revert st h. induction todo as [|n todo IH]; intros st h N;
    [now contradiction N|].
  cbn [cycles]. cbv zeta.
  destruct (cycle_score w p n st h) as (E & _ & _ & S). cbv zeta in *.
  destruct (step_break (cycle_body w p n st h)); cbn [out_log out_state last].
  - split; [discriminate | now rewrite E].
  - destruct todo as [|m todo].
    + cbn [cycles out_log out_state last]. split; [discriminate | now rewrite E].
    + destruct (IH (step_state (cycle_body w p n st h))
                   (step_hash (cycle_body w p n st h)) ltac:(discriminate))
        as [NE G].
      split; [discriminate|]. rewrite G.
      destruct (out_log _) eqn:L; [now contradiction NE | reflexivity].
Qed.

(** X22. The score kept in the state is the one computed at the start
    of the cycle: no agent writes it, so what 'cube' has decided and what
    the gathered agents have stored is not in it.  The state file written
    at the end of a cycle, and the state a run ends with, carry the score
    of the state as the last cycle found it. *)
Theorem X22_score_is_stale (w : World) (initial_prompt : string) (d : Cycle) :
  let run := run_orchestration w initial_prompt in
  Forall (fun c =>
            let score := Some (PFloat (calculate_entropy (observed c))) in
            get (observed c) SCORE = score
            /\ get (decided c) SCORE = score
            /\ (forall s, snapshot c = Some s -> get s SCORE = score))
         (log run)
  /\ get (final_state run) SCORE
     = Some (PFloat (calculate_entropy (observed (last (log run) d)))).
Proof.
  cbv zeta. rewrite log_run, final_state_run. split.
  - apply cycles_log; [|constructor]. intros n st h _.
    destruct (cycle_score w initial_prompt n st h) as (E & O & D & S).
    destruct (cycle_body_agents w initial_prompt n st h) as (_ & _ & _ & _ & _ & Hf & _).
    cbv zeta in *. rewrite E. repeat split; auto.
    intros s Sn. rewrite Hf in Sn.
    destruct (tasks_to_run _ _); [discriminate|]. now injection Sn as <-.
  - apply cycles_score. discriminate.
Qed.

(* ------------------------------------------------------------------ *)
(** ** Runs that raise *)





(* ------------------------------------------------------------------ *)
(** ** The script delivered *)










(* ------------------------------------------------------------------ *)
(** ** The model on concrete inputs *)

Example strip_ex : PyStr.strip ("  plan" ++ LF ++ " ") = "plan".
Proof. reflexivity. Qed.

Example upper_long_s :
  PyStr.upper ("compo" ++ Unicode.encode 0x17f ++ "e") = "COMPOSE".
Proof. reflexivity. Qed.

Example strip_no_break_space :
  PyStr.strip ("execute" ++ Unicode.encode 0xa0) = "execute".
Proof. reflexivity. Qed.

Example lower_final_sigma :
  PyStr.lower (Unicode.encode_all [0x391; 0x3a3; 0x20; 0x3a3; 0x391]%N)
  = Unicode.encode_all [0x3b1; 0x3c2; 0x20; 0x3c3; 0x3b1]%N.
Proof. vm_compute. reflexivity. Qed.

Example upper_sharp_s :
  PyStr.upper ("stra" ++ Unicode.encode 0xdf ++ "e") = "STRASSE".
Proof. reflexivity. Qed.

Example split_ex : PyStr.split "," "a,b,,c" = ["a"; "b"; EmptyString; "c"].
Proof. reflexivity. Qed.

Example sha256_abc :
  Hashlib.sha256_hexdigest "abc"
  = "ba7816bf8f01cfea414140de5dae2223b00361a396177a9cb410ff61f20015ad".
Proof. vm_compute. reflexivity. Qed.

Example sha256_empty :
  Hashlib.sha256_hexdigest EmptyString
  = "e3b0c44298fc1c149afbf4c8996fb92427ae41e4649b934ca495991b7852b855".
Proof. vm_compute. reflexivity. Qed.

Example sha256_two_blocks :
  Hashlib.sha256_hexdigest "abcdbcdecdefdefgefghfghighijhijkijkljklmklmnlmnomnopnopq"
  = "248d6a61d20638b8e5c026930c3e6039a33ce45964ff2167f6ecedd419db06c1".
Proof. vm_compute. reflexivity. Qed.

Example entropy_initial : calculate_entropy initial_state = 230%Z.
Proof. reflexivity. Qed.

Example repr_list_ex :
  repr_list ["chunk_1"; "it's"; "x" ++ BACKSLASH ++ "y" ++ LF]
  = "['chunk_1', " ++ DQ ++ "it's" ++ DQ ++ ", 'x" ++ BACKSLASH ++ BACKSLASH
    ++ "y" ++ BACKSLASH ++ "n']".
Proof. vm_compute. reflexivity. Qed.

Example json_dumps_ex :
  json_dumps_state
    [ ("s", PFloat 150); ("d", PDict [("k", "v"); ("k2", "w")]); ("e", PDict []) ]
  = String.concat LF
      [ "{";
        "  " ++ DQ ++ "s" ++ DQ ++ ": 1.5,";
        "  " ++ DQ ++ "d" ++ DQ ++ ": {";
        "    " ++ DQ ++ "k" ++ DQ ++ ": " ++ DQ ++ "v" ++ DQ ++ ",";
        "    " ++ DQ ++ "k2" ++ DQ ++ ": " ++ DQ ++ "w" ++ DQ;
        "  },";
        "  " ++ DQ ++ "e" ++ DQ ++ ": {}";
        "}" ].
Proof. vm_compute. reflexivity. Qed.

Example json_loads_ex :
  json_loads_chunks (json_dumps_chunks (validated_chunks mixed_state) ++ LF ++ "Success")
  = Some ([("chunk_2", "print(1)")], LF ++ "Success").
Proof. vm_compute. reflexivity. Qed.

Example core_ex :
  Core_process_output fenced_output initial_state =
  [ ("status", PStr "STARTING");
    ("code_chunks", PDict [("chunk_1", "print(1)")]);
    ("validations", PDict []);
    ("last_chunk_id", PStr "chunk_1") ].
Proof. reflexivity. Qed.

Example work_ex :
  Work_process_output "VALIDATION FAILED" one_chunk_state =
  [ ("status", PStr "STARTING");
    ("code_chunks", PDict [("chunk_1", "print(1)")]);
    ("validations", PDict [("chunk_1", "VALID")]);
    ("last_chunk_id", PStr "chunk_1") ].
Proof. reflexivity. Qed.

Example cube_ex :
  Cube_process_output " compose " initial_state =
  ([], initial_state ++ [("current_action", PStr "COMPOSE")])%list.
Proof. reflexivity. Qed.

(** Ten PLAN decisions: the run stops after the tenth cycle, with no
    script. *)
Example run_always_plan :
  let run := run_orchestration world_always_plan "write a hello world script" in
  map number (log run) = seq 1 10
  /\ ending run = Exhausted
  /\ final_code run = no_script.
Proof. vm_compute. repeat split. Qed.

(** The five decisions in turn: the script of 'code' is delivered; the
    keys written in the PLAN cycle stand in the order the calls completed. *)
Example run_hello :
  let run := run_orchestration world_hello "write a hello world script" in
  map action (log run) = ["PLAN"; "EXECUTE"; "VALIDATE"; "COMPOSE"; "COMPLETE"]
  /\ ending run = Completed
  /\ final_code run
     = "def main():" ++ LF ++ "    print('hello world')" ++ LF ++ LF ++ "main()"
  /\ keys (final_state run)
     = [ "status"; "code_chunks"; "validations"; "current_entropy_score";
         "current_action"; "prompt_integrity"; "resource_management"; "plan";
         "advice"; "success_criteria"; "last_chunk_id"; "final_script" ]
  /\ map (fun c => get_float (observed c) "current_entropy_score") (log run)
     = [Some 230; Some 0; Some 0; Some 0; Some 0]%Z.
Proof. vm_compute. repeat split. Qed.

(** PLAN, then COMPLETE: two cycles, five agents run in all. *)
Example run_plan_once :
  let run := run_orchestration world_plan_once "write a hello world script" in
  map (fun c => (number c, action c, map agent (results c))) (log run)
  = [ (1%nat, "PLAN",
       ["WavePromiser"; "LoopAdvisor"; "LineResourceManager"; "CoinRequestSecurer"]);
      (2%nat, "COMPLETE", []) ]
  /\ ending run = Completed.
Proof. vm_compute. repeat split. Qed.
